(** * Mrmerch product catalog: a shallow embedding of the product path

    Sources embedded here:
    - [src/lib/mongodb.ts]                      (getDatabase, initializeIndexes)
    - [src/lib/services/productService.ts]      (ProductService)
    - [src/app/api/products/route.ts]           (GET, POST)
    - [src/app/api/health/route.ts]             (GET)
    - [src/scripts/init-indexes.js]             (initIndexes)
    - [src/lib/redux/slices/productsSlice.ts]   (thunks and reducers)
    - [src/components/dashboard/common/ProductAnglesSelector.tsx]
                                                (ProductAnglesSelector;
                                                 ProductFormDialog: onSubmit
                                                 and the helpers that edit
                                                 the variations)
    - [src/components/design-tool-editor/design-tool/design-tool-container.tsx]
                                                (DesignToolContainer,
                                                 ProductsView)

    JavaScript values are modelled by [JsVal], objects by finite maps from
    property names to values, numbers by [Number] (rationals extended with
    NaN and the infinities; rounding of doubles and the sign of zero are not
    modelled).  Asynchronous code that talks to the MongoDB driver is written
    in a free monad [Prog] over the driver calls, so that a statement can
    quantify over every behaviour of the driver, or be specialised to the
    in-memory store [Mongo.handler]. *)

From Stdlib Require Import ZArith QArith Qround Qreduction String Ascii List Lia.
From Stdlib Require Import DecimalString DecimalPos Sorting.Sorted.
From stdpp Require Import base gmap strings list.

#[local] Set Warnings "-register-all".
#[local] Close Scope Q_scope.
#[local] Open Scope Z_scope.
#[local] Open Scope string_scope.

(* ===================================================================== *)
(** ** JavaScript numbers, strings and values *)
(* ===================================================================== *)

Module Js.

(** A JavaScript number.  Finite values are kept in reduced form so that
    Leibniz equality coincides with numeric equality. *)
Inductive Number : Type :=
| NaN
| PosInf
| NegInf
| Fin (q : Q).

Definition num (z : Z) : Number := Fin (inject_Z z).

Definition Qsign (q : Q) : comparison := Qcompare q 0%Q.

(** [a - b] *)
Definition sub (a b : Number) : Number :=
  match a, b with
  | NaN, _ | _, NaN => NaN
  | PosInf, PosInf | NegInf, NegInf => NaN
  | PosInf, _ => PosInf
  | NegInf, _ => NegInf
  | Fin _, PosInf => NegInf
  | Fin _, NegInf => PosInf
  | Fin p, Fin q => Fin (Qred (p - q))
  end.

Definition inf_of_sign (c : comparison) : Number :=
  match c with
  | Eq => NaN
  | Gt => PosInf
  | Lt => NegInf
  end.

Definition flip (c : comparison) : comparison := CompOpp c.

(** [a * b] *)
Definition mul (a b : Number) : Number :=
  match a, b with
  | NaN, _ | _, NaN => NaN
  | PosInf, PosInf | NegInf, NegInf => PosInf
  | PosInf, NegInf | NegInf, PosInf => NegInf
  | PosInf, Fin q | Fin q, PosInf => inf_of_sign (Qsign q)
  | NegInf, Fin q | Fin q, NegInf => inf_of_sign (flip (Qsign q))
  | Fin p, Fin q => Fin (Qred (p * q))
  end.

(** [a / b]; a zero divisor is taken as [+0]. *)
Definition div (a b : Number) : Number :=
  match a, b with
  | NaN, _ | _, NaN => NaN
  | (PosInf | NegInf), (PosInf | NegInf) => NaN
  | PosInf, Fin q => match Qsign q with Lt => NegInf | _ => PosInf end
  | NegInf, Fin q => match Qsign q with Lt => PosInf | _ => NegInf end
  | Fin _, (PosInf | NegInf) => Fin 0%Q
  | Fin p, Fin q =>
      match Qsign q with
      | Eq => inf_of_sign (Qsign p)
      | _ => Fin (Qred (p / q))
      end
  end.

(** [Math.ceil] *)
Definition Math_ceil (a : Number) : Number :=
  match a with
  | Fin q => num (Qceiling q)
  | other => other
  end.

(** The relational operators; every comparison with NaN is false. *)
Definition lt (a b : Number) : bool :=
  match a, b with
  | NaN, _ | _, NaN => false
  | _, NegInf => false
  | PosInf, _ => false
  | NegInf, _ => true
  | Fin _, PosInf => true
  | Fin p, Fin q => match Qcompare p q with Lt => true | _ => false end
  end.

Definition gt (a b : Number) : bool := lt b a.

Definition ge (a b : Number) : bool :=
  match a, b with
  | NaN, _ | _, NaN => false
  | _, _ => negb (lt a b)
  end.

(** [Some z] when the number is the integer [z]. *)
Definition as_integer (a : Number) : option Z :=
  match a with
  | Fin q => if Pos.eqb (Qden (Qred q)) 1 then Some (Qnum (Qred q)) else None
  | _ => None
  end.

(** *** Strings *)

(** White space as [String.prototype.trim] strips it, restricted to the
    ASCII range. *)
Definition is_whitespace (c : ascii) : bool :=
  let n := nat_of_ascii c in
  (Nat.eqb n 32 || (Nat.leb 9 n && Nat.leb n 13))%bool.

Fixpoint trimStart (s : string) : string :=
  match s with
  | EmptyString => EmptyString
  | String c rest => if is_whitespace c then trimStart rest else s
  end.

Fixpoint rev_string (s acc : string) : string :=
  match s with
  | EmptyString => acc
  | String c rest => rev_string rest (String c acc)
  end.

Definition trimEnd (s : string) : string :=
  rev_string (trimStart (rev_string s EmptyString)) EmptyString.

Definition trim (s : string) : string := trimEnd (trimStart s).

Definition is_hex_digit (c : ascii) : bool :=
  let n := nat_of_ascii c in
  ((Nat.leb 48 n && Nat.leb n 57)
   || (Nat.leb 65 n && Nat.leb n 70)
   || (Nat.leb 97 n && Nat.leb n 102))%bool.

Definition to_lower (c : ascii) : ascii :=
  let n := nat_of_ascii c in
  if (Nat.leb 65 n && Nat.leb n 90)%bool then ascii_of_nat (n + 32) else c.

Fixpoint toLowerCase (s : string) : string :=
  match s with
  | EmptyString => EmptyString
  | String c rest => String (to_lower c) (toLowerCase rest)
  end.

Fixpoint string_forallb (f : ascii -> bool) (s : string) : bool :=
  match s with
  | EmptyString => true
  | String c rest => (f c && string_forallb f rest)%bool
  end.

(** [s.includes(t)] *)
Fixpoint includes (s t : string) : bool :=
  (String.prefix t s
   || match s with
      | EmptyString => false
      | String _ rest => includes rest t
      end)%bool.

(** [parseInt(input)] without a radix argument.  The result is the exact
    integer read, also where a double would round it. *)
Definition digit_value (radix : Z) (c : ascii) : option Z :=
  let n := Z.of_nat (nat_of_ascii c) in
  let v :=
    if (Z.leb 48 n && Z.leb n 57)%bool then Some (n - 48)
    else if (Z.leb 97 n && Z.leb n 122)%bool then Some (n - 87)
    else if (Z.leb 65 n && Z.leb n 90)%bool then Some (n - 55)
    else None in
  match v with
  | Some d => if Z.ltb d radix then Some d else None
  | None => None
  end.

Fixpoint parse_digits (radix : Z) (s : string) (acc : option Z) : option Z :=
  match s with
  | EmptyString => acc
  | String c rest =>
      match digit_value radix c with
      | Some d =>
          parse_digits radix rest
            (Some (match acc with Some a => a * radix + d | None => d end))
      | None => acc
      end
  end.

Definition strip_sign (s : string) : bool * string :=
  match s with
  | String c rest =>
      if Ascii.eqb c "-" then (true, rest)
      else if Ascii.eqb c "+" then (false, rest)
      else (false, s)
  | EmptyString => (false, s)
  end.

Definition strip_hex_prefix (s : string) : Z * string :=
  match s with
  | String c0 (String c1 rest) =>
      if (Ascii.eqb c0 "0" && (Ascii.eqb c1 "x" || Ascii.eqb c1 "X"))%bool
      then (16, rest) else (10, s)
  | _ => (10, s)
  end.

Definition parseInt (input : string) : Number :=
  let '(negative, s1) := strip_sign (trimStart input) in
  let '(radix, s2) := strip_hex_prefix s1 in
  match parse_digits radix s2 None with
  | None => NaN
  | Some m => num (if negative : bool then - m else m)
  end.

(** *** Values *)

Inductive JsVal : Type :=
| VUndef
| VNull
| VBool (b : bool)
| VNum (n : Number)
| VStr (s : string)
| VDate (millis : Z)
| VOid (hex : string)
| VArr (l : list JsVal)
| VObj (m : gmap string JsVal).

(** A plain object. *)
Abbreviation Obj := (gmap string JsVal).

(** Property read [o.k]: a missing property reads as [undefined]. *)
Definition get (o : Obj) (k : string) : JsVal := default VUndef (o !! k).

(** Truthiness, as used by [if], [&&], [||] and [!]. *)
Definition truthy (v : JsVal) : bool :=
  match v with
  | VUndef | VNull => false
  | VBool b => b
  | VNum NaN => false
  | VNum (Fin q) => negb (Qeq_bool q 0%Q)
  | VNum _ => true
  | VStr s => negb (String.eqb s "")
  | VDate _ | VOid _ | VArr _ | VObj _ => true
  end.

(** [a || b] *)
Definition js_or (a b : JsVal) : JsVal := if truthy a then a else b.

(** [a || b] on strings that may be undefined. *)
Definition or_str (a : option string) (b : string) : string :=
  match a with
  | Some s => if String.eqb s "" then b else s
  | None => b
  end.

(** An exception value: what [error.message] and [error.code] read. *)
Record JsError : Type := mkError {
  err_message : string;
  err_code : option Z
}.

Inductive Outcome (A : Type) : Type :=
| Returned (a : A)
| Threw (e : JsError).
Arguments Returned {A} a.
Arguments Threw {A} e.

Definition returned {A} (o : Outcome A) : bool :=
  match o with Returned _ => true | Threw _ => false end.

End Js.

(* ===================================================================== *)
(** ** The MongoDB driver as seen by the application *)
(* ===================================================================== *)

Module Mongo.
Import Js.

Inductive IndexKind : Type := Ascending | Descending | Text.

(** The two arguments of [collection.createIndex(keys, options)]. *)
Record IndexSpec : Type := mkIndex {
  ix_keys : list (string * IndexKind);
  ix_name : string;
  ix_weights : list (string * Z)
}.

(** [{ field: { $regex: pattern, $options: options } }] *)
Record RegexCond : Type := mkRegex {
  rx_field : string;
  rx_pattern : string;
  rx_options : string
}.

(** The [matchConditions] object of [getProductsPaginated]: each of the
    three properties it can carry is either set or absent. *)
Record MatchConditions : Type := mkMatch {
  mc_categoryId : option string;
  mc_text : option string;
  mc_or : option (list RegexCond)
}.

Inductive Stage : Type :=
| St_match (mc : MatchConditions)
| St_sort (field : string) (direction : Z)
| St_skip (n : Number)
| St_limit (n : Number)
| St_addFields_toString (target source : string)
| St_project (excluded : list string) (included : list string)
| St_count (field : string).

(** The driver calls the sources make, indexed by what they resolve to. *)
Inductive Op : Type -> Type :=
| Connect : Op unit
| CountDocuments : Op Z
| IndexExists (name : string) : Op bool
| CreateIndex (spec : IndexSpec) : Op string
| Aggregate (pipeline : list Stage) : Op (list Obj)
| InsertOne (doc : Obj) : Op string
| FindOne (oid : string) : Op (option Obj)
| NewDate : Op Z.

(** [NewDate] reads the clock; every other call reaches the store. *)
Definition is_store_query {R} (op : Op R) : bool :=
  match op with
  | NewDate => false
  | _ => true
  end.

(** The call that probes for an index. *)
Definition is_probe {R} (op : Op R) : bool :=
  match op with IndexExists _ => true | _ => false end.

(** Programs: the [async] functions of the sources, with [await driverCall]
    as [Vis], [return] as [Ret] and [throw] as [Throw]. *)
Inductive Prog (A : Type) : Type :=
| Ret (a : A)
| Throw (e : JsError)
| Vis {R : Type} (op : Op R) (k : Outcome R -> Prog A).
Arguments Ret {A} a.
Arguments Throw {A} e.
Arguments Vis {A R} op k.

Fixpoint bind {A B} (p : Prog A) (f : A -> Prog B) : Prog B :=
  match p with
  | Ret a => f a
  | Throw e => Throw e
  | Vis op k => Vis op (fun o => bind (k o) f)
  end.

(** [try { p } catch (e) { h e }] *)
Fixpoint try_catch {A} (p : Prog A) (h : JsError -> Prog A) : Prog A :=
  match p with
  | Ret a => Ret a
  | Throw e => h e
  | Vis op k => Vis op (fun o => try_catch (k o) h)
  end.

(** [await driverCall]: a rejected promise is rethrown. *)
Definition await {R} (op : Op R) : Prog R :=
  Vis op (fun o => match o with Returned r => Ret r | Threw e => Throw e end).

(** [promise.catch(h)] on a driver call. *)
Definition catch {R} (op : Op R) (h : JsError -> R) : Prog R :=
  try_catch (await op) (fun e => Ret (h e)).

Definition of_outcome {A} (o : Outcome A) : Prog A :=
  match o with Returned a => Ret a | Threw e => Throw e end.

Declare Scope prog_scope.
Delimit Scope prog_scope with prog.
Notation "x <- p ;; k" := (bind p (fun x => k))
  (at level 100, p at next level, right associativity) : prog_scope.
Notation "p ;;; k" := (bind p (fun _ => k))
  (at level 100, right associativity) : prog_scope.

(** A driver: how each call is answered in a world [W]. *)
Definition Handler (W : Type) : Type := forall R, Op R -> W -> Outcome R * W.

Fixpoint run {W A} (h : Handler W) (p : Prog A) (w : W) : Outcome A * W :=
  match p with
  | Ret a => (Returned a, w)
  | Throw e => (Threw e, w)
  | Vis op k => let '(o, w') := h _ op w in run h (k o) w'
  end.

(** The number of store queries a run issues. *)
Fixpoint queries {W A} (h : Handler W) (p : Prog A) (w : W) : nat :=
  match p with
  | Ret _ | Throw _ => 0%nat
  | Vis op k =>
      let '(o, w') := h _ op w in
      ((if is_store_query op then 1 else 0) + queries h (k o) w')%nat
  end.

End Mongo.

(* ===================================================================== *)
(** ** An in-memory store answering the driver calls *)
(* ===================================================================== *)

Module MemStore.
Import Js Mongo.

(** What the server's search operators compute is left to the server: how a
    [$regex] with its [$options] is compiled ([None]: the pattern is
    rejected), and whether a [$text] search string hits the indexed content
    of one field. *)
Class Semantics : Type := {
  regex_compile : string -> string -> option (string -> bool);
  text_match : string -> string -> bool
}.

Record World : Type := mkWorld {
  docs : list Obj;
  indexes : list IndexSpec;
  clock : Z;
  next_oid : N;
  online : bool
}.

#[global] Instance IndexKind_eq_dec : EqDecision IndexKind.
Proof. solve_decision. Defined.

#[global] Instance IndexSpec_eq_dec : EqDecision IndexSpec.
Proof. solve_decision. Defined.

(** *** ObjectIds *)

Definition hex_char (d : N) : ascii :=
  match d with
  | 0%N => "0" | 1%N => "1" | 2%N => "2" | 3%N => "3"
  | 4%N => "4" | 5%N => "5" | 6%N => "6" | 7%N => "7"
  | 8%N => "8" | 9%N => "9" | 10%N => "a" | 11%N => "b"
  | 12%N => "c" | 13%N => "d" | 14%N => "e" | _ => "f"
  end%char.

Fixpoint hex_digits (k : nat) (n : N) (acc : string) : string :=
  match k with
  | O => acc
  | S k' => hex_digits k' (N.div n 16) (String (hex_char (N.modulo n 16)) acc)
  end.

(** The twelve bytes of a generated id, printed as [toString()] does. *)
Definition render_oid (n : N) : string := hex_digits 24 n EmptyString.

(** [new ObjectId(id)] for a string argument: a 24 character hex string is
    taken, anything else throws. *)
Definition ObjectId_new (id : string) : Outcome string :=
  if (Nat.eqb (String.length id) 24 && string_forallb is_hex_digit id)%bool
  then Returned (toLowerCase id)
  else Threw (mkError "input must be a 24 character hex string, 12 byte Uint8Array, or an integer" None).

(** *** Queries *)

Section Store.
Context {sem : Semantics}.

Definition field_string (d : Obj) (f : string) : option string :=
  match d !! f with
  | Some (VStr s) => Some s
  | _ => None
  end.

Definition is_text (k : IndexKind) : bool :=
  match k with Text => true | _ => false end.

Definition text_fields (ix : IndexSpec) : list string :=
  List.map fst (List.filter (fun kv => is_text (snd kv)) (ix_keys ix)).

Definition is_text_index (ix : IndexSpec) : bool :=
  match text_fields ix with [] => false | _ => true end.

Definition find_text_index (ixs : list IndexSpec) : option IndexSpec :=
  List.find is_text_index ixs.

Definition compile_regex (c : RegexCond) : option (Obj -> bool) :=
  match regex_compile (rx_pattern c) (rx_options c) with
  | Some m =>
      Some (fun d => match field_string d (rx_field c) with
                     | Some s => m s
                     | None => false
                     end)
  | None => None
  end.

Fixpoint compile_or (cs : list RegexCond) : option (Obj -> bool) :=
  match cs with
  | [] => Some (fun _ => false)
  | c :: rest =>
      match compile_regex c, compile_or rest with
      | Some m, Some ms => Some (fun d => (m d || ms d)%bool)
      | _, _ => None
      end
  end.

Definition match_category (mc : MatchConditions) (d : Obj) : bool :=
  match mc_categoryId mc with
  | None => true
  | Some c =>
      match field_string d "categoryId" with
      | Some s => String.eqb s c
      | None => false
      end
  end.

Definition compile_text (ixs : list IndexSpec) (mc : MatchConditions)
  : Outcome (Obj -> bool) :=
  match mc_text mc with
  | None => Returned (fun _ => true)
  | Some search =>
      match find_text_index ixs with
      | None => Threw (mkError "text index required for $text query" (Some 27))
      | Some ix =>
          Returned (fun d =>
            existsb (fun f => match field_string d f with
                              | Some s => text_match search s
                              | None => false
                              end) (text_fields ix))
      end
  end.

Definition compile_or_clause (mc : MatchConditions) : Outcome (Obj -> bool) :=
  match mc_or mc with
  | None => Returned (fun _ => true)
  | Some [] => Threw (mkError "$or must be a nonempty array" (Some 2))
  | Some cs =>
      match compile_or cs with
      | Some m => Returned m
      | None => Threw (mkError "Regular expression is invalid" (Some 51091))
      end
  end.

(** The filter of a [$match] stage, or the error the server answers with. *)
Definition compile_match (ixs : list IndexSpec) (mc : MatchConditions)
  : Outcome (Obj -> bool) :=
  match compile_text ixs mc, compile_or_clause mc with
  | Returned t, Returned o =>
      Returned (fun d => (match_category mc d && t d && o d)%bool)
  | Threw e, _ => Threw e
  | _, Threw e => Threw e
  end.

(** Dates sort above every other value a document of this model can hold;
    values that are not dates are not ordered among themselves. *)
Definition date_key (d : Obj) (f : string) : option Z :=
  match d !! f with
  | Some (VDate t) => Some t
  | _ => None
  end.

Definition key_le (a b : option Z) : bool :=
  match a, b with
  | None, _ => true
  | Some _, None => false
  | Some x, Some y => Z.leb x y
  end.

Fixpoint insert_sorted (le : Obj -> Obj -> bool) (x : Obj) (l : list Obj)
  : list Obj :=
  match l with
  | [] => [x]
  | y :: rest => if le x y then x :: l else y :: insert_sorted le x rest
  end.

Fixpoint sort_by (le : Obj -> Obj -> bool) (l : list Obj) : list Obj :=
  match l with
  | [] => []
  | x :: rest => insert_sorted le x (sort_by le rest)
  end.

Definition project (excluded included : list string) (d : Obj) : Obj :=
  list_to_map
    (List.filter (fun kv => (existsb (String.eqb (fst kv)) included
                             && negb (existsb (String.eqb (fst kv)) excluded))%bool)
                 (map_to_list d)).

Definition toString_field (target source : string) (d : Obj) : Obj :=
  match d !! source with
  | Some (VOid h) => <[target := VStr h]> d
  | Some (VStr s) => <[target := VStr s]> d
  | _ => <[target := VNull]> d
  end.

Definition run_stage (ixs : list IndexSpec) (st : Stage) (ds : list Obj)
  : Outcome (list Obj) :=
  match st with
  | St_match mc =>
      match compile_match ixs mc with
      | Returned f => Returned (List.filter f ds)
      | Threw e => Threw e
      end
  | St_sort f dir =>
      if Z.eqb dir (-1)
      then Returned (sort_by (fun a b => key_le (date_key b f) (date_key a f)) ds)
      else if Z.eqb dir 1
      then Returned (sort_by (fun a b => key_le (date_key a f) (date_key b f)) ds)
      else Threw (mkError "$sort key ordering must be 1 or -1" (Some 15975))
  | St_skip n =>
      match as_integer n with
      | Some k =>
          if Z.leb 0 k then Returned (skipn (Z.to_nat k) ds)
          else Threw (mkError "invalid argument to $skip stage" (Some 5107200))
      | None => Threw (mkError "invalid argument to $skip stage" (Some 5107200))
      end
  | St_limit n =>
      match as_integer n with
      | Some k =>
          if Z.ltb 0 k then Returned (firstn (Z.to_nat k) ds)
          else Threw (mkError "the limit must be positive" (Some 15958))
      | None => Threw (mkError "invalid argument to $limit stage" (Some 5107201))
      end
  | St_addFields_toString target source =>
      Returned (List.map (toString_field target source) ds)
  | St_project excluded included =>
      Returned (List.map (project excluded included) ds)
  | St_count f =>
      match ds with
      | [] => Returned []
      | _ => Returned [ {[ f := VNum (num (Z.of_nat (length ds))) ]} ]
      end
  end.

Fixpoint run_pipeline (ixs : list IndexSpec) (p : list Stage) (ds : list Obj)
  : Outcome (list Obj) :=
  match p with
  | [] => Returned ds
  | st :: rest =>
      match run_stage ixs st ds with
      | Returned ds' => run_pipeline ixs rest ds'
      | Threw e => Threw e
      end
  end.

(** *** Index creation *)

Definition create_index (spec : IndexSpec) (ixs : list IndexSpec)
  : Outcome string * list IndexSpec :=
  match List.find (fun ix => String.eqb (ix_name ix) (ix_name spec)) ixs with
  | Some ix =>
      if bool_decide (ix = spec) then (Returned (ix_name spec), ixs)
      else (Threw (mkError "An existing index has the same name as the requested index" (Some 86)), ixs)
  | None =>
      if existsb (fun ix => bool_decide (ix_keys ix = ix_keys spec)) ixs
      then (Threw (mkError "Index already exists with a different name" (Some 85)), ixs)
      else if (is_text_index spec && existsb is_text_index ixs)%bool
      then (Threw (mkError "Only one text index is allowed per collection" (Some 85)), ixs)
      else (Returned (ix_name spec), (ixs ++ [spec])%list)
  end.

(** *** Documents *)

Definition has_id (oid : string) (d : Obj) : bool :=
  match d !! "_id" with
  | Some (VOid h) => String.eqb h oid
  | _ => false
  end.

Definition insert_one (doc : Obj) (w : World) : Outcome string * World :=
  match doc !! "_id" with
  | None =>
      let oid := render_oid (next_oid w) in
      if existsb (has_id oid) (docs w)
      then (Threw (mkError "E11000 duplicate key error" (Some 11000)), w)
      else (Returned oid,
            mkWorld (docs w ++ [<["_id" := VOid oid]> doc])%list (indexes w)
                    (clock w) (N.succ (next_oid w)) (online w))
  | Some (VOid oid) =>
      if existsb (has_id oid) (docs w)
      then (Threw (mkError "E11000 duplicate key error" (Some 11000)), w)
      else (Returned oid,
            mkWorld (docs w ++ [doc])%list (indexes w)
                    (clock w) (next_oid w) (online w))
  | Some _ => (Threw (mkError "unsupported _id" None), w)
  end.

Definition offline_error : JsError :=
  mkError "connect ECONNREFUSED" None.

(** The store: every call fails while the server is unreachable. *)
Definition handler : Handler World :=
  fun R op w =>
    if negb (online w)
    then match op in Op R0 return Outcome R0 * World with
         | NewDate => (Returned (clock w), w)
         | _ => (Threw offline_error, w)
         end
    else
    match op in Op R0 return Outcome R0 * World with
    | Connect => (Returned tt, w)
    | CountDocuments => (Returned (Z.of_nat (length (docs w))), w)
    | IndexExists name =>
        (Returned (existsb (fun ix => String.eqb (ix_name ix) name) (indexes w)), w)
    | CreateIndex spec =>
        let '(o, ixs) := create_index spec (indexes w) in
        (o, mkWorld (docs w) ixs (clock w) (next_oid w) (online w))
    | Aggregate p => (run_pipeline (indexes w) p (docs w), w)
    | InsertOne doc => insert_one doc w
    | FindOne oid => (Returned (List.find (has_id oid) (docs w)), w)
    | NewDate => (Returned (clock w), w)
    end.

End Store.
End MemStore.

(* ===================================================================== *)
(** ** [src/lib/mongodb.ts] *)
(* ===================================================================== *)

Module MongoDb.
Import Js Mongo.
#[local] Open Scope prog_scope.

(** [getDatabase]: awaits the shared client promise. *)
Definition getDatabase : Prog unit := await Connect.

Definition product_search_index : IndexSpec :=
  mkIndex [("name", Text); ("description", Text)]
          "product_search_index"
          [("name", 10); ("description", 5)].

Definition category_index : IndexSpec :=
  mkIndex [("categoryId", Ascending)] "category_index" [].

Definition created_at_index : IndexSpec :=
  mkIndex [("createdAt", Descending)] "created_at_index" [].

Definition category_created_at_index : IndexSpec :=
  mkIndex [("categoryId", Ascending); ("createdAt", Descending)]
          "category_created_at_index" [].

(** [promise.catch(() => console.log(..))]: a rejection resolves to
    [undefined]. *)
Definition catch_log {R} (op : Op R) : Prog (option R) :=
  try_catch (r <- await op ;; Ret (Some r)) (fun _ => Ret None).

(** [await Promise.all(ps)], the calls being issued in the order written. *)
Fixpoint Promise_all {A} (ps : list (Prog A)) : Prog (list A) :=
  match ps with
  | [] => Ret []
  | p :: rest => a <- p ;; l <- Promise_all rest ;; Ret (a :: l)
  end.

Definition initializeIndexes : Prog unit :=
  try_catch
    (_ <- getDatabase ;;
     _ <- Promise_all
            [ catch_log (CreateIndex product_search_index);
              catch_log (CreateIndex category_index);
              catch_log (CreateIndex created_at_index);
              catch_log (CreateIndex category_created_at_index) ] ;;
     Ret tt)
    (fun _ => Ret tt).

End MongoDb.

(* ===================================================================== *)
(** ** [src/lib/services/productService.ts] *)
(* ===================================================================== *)

Module ProductService.
Import Js Mongo.
#[local] Open Scope prog_scope.

Record PaginationParams : Type := mkParams {
  page : Number;
  limit : Number;
  search : option string;
  categoryId : option string
}.

Record Pagination : Type := mkPagination {
  pg_page : Number;
  pg_limit : Number;
  pg_total : Number;
  pg_totalPages : Number;
  pg_hasNext : bool;
  pg_hasPrev : bool
}.

Record PaginatedResult : Type := mkResult {
  data : list Obj;
  pagination : Pagination
}.

Definition getCollection : Prog unit := MongoDb.getDatabase.

Definition createIndexes : Prog unit :=
  _ <- getCollection ;;
  try_catch
    (_ <- await (CreateIndex MongoDb.product_search_index) ;;
     _ <- await (CreateIndex MongoDb.category_index) ;;
     _ <- await (CreateIndex MongoDb.created_at_index) ;;
     _ <- await (CreateIndex MongoDb.category_created_at_index) ;;
     Ret tt)
    (fun _ => Ret tt).

(** [{ ...o, k1: src.k1, k2: src.k2, .. }] *)
Definition with_fields (src : Obj) (ks : list string) (o : Obj) : Obj :=
  fold_left (fun acc k => <[k := get src k]> acc) ks o.

(** The properties [createProduct] lists after the spread. *)
Definition created_fields : list string :=
  [ "hasVariations"; "variations"; "eligibleForCoupons"; "type"; "baseColor";
    "angles"; "colors"; "purchaseLimit";
    "frontImage"; "backImage"; "leftImage"; "rightImage"; "materialImage";
    "frontAltText"; "backAltText"; "leftAltText"; "rightAltText";
    "materialAltText" ].

(** The properties [getAllProducts], [getProductById] and [updateProduct]
    copy from the stored document. *)
Definition product_fields : list string :=
  [ "name"; "price"; "image"; "categoryId"; "subcategoryIds"; "description";
    "inStock"; "createdAt"; "updatedAt" ] ++ created_fields.

Definition createProduct (productData : Obj) : Prog Obj :=
  _ <- getCollection ;;
  createdAt <- await NewDate ;;
  updatedAt <- await NewDate ;;
  let newProduct :=
    <["updatedAt" := VDate updatedAt]>
      (<["createdAt" := VDate createdAt]> productData) in
  insertedId <- await (InsertOne newProduct) ;;
  Ret (with_fields productData created_fields
         (productData ∪ {[ "id" := VStr insertedId ]})).

(** The stored document as the external [Product]. *)
Definition to_product (product : Obj) : Outcome Obj :=
  match get product "_id" with
  | VOid h => Returned (with_fields product product_fields {[ "id" := VStr h ]})
  | _ => Threw (mkError "Cannot read properties of undefined (reading 'toString')" None)
  end.

Definition getProductById (id : string) : Prog (option Obj) :=
  _ <- getCollection ;;
  oid <- of_outcome (MemStore.ObjectId_new id) ;;
  product <- await (FindOne oid) ;;
  match product with
  | None => Ret None
  | Some p => r <- of_outcome (to_product p) ;; Ret (Some r)
  end.

Definition regex_fallback (s : string) : list RegexCond :=
  [ mkRegex "name" s "i"; mkRegex "description" s "i" ].

(** [if (categoryId && categoryId !== 'all') matchConditions.categoryId = categoryId] *)
Definition category_filter (params : PaginationParams) : option string :=
  match categoryId params with
  | Some c =>
      if (negb (String.eqb c "") && negb (String.eqb c "all"))%bool
      then Some c else None
  | None => None
  end.

(** [search && search.trim() !== ''] *)
Definition has_search (s : string) : bool :=
  (negb (String.eqb s "") && negb (String.eqb (trim s) ""))%bool.

(** The part of [getProductsPaginated] that fills [matchConditions]. *)
Definition buildMatchConditions (params : PaginationParams)
  : Prog MatchConditions :=
  let category := category_filter params in
  match search params with
  | Some s =>
      if has_search s
      then
        try_catch
          (hasTextIndex <- await (IndexExists "product_search_index") ;;
           if hasTextIndex : bool
           then Ret (mkMatch category (Some s) None)
           else Ret (mkMatch category None (Some (regex_fallback s))))
          (fun _ => Ret (mkMatch category None (Some (regex_fallback s))))
      else Ret (mkMatch category None None)
  | None => Ret (mkMatch category None None)
  end.

Definition projected_fields : list string := "id" :: product_fields.

Definition page_pipeline (mc : MatchConditions) (skip limit : Number)
  : list Stage :=
  [ St_match mc;
    St_sort "createdAt" (-1);
    St_skip skip;
    St_limit limit;
    St_addFields_toString "id" "_id";
    St_project ["_id"] projected_fields ].

Definition count_pipeline (mc : MatchConditions) : list Stage :=
  [ St_match mc; St_count "total" ].

(** [countResult?.total || 0], [countResult] being the first document of
    the reply.  The [$count] stage answers with a number; a reply of any
    other shape is read as [0]. *)
Definition count_total (reply : list Obj) : Number :=
  match reply with
  | [] => num 0
  | countResult :: _ =>
      match get countResult "total" with
      | VNum n => if truthy (VNum n) then n else num 0
      | _ => num 0
      end
  end.

Definition getProductsPaginated (params : PaginationParams)
  : Prog PaginatedResult :=
  _ <- getCollection ;;
  totalDocuments <- await CountDocuments ;;
  let skip := mul (sub (page params) (num 1)) (limit params) in
  matchConditions <- buildMatchConditions params ;;
  try_catch
    (countReply <- await (Aggregate (count_pipeline matchConditions)) ;;
     let total := count_total countReply in
     products <- await (Aggregate (page_pipeline matchConditions skip (limit params))) ;;
     let totalPages := Math_ceil (div total (limit params)) in
     let hasNext := lt (page params) totalPages in
     let hasPrev := gt (page params) (num 1) in
     Ret (mkResult products
            (mkPagination (page params) (limit params) total totalPages
                          hasNext hasPrev)))
    (fun error => Throw error).

End ProductService.

(* ===================================================================== *)
(** ** [src/app/api/products/route.ts] *)
(* ===================================================================== *)

Module Route.
Import Js Mongo ProductService.
#[local] Open Scope prog_scope.

(** What [searchParams.get] answers for the four parameters read. *)
Record Request : Type := mkRequest {
  q_page : option string;
  q_limit : option string;
  q_search : option string;
  q_categoryId : option string
}.

Inductive Body : Type :=
| ErrorBody (error : string) (details : option string)
| ResultBody (result : PaginatedResult).

Record Response : Type := mkResponse {
  status : Z;
  body : Body
}.

Definition GET (request : Request) : Prog Response :=
  try_catch
    (let page := parseInt (or_str (q_page request) "1") in
     let limit := parseInt (or_str (q_limit request) "10") in
     let search := or_str (q_search request) "" in
     let categoryId := or_str (q_categoryId request) "" in
     if (lt page (num 1) || lt limit (num 1) || gt limit (num 1000))%bool
     then Ret (mkResponse 500 (ErrorBody "Invalid pagination parameters" None))
     else
       result <- getProductsPaginated
                   (mkParams page limit (Some search) (Some categoryId)) ;;
       Ret (mkResponse 200 (ResultBody result)))
    (fun error =>
       Ret (mkResponse 500
              (ErrorBody "Failed to fetch products" (Some (err_message error))))).

End Route.

(* ===================================================================== *)
(** ** [src/lib/redux/slices/productsSlice.ts] *)
(* ===================================================================== *)

Module ProductsSlice.
Import Js.

(** The [pagination] object of the state and of a fetched page. *)
Record Pagination : Type := mkPagination {
  page : Number;
  limit : Number;
  total : Number;
  totalPages : Number;
  hasNext : bool;
  hasPrev : bool
}.

(** [items] is declared [Product[]]; at run time it holds whatever a
    reducer stored, hence a [JsVal].  [pageCache] is keyed by page number:
    the newest binding of a key comes first. *)
Record State : Type := mkState {
  items : JsVal;
  loading : bool;
  error : option string;
  pagination : Pagination;
  searchTerm : string;
  selectedCategory : string;
  pageCache : list (Number * JsVal)
}.

Definition initialState : State :=
  mkState (VArr []) false None
          (mkPagination (num 1) (num 10) (num 0) (num 0) false false)
          "" "all" [].

(** Property read [v.k] on an arbitrary value. *)
Definition prop (v : JsVal) (k : string) : Outcome JsVal :=
  match v with
  | VUndef | VNull =>
      Threw (mkError ("Cannot read properties of null or undefined (reading '" ++ k ++ "')") None)
  | VObj m => Returned (get m k)
  | VArr l =>
      if String.eqb k "length" then Returned (VNum (num (Z.of_nat (length l))))
      else Returned VUndef
  | VStr s =>
      if String.eqb k "length" then Returned (VNum (num (Z.of_nat (String.length s))))
      else Returned VUndef
  | _ => Returned VUndef
  end.

Definition isArray (v : JsVal) : bool :=
  match v with VArr _ => true | _ => false end.

(** What [fetch] resolved to: the [ok] flag and the outcome of
    [response.json()]. *)
Record FetchResponse : Type := mkFetch {
  ok : bool;
  json : Outcome JsVal
}.

(** The payload creator of the [fetchProducts] thunk, given the outcome of
    [fetch("/api/products?page=1&limit=1000")]. *)
Definition fetchProducts (fetched : Outcome FetchResponse) : Outcome JsVal :=
  match fetched with
  | Threw e => Threw e
  | Returned response =>
      if negb (ok response)
      then Threw (mkError "Failed to fetch products" None)
      else
        match json response with
        | Threw e => Threw e
        | Returned result =>
            match prop result "data" with
            | Threw e => Threw e
            | Returned d =>
                if (truthy d && isArray d)%bool then Returned d
                else Returned result
            end
        end
  end.

(** The payload of a fulfilled [fetchProductsPaginated]. *)
Record PaginatedPayload : Type := mkPayload {
  pl_data : JsVal;
  pl_pagination : Pagination
}.

Inductive Action : Type :=
| setProducts (payload : JsVal)
| setLoading (payload : bool)
| setError (payload : option string)
| clearError
| setPage (payload : Number)
| setSearchTerm (payload : string)
| setSelectedCategory (payload : string)
| clearPageCache
| cachePage (page : Number) (products : JsVal)
| fetchProductsPaginated_pending
| fetchProductsPaginated_fulfilled (payload : PaginatedPayload)
| fetchProductsPaginated_rejected (message : option string)
| fetchProducts_pending
| fetchProducts_fulfilled (payload : JsVal)
| fetchProducts_rejected (message : option string).

Definition set_page (p : Number) (pg : Pagination) : Pagination :=
  mkPagination p (limit pg) (total pg) (totalPages pg) (hasNext pg) (hasPrev pg).

(** The reducers of the slice for the actions above (those of the create,
    update and delete thunks are in [ProductsSliceWrites]). *)
Definition reducer (state : State) (action : Action) : State :=
  match action with
  | setProducts payload =>
      mkState payload (loading state) (error state) (pagination state)
              (searchTerm state) (selectedCategory state) (pageCache state)
  | setLoading payload =>
      mkState (items state) payload (error state) (pagination state)
              (searchTerm state) (selectedCategory state) (pageCache state)
  | setError payload =>
      mkState (items state) (loading state) payload (pagination state)
              (searchTerm state) (selectedCategory state) (pageCache state)
  | clearError =>
      mkState (items state) (loading state) None (pagination state)
              (searchTerm state) (selectedCategory state) (pageCache state)
  | setPage payload =>
      mkState (items state) (loading state) (error state)
              (set_page payload (pagination state))
              (searchTerm state) (selectedCategory state) (pageCache state)
  | setSearchTerm payload =>
      mkState (items state) (loading state) (error state)
              (set_page (num 1) (pagination state))
              payload (selectedCategory state) (pageCache state)
  | setSelectedCategory payload =>
      mkState (items state) (loading state) (error state)
              (set_page (num 1) (pagination state))
              (searchTerm state) payload (pageCache state)
  | clearPageCache =>
      mkState (items state) (loading state) (error state) (pagination state)
              (searchTerm state) (selectedCategory state) []
  | cachePage p products =>
      mkState (items state) (loading state) (error state) (pagination state)
              (searchTerm state) (selectedCategory state)
              ((p, products) :: pageCache state)
  | fetchProductsPaginated_pending | fetchProducts_pending =>
      mkState (items state) true None (pagination state)
              (searchTerm state) (selectedCategory state) (pageCache state)
  | fetchProductsPaginated_fulfilled payload =>
      mkState (pl_data payload) false (error state) (pl_pagination payload)
              (searchTerm state) (selectedCategory state)
              ((page (pl_pagination payload), pl_data payload) :: pageCache state)
  | fetchProductsPaginated_rejected message
  | fetchProducts_rejected message =>
      mkState (items state) false (Some (or_str message "Failed to fetch products"))
              (pagination state)
              (searchTerm state) (selectedCategory state) (pageCache state)
  | fetchProducts_fulfilled payload =>
      mkState payload false (error state) (pagination state)
              (searchTerm state) (selectedCategory state) (pageCache state)
  end.

(** The action the [fetchProducts] thunk dispatches when it settles. *)
Definition fetchProducts_settled (fetched : Outcome FetchResponse) : Action :=
  match fetchProducts fetched with
  | Returned payload => fetchProducts_fulfilled payload
  | Threw e => fetchProducts_rejected (Some (err_message e))
  end.

End ProductsSlice.

(* ===================================================================== *)
(** ** [ProductFormDialog] of
       [src/components/dashboard/common/ProductAnglesSelector.tsx] *)
(* ===================================================================== *)

Module ProductFormDialog.
Import Js.

Record VariationImage : Type := mkImage {
  id : string;
  url : option string;
  alt_text : option string;
  angle : string;
  is_primary : bool
}.

Record Color : Type := mkColor {
  name : string;
  hex_code : string;
  swatch_image : option string
}.

(** [images] is [None] when the property does not hold an array. *)
Record Variation : Type := mkVariation {
  var_id : string;
  color : Color;
  price : Number;
  inStock : bool;
  stockQuantity : Number;
  images : option (list VariationImage)
}.

(** The form values [onSubmit] reads or writes; [others] stands for the
    properties the spread carries over untouched. *)
Record FormValues : Type := mkValues {
  hasVariations : bool;
  variations : option (list Variation);
  angles : option (list string);
  frontImage : option string;
  backImage : option string;
  leftImage : option string;
  rightImage : option string;
  materialImage : option string;
  frontAltText : option string;
  backAltText : option string;
  leftAltText : option string;
  rightAltText : option string;
  materialAltText : option string;
  others : Obj
}.

(** [img.url && img.url.trim() !== ''] *)
Definition has_url (img : VariationImage) : bool :=
  match url img with
  | Some u => (negb (String.eqb u "") && negb (String.eqb (trim u) ""))%bool
  | None => false
  end.

Definition clean_variation (variation : Variation) : Variation :=
  mkVariation (var_id variation) (color variation) (price variation)
              (inStock variation) (stockQuantity variation)
              (Some (match images variation with
                     | Some imgs => List.filter has_url imgs
                     | None => []
                     end)).

(** [if (field) angles.push(name)] *)
Definition push_if (field : option string) (name : string) (angles : list string)
  : list string :=
  match field with
  | Some s => if String.eqb s "" then angles else (angles ++ [name])%list
  | None => angles
  end.

(** [if (cleanedValues[field] === undefined) cleanedValues[field] = ''] *)
Definition required (field : option string) : option string :=
  match field with
  | Some s => Some s
  | None => Some ""
  end.

(** The [cleanedValues] that the [onSubmit] of the form hands to the
    [onSubmit] of its owner. *)
Definition onSubmit (values : FormValues) : FormValues :=
  let cleaned_variations :=
    match variations values with
    | Some vs => List.map clean_variation vs
    | None => []
    end in
  if negb (hasVariations values)
  then
    let angles :=
      push_if (materialImage values) "material"
        (push_if (rightImage values) "right"
           (push_if (leftImage values) "left"
              (push_if (backImage values) "back"
                 (push_if (frontImage values) "front" [])))) in
    mkValues (hasVariations values) (Some cleaned_variations) (Some angles)
             (required (frontImage values)) (required (backImage values))
             (required (leftImage values)) (required (rightImage values))
             (required (materialImage values))
             (required (frontAltText values)) (required (backAltText values))
             (required (leftAltText values)) (required (rightAltText values))
             (required (materialAltText values))
             (others values)
  else
    mkValues (hasVariations values) (Some cleaned_variations) (angles values)
             (frontImage values) (backImage values)
             (leftImage values) (rightImage values)
             (materialImage values)
             (frontAltText values) (backAltText values)
             (leftAltText values) (rightAltText values)
             (materialAltText values)
             (others values).

Definition images_or_empty (variation : Variation) : list VariationImage :=
  match images variation with
  | Some imgs => imgs
  | None => []
  end.

Definition with_images (variation : Variation) (imgs : list VariationImage)
  : Variation :=
  mkVariation (var_id variation) (color variation) (price variation)
              (inStock variation) (stockQuantity variation) (Some imgs).

(** [createVariationsCopy], [formik.values.variations] being an array. *)
Definition createVariationsCopy (current : list Variation) : list Variation :=
  List.map (fun variation => with_images variation (images_or_empty variation))
           current.

Definition string_of_Z (z : Z) : string := NilZero.string_of_int (Z.to_int z).

(** [addVariationImage(varIdx, angle)]: the value of
    [formik.values.variations] once the call returns, [now] being what
    [Date.now()] reads.  The early returns leave the form untouched. *)
Definition addVariationImage (now : Z) (current : list Variation)
    (varIdx : Z) (angle : string) : list Variation :=
  if (Z.ltb varIdx 0 || Z.leb (Z.of_nat (length current)) varIdx)%bool
  then current
  else
    let variations := createVariationsCopy current in
    match variations !! Z.to_nat varIdx with
    | None => current
    | Some variation =>
        let imgs := images_or_empty variation in
        let newImage :=
          mkImage ("img_" ++ string_of_Z now) (Some "") (Some "") angle
                  (Nat.eqb (length imgs) 0) in
        <[Z.to_nat varIdx := with_images variation (imgs ++ [newImage])%list]>
          variations
    end.

End ProductFormDialog.

(* ===================================================================== *)
(** ** Notions the statements are phrased with *)
(* ===================================================================== *)

Module Spec.
Import Js Mongo MemStore ProductService ProductFormDialog.

(** [ceil_div t l] is the ceiling of the quotient [t / l]. *)
Definition ceil_div (t l : Z) : Z := - ((- t) / l).

(** The angle names, in the order the form tests them, paired with the
    image field each one stands for. *)
Definition angle_fields (values : FormValues) : list (string * option string) :=
  [ ("front", frontImage values); ("back", backImage values);
    ("left", leftImage values); ("right", rightImage values);
    ("material", materialImage values) ].

Definition non_empty (field : option string) : bool :=
  match field with
  | Some s => negb (String.eqb s "")
  | None => false
  end.

(** The names of the angles whose image field is non-empty. *)
Definition angles_present (values : FormValues) : list string :=
  List.map fst (List.filter (fun p => non_empty (snd p)) (angle_fields values)).

(** Case-insensitive substring test: [t] occurs in [s]. *)
Definition ci_includes (s t : string) : bool :=
  includes (toLowerCase s) (toLowerCase t).


(** The documents of a page: the matching ones, newest first, without the
    [(page - 1) * limit] first, cut at [limit], as the projection shows
    them. *)
Definition newest_first (ds : list Obj) : list Obj :=
  sort_by (fun a b => key_le (date_key b "createdAt") (date_key a "createdAt")) ds.

Definition page_of (p l : Z) (matched : list Obj) : list Obj :=
  List.map (project ["_id"] projected_fields)
    (List.map (toString_field "id" "_id")
       (firstn (Z.to_nat l)
          (skipn (Z.to_nat ((p - 1) * l)) (newest_first matched)))).

(** The object [createProduct] returns for the id [oid], the document it
    stores at time [now], the product [getProductById] makes of a stored
    document, and the store once a document is added. *)
Definition created_product (oid : string) (productData : Obj) : Obj :=
  with_fields productData created_fields (productData ∪ {[ "id" := VStr oid ]}).

Definition stored_product (oid : string) (now : Z) (productData : Obj) : Obj :=
  <["_id" := VOid oid]>
    (<["updatedAt" := VDate now]> (<["createdAt" := VDate now]> productData)).

Definition fetched_product (oid : string) (stored : Obj) : Obj :=
  with_fields stored product_fields {[ "id" := VStr oid ]}.

Definition after_insert (w : World) (stored : Obj) : World :=
  mkWorld (docs w ++ [stored]) (indexes w) (clock w) (N.succ (next_oid w))
          (online w).

(** A driver that answers like the in-memory store, the index probe
    apart. *)
Definition store_like {sem : Semantics} (h : Handler World) : Prop :=
  forall R (op : Op R) (w : World), is_probe op = false -> h R op w = handler R op w.

(** The probe of [getProductsPaginated] on the in-memory store. *)
Definition index_exists (w : World) : bool :=
  existsb (fun ix => String.eqb (ix_name ix) "product_search_index") (indexes w).


(** [a] is created no earlier than [b] (a document without a creation
    date counts as the oldest). *)
Definition not_older (a b : Obj) : Prop :=
  key_le (date_key b "createdAt") (date_key a "createdAt") = true.

(** Every matching document, newest first, as the projection shows it. *)
Definition projected_all (matched : list Obj) : list Obj :=
  List.map (project ["_id"] projected_fields)
    (List.map (toString_field "id" "_id") (newest_first matched)).

(** The stable shape of a product: exactly [id] and the properties
    copied from the stored document, no [_id], and a string for [id]. *)
Definition normalized (p : Obj) : Prop :=
  dom p = list_to_set projected_fields
  /\ p !! "_id" = None
  /\ exists h, get p "id" = VStr h.

(** The four indexes of the catalogue, in the order the routines ask
    for them. *)
Definition all_indexes : list IndexSpec :=
  [ MongoDb.product_search_index; MongoDb.category_index;
    MongoDb.created_at_index; MongoDb.category_created_at_index ].

(** The response of [GET] to pagination parameters it rejects. *)
Definition invalid_pagination : Route.Response :=
  Route.mkResponse 500 (Route.ErrorBody "Invalid pagination parameters" None).




End Spec.

(* ===================================================================== *)
(** ** Concrete stores and inputs *)
(* ===================================================================== *)

Module Scenario.
Import Js Mongo MemStore ProductService ProductFormDialog Spec.

(** A server on which a pattern is read literally and a text search hits
    a field that contains the search string. *)
Definition literal_semantics : Semantics :=
  {| regex_compile pattern options :=
       Some (fun s => if String.eqb options "i" then ci_includes s pattern
                      else includes s pattern);
     text_match search s := ci_includes s search |}.


(** A driver that keeps the names of the indexes created and rejects a
    second creation of a name with the duplicate-index error. *)
Definition duplicate_rejecting_handler : Handler (list string) :=
  fun R op names =>
    match op in Op R0 return Outcome R0 * list string with
    | Connect => (Returned tt, names)
    | CountDocuments => (Returned 0, names)
    | IndexExists name => (Returned (existsb (String.eqb name) names), names)
    | CreateIndex spec =>
        if existsb (String.eqb (ix_name spec)) names
        then (Threw (mkError "Index already exists" (Some 85)), names)
        else (Returned (ix_name spec), ix_name spec :: names)
    | Aggregate _ => (Returned [], names)
    | InsertOne _ => (Threw (mkError "not supported" None), names)
    | FindOne _ => (Returned None, names)
    | NewDate => (Returned 0, names)
    end.

Definition empty_world : World := mkWorld [] [] 1700000000000 1 true.

(** A body whose [data] is not a list. *)
Definition malformed_body : JsVal := VObj {[ "data" := VStr "oops" ]}.

(** The product of the scenario: only the front image is set. *)
Definition mug_values : FormValues :=
  mkValues false (Some []) None (Some "u1") (Some "") (Some "") (Some "")
           (Some "") (Some "") (Some "") (Some "") (Some "") (Some "")
           {[ "name" := VStr "Mug"; "price" := VNum (num 10);
              "categoryId" := VStr "c1" ]}.

(** What [createProduct] receives for it. *)
Definition mug : Obj :=
  {[ "name" := VStr "Mug"; "price" := VNum (num 10);
     "categoryId" := VStr "c1"; "hasVariations" := VBool false;
     "frontImage" := VStr "u1" ]}.

Definition empty_variation : Variation :=
  mkVariation "var_1" (mkColor "" "#000000" (Some "")) (num 0) true (num 0)
              (Some []).

(** A collection of [n] products created one millisecond apart. *)
Definition numbered_product (i : nat) : Obj :=
  {[ "_id" := VOid (render_oid (N.of_nat i));
     "name" := VStr "Mug";
     "description" := VStr "A sturdy cup";
     "categoryId" := VStr "c1";
     "createdAt" := VDate (Z.of_nat i) ]}.

Definition catalogue (n : nat) : World :=
  mkWorld (List.map numbered_product (seq 1 n)) [] 1700000000000
          (N.of_nat (S n)) true.








End Scenario.

(* ===================================================================== *)
(** ** The driver calls of the write path, the health check and the
       index script *)
(* ===================================================================== *)

Module Driver.
Import Js Mongo.

(** What [findOneAndUpdate] resolves to: the document or [null] with the
    current driver, a [ModifyResult] object wrapping it with the earlier
    ones. *)
Inductive UpdateReply : Type :=
| ReplyDocument (doc : option Obj)
| ReplyModifyResult (value : option Obj).

Inductive Call : Type -> Type :=
| Base {R : Type} (op : Op R) : Call R
| Find : Call (list Obj)
| FindOneAndUpdate (oid : string) (set : Obj) : Call UpdateReply
| DeleteOne (oid : string) : Call Z
| ListCollections : Call (list string)
| Indexes : Call (list IndexSpec)
| Close : Call unit.

(** Programs over these calls. *)
Inductive Task (A : Type) : Type :=
| Done (a : A)
| Fail (e : JsError)
| Step {R : Type} (c : Call R) (k : Outcome R -> Task A).
Arguments Done {A} a.
Arguments Fail {A} e.
Arguments Step {A R} c k.

Fixpoint andThen {A B} (t : Task A) (f : A -> Task B) : Task B :=
  match t with
  | Done a => f a
  | Fail e => Fail e
  | Step c k => Step c (fun o => andThen (k o) f)
  end.

(** [try { t } catch (e) { h e }] *)
Fixpoint tryCatch {A} (t : Task A) (h : JsError -> Task A) : Task A :=
  match t with
  | Done a => Done a
  | Fail e => h e
  | Step c k => Step c (fun o => tryCatch (k o) h)
  end.

(** [try { t } finally { f }]: [f] runs in both cases and its exception
    replaces the outcome of [t]. *)
Fixpoint tryFinally {A} (t : Task A) (f : Task unit) : Task A :=
  match t with
  | Done a => andThen f (fun _ => Done a)
  | Fail e => andThen f (fun _ => Fail e)
  | Step c k => Step c (fun o => tryFinally (k o) f)
  end.

Definition call {R} (c : Call R) : Task R :=
  Step c (fun o => match o with Returned r => Done r | Threw e => Fail e end).

Definition ofOutcome {A} (o : Outcome A) : Task A :=
  match o with Returned a => Done a | Threw e => Fail e end.

(** A program of the read path, as a program over the larger interface. *)
Fixpoint lift {A} (p : Prog A) : Task A :=
  match p with
  | Ret a => Done a
  | Throw e => Fail e
  | Vis op k => Step (Base op) (fun o => lift (k o))
  end.

Declare Scope task_scope.
Delimit Scope task_scope with task.
Notation "x <~ t ;; k" := (andThen t (fun x => k))
  (at level 100, t at next level, right associativity) : task_scope.

Definition Driver (W : Type) : Type := forall R, Call R -> W -> Outcome R * W.

Fixpoint perform {W A} (h : Driver W) (t : Task A) (w : W) : Outcome A * W :=
  match t with
  | Done a => (Returned a, w)
  | Fail e => (Threw e, w)
  | Step c k => let '(o, w') := h _ c w in perform h (k o) w'
  end.

(** The calls a run issues, as [f] names them; calls [f] does not name
    are left out. *)
Fixpoint issued {W A X} (f : forall R, Call R -> option X) (h : Driver W)
    (t : Task A) (w : W) : list X :=
  match t with
  | Done _ | Fail _ => []
  | Step c k =>
      let '(o, w') := h _ c w in
      match f _ c with
      | Some x => x :: issued f h (k o) w'
      | None => issued f h (k o) w'
      end
  end.

(** The index a call creates. *)
Definition created_index {R} (c : Call R) : option IndexSpec :=
  match c with
  | Base (CreateIndex spec) => Some spec
  | _ => None
  end.

Definition is_close {R} (c : Call R) : option unit :=
  match c with
  | Close => Some tt
  | _ => None
  end.

End Driver.

Module MemStoreX.
Import Js Mongo MemStore Driver.

(** [$set] on the first document carrying the id: the document as it is
    afterwards, and the collection. *)
Fixpoint update_first (oid : string) (set : Obj) (ds : list Obj)
  : option (Obj * list Obj) :=
  match ds with
  | [] => None
  | d :: rest =>
      if has_id oid d then Some (set ∪ d, (set ∪ d) :: rest)
      else match update_first oid set rest with
           | Some (u, rest') => Some (u, d :: rest')
           | None => None
           end
  end.

Fixpoint delete_first (oid : string) (ds : list Obj) : option (list Obj) :=
  match ds with
  | [] => None
  | d :: rest =>
      if has_id oid d then Some rest
      else match delete_first oid rest with
           | Some rest' => Some (d :: rest')
           | None => None
           end
  end.

(** A [$set] may name [_id] only with the value the document has. *)
Definition keeps_id (oid : string) (set : Obj) : bool :=
  match set !! "_id" with
  | None => true
  | Some (VOid h) => String.eqb h oid
  | Some _ => false
  end.

Definition with_docs (w : World) (ds : list Obj) : World :=
  mkWorld ds (indexes w) (clock w) (next_oid w) (online w).

Definition find_one_and_update (wrapped : bool) (oid : string) (set : Obj)
    (w : World) : Outcome UpdateReply * World :=
  let reply doc := if wrapped then ReplyModifyResult doc else ReplyDocument doc in
  match update_first oid set (docs w) with
  | None => (Returned (reply None), w)
  | Some (u, ds) =>
      if keeps_id oid set then (Returned (reply (Some u)), with_docs w ds)
      else (Threw (mkError "Performing an update on the path '_id' would modify the immutable field '_id'" (Some 66)), w)
  end.

Section StoreX.
Context {sem : Semantics}.

(** The in-memory store on the larger interface; [wrapped] tells whether
    the driver wraps the answer of [findOneAndUpdate]. *)
Definition driver (wrapped : bool) : Driver World :=
  fun R c w =>
    match c in Call R0 return Outcome R0 * World with
    | Base op => handler _ op w
    | Close => (Returned tt, w)
    | c' =>
        if negb (online w)
        then (Threw offline_error, w)
        else
          match c' in Call R1 return Outcome R1 * World with
          | Base op => handler _ op w
          | Find => (Returned (docs w), w)
          | FindOneAndUpdate oid set => find_one_and_update wrapped oid set w
          | DeleteOne oid =>
              match delete_first oid (docs w) with
              | Some ds => (Returned 1, with_docs w ds)
              | None => (Returned 0, w)
              end
          | ListCollections =>
              (Returned (match docs w, indexes w with
                         | [], [] => []
                         | _, _ => ["products"]
                         end), w)
          | Indexes => (Returned (indexes w), w)
          | Close => (Returned tt, w)
          end
    end.

End StoreX.
End MemStoreX.

(* ===================================================================== *)
(** ** [src/lib/services/productService.ts]: the other operations *)
(* ===================================================================== *)

Module ProductServiceWrites.
Import Js Mongo Driver ProductService.
#[local] Open Scope task_scope.

Definition getCollection : Task unit := lift ProductService.getCollection.

(** [products.map(toProduct)]: the first document without an [_id]
    throws. *)
Fixpoint to_products (products : list Obj) : Outcome (list Obj) :=
  match products with
  | [] => Returned []
  | product :: rest =>
      match to_product product with
      | Threw e => Threw e
      | Returned p =>
          match to_products rest with
          | Threw e => Threw e
          | Returned ps => Returned (p :: ps)
          end
      end
  end.

Definition getAllProducts : Task (list Obj) :=
  _ <~ getCollection ;;
  products <~ call Find ;;
  ofOutcome (to_products products).

Definition nullish (v : JsVal) : bool :=
  match v with VUndef | VNull => true | _ => false end.

(** The [ModifyResult] of an update that matched nothing (its
    [lastErrorObject] is left out). *)
Definition empty_modify_result : Obj :=
  {[ "value" := VNull; "ok" := VNum (num 1) ]}.

(** [(res as any)?.value ?? (res as any)] *)
Definition update_result (res : UpdateReply) : JsVal :=
  match res with
  | ReplyDocument None => VNull
  | ReplyDocument (Some d) =>
      if nullish (get d "value") then VObj d else get d "value"
  | ReplyModifyResult (Some d) => VObj d
  | ReplyModifyResult None => VObj empty_modify_result
  end.

(** The object [updateProduct] builds from [result]: reading [_id] of a
    value that is not an object gives [undefined], whose [toString]
    throws. *)
Definition product_of_result (result : JsVal) : Outcome Obj :=
  match result with
  | VObj m => to_product m
  | _ => Threw (mkError "Cannot read properties of undefined (reading 'toString')" None)
  end.

Definition updateProduct (id : string) (productData : Obj) : Task (option Obj) :=
  _ <~ getCollection ;;
  oid <~ ofOutcome (MemStore.ObjectId_new id) ;;
  updatedAt <~ call (Base NewDate) ;;
  res <~ call (FindOneAndUpdate oid (<["updatedAt" := VDate updatedAt]> productData)) ;;
  let result := update_result res in
  if negb (truthy result) then Done None
  else r <~ ofOutcome (product_of_result result) ;; Done (Some r).

Definition deleteProduct (id : string) : Task bool :=
  _ <~ getCollection ;;
  oid <~ ofOutcome (MemStore.ObjectId_new id) ;;
  deletedCount <~ call (DeleteOne oid) ;;
  Done (Z.ltb 0 deletedCount).

End ProductServiceWrites.

(* ===================================================================== *)
(** ** [src/app/api/products/route.ts]: POST; [src/app/api/health/route.ts] *)
(* ===================================================================== *)

Module RouteWrites.
Import Js Mongo ProductService Driver.

Inductive Body : Type :=
| ProductBody (product : Obj)
| ErrorBody (error : string).

Record Response : Type := mkResponse {
  status : Z;
  body : Body
}.

(** [POST], given what [request.json()] settles to. *)
Definition POST (json : Outcome Obj) : Prog Response :=
  try_catch
    (bind (of_outcome json) (fun body =>
     bind (createProduct body) (fun product =>
     Ret (mkResponse 201 (ProductBody product)))))
    (fun _ => Ret (mkResponse 500 (ErrorBody "Failed to create product"))).

End RouteWrites.

Module Health.
Import Js Mongo Driver.
#[local] Open Scope task_scope.

Inductive Body : Type :=
| Healthy (collections : list string) (productsCount : Z) (timestamp : Z)
| Unhealthy (error : string) (timestamp : Z).

Record Response : Type := mkResponse {
  status : Z;
  body : Body
}.

(** [GET] of the health route; [now] is what [new Date()] reads. *)
Definition GET (now : Z) : Task Response :=
  tryCatch
    (_ <~ lift MongoDb.getDatabase ;;
     collectionNames <~ call ListCollections ;;
     productCount <~ call (Base CountDocuments) ;;
     Done (mkResponse 200 (Healthy collectionNames productCount now)))
    (fun error => Done (mkResponse 500 (Unhealthy (err_message error) now))).

End Health.

(* ===================================================================== *)
(** ** [src/scripts/init-indexes.js] *)
(* ===================================================================== *)

Module InitIndexes.
Import Js Mongo Driver.
#[local] Open Scope task_scope.

(** One [try { await createIndex(..) } catch (error) { log }] block. *)
Definition create_logged (spec : IndexSpec) : Task unit :=
  tryCatch (_ <~ call (Base (CreateIndex spec)) ;; Done tt) (fun _ => Done tt).

(** [initIndexes], given what [new MongoClient(uri)] settles to; the
    constructor is called before the [try]. *)
Definition initIndexes (client : Outcome unit) : Task unit :=
  _ <~ ofOutcome client ;;
  tryFinally
    (tryCatch
       (_ <~ call (Base Connect) ;;
        _ <~ create_logged MongoDb.product_search_index ;;
        _ <~ create_logged MongoDb.category_index ;;
        _ <~ create_logged MongoDb.created_at_index ;;
        _ <~ create_logged MongoDb.category_created_at_index ;;
        _ <~ call Indexes ;;
        Done tt)
       (fun _ => Done tt))
    (call Close).

End InitIndexes.

(* ===================================================================== *)
(** ** [src/lib/redux/slices/productsSlice.ts]: the other thunks and
       reducers *)
(* ===================================================================== *)

Module ProductsSliceWrites.
Import Js ProductsSlice.

(** [a === b] on values read from responses.  Two objects or arrays are
    never the same object here: they come from different responses. *)
Definition strict_eq (a b : JsVal) : bool :=
  match a, b with
  | VUndef, VUndef | VNull, VNull => true
  | VBool x, VBool y => Bool.eqb x y
  | VStr x, VStr y => String.eqb x y
  | VNum (Fin x), VNum (Fin y) => Qeq_bool x y
  | VNum PosInf, VNum PosInf | VNum NegInf, VNum NegInf => true
  | _, _ => false
  end.

Definition not_a_function (method : string) : JsError :=
  mkError ("state.items." ++ method ++ " is not a function") None.

(** [items.findIndex((p) => p.id === payload.id)], from position [i] on:
    [None] stands for [-1]. *)
Fixpoint findIndex_by_id (payload : JsVal) (l : list JsVal) (i : nat)
  : Outcome (option nat) :=
  match l with
  | [] => Returned None
  | p :: rest =>
      match prop p "id" with
      | Threw e => Threw e
      | Returned pid =>
          match prop payload "id" with
          | Threw e => Threw e
          | Returned id =>
              if strict_eq pid id then Returned (Some i)
              else findIndex_by_id payload rest (S i)
          end
      end
  end.

(** [items.filter((item) => item.id !== id)] *)
Fixpoint filter_by_id (id : string) (l : list JsVal) : Outcome (list JsVal) :=
  match l with
  | [] => Returned []
  | item :: rest =>
      match prop item "id" with
      | Threw e => Threw e
      | Returned iid =>
          match filter_by_id id rest with
          | Threw e => Threw e
          | Returned kept =>
              if strict_eq iid (VStr id) then Returned kept
              else Returned (item :: kept)
          end
      end
  end.

Inductive Action : Type :=
| addProduct (payload : JsVal)
| createProduct_pending
| createProduct_fulfilled (payload : JsVal)
| createProduct_rejected (message : option string)
| updateProduct_pending
| updateProduct_fulfilled (payload : JsVal)
| updateProduct_rejected (message : option string)
| deleteProduct_pending
| deleteProduct_fulfilled (payload : string)
| deleteProduct_rejected (message : option string).

Definition with_items (state : State) (l : JsVal) (busy : bool) : State :=
  mkState l busy (error state) (pagination state)
          (searchTerm state) (selectedCategory state) (pageCache state).

Definition rejected (state : State) (message : option string) (fallback : string)
  : State :=
  mkState (items state) false (Some (or_str message fallback))
          (pagination state)
          (searchTerm state) (selectedCategory state) (pageCache state).

Definition pending (state : State) : State :=
  mkState (items state) true None (pagination state)
          (searchTerm state) (selectedCategory state) (pageCache state).

(** The reducers of the create, update and delete thunks and
    [addProduct].  A reducer that throws leaves the state as it was. *)
Definition reducer (state : State) (action : Action) : Outcome State :=
  match action with
  | addProduct payload =>
      match items state with
      | VArr l => Returned (with_items state (VArr (l ++ [payload])) (loading state))
      | _ => Threw (not_a_function "push")
      end
  | createProduct_fulfilled payload =>
      match items state with
      | VArr l => Returned (with_items state (VArr (l ++ [payload])) false)
      | _ => Threw (not_a_function "push")
      end
  | updateProduct_fulfilled payload =>
      match items state with
      | VArr l =>
          match findIndex_by_id payload l 0 with
          | Threw e => Threw e
          | Returned (Some index) =>
              Returned (with_items state (VArr (<[index := payload]> l)) false)
          | Returned None => Returned (with_items state (VArr l) false)
          end
      | _ => Threw (not_a_function "findIndex")
      end
  | deleteProduct_fulfilled payload =>
      match items state with
      | VArr l =>
          match filter_by_id payload l with
          | Threw e => Threw e
          | Returned kept => Returned (with_items state (VArr kept) false)
          end
      | _ => Threw (not_a_function "filter")
      end
  | createProduct_pending | updateProduct_pending | deleteProduct_pending =>
      Returned (pending state)
  | createProduct_rejected message =>
      Returned (rejected state message "Failed to create product")
  | updateProduct_rejected message =>
      Returned (rejected state message "Failed to update product")
  | deleteProduct_rejected message =>
      Returned (rejected state message "Failed to delete product")
  end.

(** Two page numbers name the same property of [pageCache]. *)
Definition same_key (a b : Number) : bool :=
  match a, b with
  | NaN, NaN | PosInf, PosInf | NegInf, NegInf => true
  | Fin x, Fin y => Qeq_bool x y
  | _, _ => false
  end.

(** [pageCache[page]] *)
Fixpoint cached (page : Number) (cache : list (Number * JsVal)) : option JsVal :=
  match cache with
  | [] => None
  | (k, v) :: rest => if same_key k page then Some v else cached page rest
  end.

Section Thunk.
(** [Number.prototype.toString], as the thunk uses it to print [page]
    and [limit]. *)
Variable toString : Number -> string.

(** The query parameters [fetchProductsPaginated] appends, as the route
    reads them back with [searchParams.get]. *)
Definition query_of (params : ProductService.PaginationParams) : Route.Request :=
  Route.mkRequest
    (Some (toString (ProductService.page params)))
    (Some (toString (ProductService.limit params)))
    (match ProductService.search params with
     | Some s => if String.eqb s "" then None else Some s
     | None => None
     end)
    (match ProductService.categoryId params with
     | Some c => if String.eqb c "" then None else Some c
     | None => None
     end).

End Thunk.

End ProductsSliceWrites.

(* ===================================================================== *)
(** ** [DesignToolContainer] and [ProductsView] of
       [src/components/design-tool-editor/design-tool/design-tool-container.tsx] *)
(* ===================================================================== *)

Module ProductsView.
Import Js ProductsSlice.

(** [Array.isArray(products) ? products : []] *)
Definition safeProducts (products : JsVal) : list JsVal :=
  match products with
  | VArr l => l
  | _ => []
  end.

(** What a handler dispatches: a reducer action, then the thunk with
    these parameters. *)
Record Dispatched : Type := mkDispatched {
  action : Action;
  fetch : ProductService.PaginationParams
}.

Definition handlePageChange (state : State) (page : Number) : Dispatched :=
  mkDispatched (setPage page)
    (ProductService.mkParams page (num 10) (Some (searchTerm state))
                             (Some (selectedCategory state))).

Definition handleSearchChange (state : State) (term : string) : Dispatched :=
  mkDispatched (setSearchTerm term)
    (ProductService.mkParams (num 1) (num 10) (Some term)
                             (Some (selectedCategory state))).

Definition handleCategoryFilter (state : State) (categoryIds : list string)
  : Dispatched :=
  let categoryId := match categoryIds with c :: _ => c | [] => "all" end in
  mkDispatched (setSelectedCategory categoryId)
    (ProductService.mkParams (num 1) (num 10) (Some (searchTerm state))
                             (Some categoryId)).

Definition resetFilters (state : State) : Dispatched :=
  handleCategoryFilter state [].

(** A subcategory, as the view reads it. *)
Record Subcategory : Type := mkSub {
  sub_id : string;
  sub_categoryId : string
}.

(** [Array.from(new Set(l))] *)
Fixpoint from_set (l : list string) (seen : list string) : list string :=
  match l with
  | [] => []
  | x :: rest =>
      if existsb (String.eqb x) seen then from_set rest seen
      else x :: from_set rest (x :: seen)
  end.

(** [next = new Set(selected); checked ? next.add(id) : next.delete(id);
    Array.from(next)] *)
Definition toggled (selected : list string) (id : string) (checked : bool)
  : list string :=
  let next := from_set selected [] in
  if checked
  then (if existsb (String.eqb id) next then next else (next ++ [id])%list)
  else List.filter (fun x => negb (String.eqb x id)) next.

(** [toggleCategory]: the selected categories and subcategories
    afterwards. *)
Definition toggleCategory (subs : list Subcategory)
    (selectedCategories selectedSubcats : list string)
    (id : string) (checked : bool) : list string * list string :=
  let categories := toggled selectedCategories id checked in
  if checked then (categories, selectedSubcats)
  else
    let toRemove :=
      List.map sub_id
        (List.filter (fun s => String.eqb (sub_categoryId s) id) subs) in
    (categories,
     List.filter (fun sid => negb (existsb (String.eqb sid) toRemove))
                 selectedSubcats).

Definition toggleSubcategory (selectedSubcats : list string)
    (id : string) (checked : bool) : list string :=
  toggled selectedSubcats id checked.

End ProductsView.

(* ===================================================================== *)
(** ** [ProductFormDialog]: the helpers that edit the variations *)
(* ===================================================================== *)

Module ProductFormEditing.
Import Js ProductFormDialog.

Definition to_upper (c : ascii) : ascii :=
  let n := nat_of_ascii c in
  if (Nat.leb 97 n && Nat.leb n 122)%bool then ascii_of_nat (n - 32) else c.

(** [s.toUpperCase()], on ASCII letters. *)
Fixpoint toUpperCase (s : string) : string :=
  match s with
  | EmptyString => EmptyString
  | String c rest => String (to_upper c) (toUpperCase rest)
  end.

Definition colorNameMap : list (string * string) :=
  [ ("#000000", "Black"); ("#FFFFFF", "White"); ("#FF0000", "Red");
    ("#00FF00", "Green"); ("#0000FF", "Blue"); ("#FFFF00", "Yellow");
    ("#FF00FF", "Magenta"); ("#00FFFF", "Cyan"); ("#FFA500", "Orange");
    ("#800080", "Purple"); ("#A52A2A", "Brown"); ("#808080", "Gray");
    ("#FFC0CB", "Pink"); ("#FFD700", "Gold"); ("#C0C0C0", "Silver");
    ("#8B4513", "Saddle Brown"); ("#32CD32", "Lime Green");
    ("#FF4500", "Orange Red"); ("#4169E1", "Royal Blue");
    ("#DC143C", "Crimson"); ("#2b4e58", "Dark Teal") ].

(** [map[key]] on an object literal with distinct keys. *)
Fixpoint lookup_key (key : string) (map : list (string * string)) : option string :=
  match map with
  | [] => None
  | (k, v) :: rest => if String.eqb k key then Some v else lookup_key key rest
  end.

(** [colorNameMap[normalizedHex] || null]: a key in upper case names no
    inherited property, and every name of the map is non-empty. *)
Definition getColorNameFromHex (hex : string) : option string :=
  let normalizedHex := toUpperCase hex in
  lookup_key normalizedHex colorNameMap.

Definition defaultAngles : list string :=
  ["front"; "back"; "left"; "right"; "material"].

(** [l[i]] for a number [i]: [undefined] outside the list. *)
Definition at_index {A} (l : list A) (i : Z) : option A :=
  if Z.ltb i 0 then None else l !! Z.to_nat i.

(** [addVariation()], [now] being what [Date.now()] reads and [price]
    the base price of the form. *)
Definition addVariation (now : Z) (price : Number) (current : list Variation)
  : list Variation :=
  (current ++
   [ mkVariation ("var_" ++ string_of_Z now)
                 (mkColor "" "#000000" (Some ""))
                 (if truthy (VNum price) then price else num 0)
                 true (num 0) (Some []) ])%list.

Definition removeVariation (id : string) (current : list Variation)
  : list Variation :=
  List.filter (fun v => negb (String.eqb (var_id v) id)) current.

(** A [Partial<Variation>] as the form builds them: the properties it
    holds. *)
Record VariationUpdate : Type := mkUpdate {
  u_color : option Color;
  u_price : option Number;
  u_inStock : option bool;
  u_stockQuantity : option Number;
  u_images : option (list VariationImage)
}.

(** [{ ...variation, ...updated }] *)
Definition merged (variation : Variation) (updated : VariationUpdate) : Variation :=
  mkVariation (var_id variation)
              (default (color variation) (u_color updated))
              (default (price variation) (u_price updated))
              (default (inStock variation) (u_inStock updated))
              (default (stockQuantity variation) (u_stockQuantity updated))
              (match u_images updated with
               | Some imgs => Some imgs
               | None => images variation
               end).

(** [updateVariation(index, updated)] for the index of a variation of the
    form; [None] outside (the assignment then extends the array with an
    object that holds the updated properties only). *)
Definition updateVariation (current : list Variation) (index : Z)
    (updated : VariationUpdate) : option (list Variation) :=
  let variations := createVariationsCopy current in
  match at_index variations index with
  | Some variation =>
      Some (<[Z.to_nat index := merged variation updated]> variations)
  | None => None
  end.

Record ImageUpdate : Type := mkImageUpdate {
  u_url : option string;
  u_alt_text : option string
}.

Definition merged_image (img : VariationImage) (updated : ImageUpdate)
  : VariationImage :=
  mkImage (id img)
          (match u_url updated with Some u => Some u | None => url img end)
          (match u_alt_text updated with Some a => Some a | None => alt_text img end)
          (angle img) (is_primary img).

(** [updateVariationImage(varIdx, imgIdx, updated)] for the indexes of an
    image of the form; [None] outside ([variations[varIdx].images] throws
    for a missing variation, and a missing image extends the array). *)
Definition updateVariationImage (current : list Variation) (varIdx imgIdx : Z)
    (updated : ImageUpdate) : option (list Variation) :=
  let variations := createVariationsCopy current in
  match at_index variations varIdx with
  | None => None
  | Some variation =>
      let images := images_or_empty variation in
      match at_index images imgIdx with
      | None => None
      | Some img =>
          Some (<[Z.to_nat varIdx :=
                    with_images variation
                      (<[Z.to_nat imgIdx := merged_image img updated]> images)]>
                  variations)
      end
  end.

(** [removeVariationImage(varIdx, imgId)]; [None] when reading
    [variations[varIdx].images] throws. *)
Definition removeVariationImage (current : list Variation) (varIdx : Z)
    (imgId : string) : option (list Variation) :=
  let variations := createVariationsCopy current in
  match at_index variations varIdx with
  | None => None
  | Some variation =>
      Some (<[Z.to_nat varIdx :=
                with_images variation
                  (List.filter (fun img => negb (String.eqb (id img) imgId))
                               (images_or_empty variation))]>
              variations)
  end.

Definition with_primary (image : VariationImage) (primary : bool)
  : VariationImage :=
  mkImage (id image) (url image) (alt_text image) (angle image) primary.

(** [images.map((image, i) => ({ ...image, is_primary: i === imgIdx }))],
    [i] counting from [from]. *)
Fixpoint mark_primary (imgIdx : Z) (from : Z) (images : list VariationImage)
  : list VariationImage :=
  match images with
  | [] => []
  | image :: rest =>
      with_primary image (Z.eqb from imgIdx) :: mark_primary imgIdx (from + 1) rest
  end.

(** The [onChange] of the radio button of image [imgIdx] of variation
    [varIdx]; the button exists for the images the form shows. *)
Definition onPrimaryChange (current : list Variation) (varIdx imgIdx : Z)
  : option (list Variation) :=
  match at_index current varIdx with
  | Some variation =>
      match images variation with
      | Some imgs =>
          updateVariation current varIdx
            (mkUpdate None None None None (Some (mark_primary imgIdx 0 imgs)))
      | None => None
      end
  | None => None
  end.

(** [window.updateVariationFromColorPicker(variationIndex, hexValue,
    colorName)] *)
Definition updateVariationFromColorPicker (current : list Variation)
    (variationIndex : Z) (hexValue : string) (colorName : option string)
  : list Variation :=
  match at_index current variationIndex with
  | Some variation =>
      let old := color variation in
      let updatedVariation :=
        mkVariation (var_id variation)
                    (mkColor (or_str colorName (name old)) hexValue
                             (swatch_image old))
                    (price variation) (inStock variation)
                    (stockQuantity variation) (images variation) in
      <[Z.to_nat variationIndex := updatedVariation]> current
  | None => current
  end.

(** [disabled={variation.images.some(img => img.angle === angle)}] of the
    button that adds an image. *)
Definition angle_disabled (variation : Variation) (a : string) : bool :=
  existsb (fun img => String.eqb (angle img) a) (images_or_empty variation).

End ProductFormEditing.

(* ===================================================================== *)
(** ** [ProductAnglesSelector] of
       [src/components/dashboard/common/ProductAnglesSelector.tsx] *)
(* ===================================================================== *)

Module AnglesSelector.
Import Js ProductFormDialog.

(** A thumbnail of the selector: its angle, the source of its image and
    whether it is drawn as selected. *)
Record Thumbnail : Type := mkThumbnail {
  th_angle : string;
  th_src : string;
  th_selected : bool
}.

(** [img.angle === angle && img.url && img.url.trim() !== ''] *)
Definition shows (a : string) (img : VariationImage) : bool :=
  (String.eqb (angle img) a && has_url img)%bool.

Definition getImageForAngle (variationImages : list VariationImage)
    (productImage : option string) (isSingleProductCase : bool) (a : string)
  : option string :=
  let specificAngleImage :=
    match variationImages with
    | [] => None
    | _ => List.find (shows a) variationImages
    end in
  match specificAngleImage with
  | Some img => url img
  | None =>
      match productImage with
      | Some p =>
          if (isSingleProductCase && negb (String.eqb p ""))%bool
          then Some p else None
      | None => None
      end
  end.

(** What the component renders: [None] for [null], else the thumbnails
    in their order.  [angles] is [None] when the property is missing. *)
Definition ProductAnglesSelector (angles : option (list string))
    (selectedAngle : string) (variationImages : list VariationImage)
    (productImage : option string) : option (list Thumbnail) :=
  match angles with
  | None | Some [] => None
  | Some angles =>
      let hasValidImages := existsb has_url variationImages in
      let isSingleProductCase := Nat.eqb (length variationImages) 0 in
      if (negb hasValidImages && negb isSingleProductCase)%bool
      then None
      else
        Some (omap (fun a =>
                      match getImageForAngle variationImages productImage
                                             isSingleProductCase a with
                      | Some imageUrl =>
                          if String.eqb imageUrl "" then None
                          else Some (mkThumbnail a imageUrl
                                                 (String.eqb selectedAngle a))
                      | None => None
                      end)
                   angles)
  end.

End AnglesSelector.

(* ===================================================================== *)
(** ** Notions the statements on the client are phrased with *)
(* ===================================================================== *)

Module ClientSpec.
Import Js ProductFormDialog ProductFormEditing.

(** [item.id === id], where reading [item.id] does not throw. *)
Definition has_id (id : JsVal) (item : JsVal) : bool :=
  match ProductsSlice.prop item "id" with
  | Returned v => ProductsSliceWrites.strict_eq v id
  | Threw _ => false
  end.

(** Neither [null] nor [undefined]. *)
Definition defined (v : JsVal) : bool :=
  match v with VUndef | VNull => false | _ => true end.

(** The states agree on everything but [pageCache]. *)
Definition same_but_cache (s1 s2 : ProductsSlice.State) : Prop :=
  ProductsSlice.items s1 = ProductsSlice.items s2
  /\ ProductsSlice.loading s1 = ProductsSlice.loading s2
  /\ ProductsSlice.error s1 = ProductsSlice.error s2
  /\ ProductsSlice.pagination s1 = ProductsSlice.pagination s2
  /\ ProductsSlice.searchTerm s1 = ProductsSlice.searchTerm s2
  /\ ProductsSlice.selectedCategory s1 = ProductsSlice.selectedCategory s2.

(** The value of a digit sequence read after [acc]. *)
Fixpoint value_of (d : Decimal.uint) (acc : Z) : Z :=
  match d with
  | Decimal.Nil => acc
  | Decimal.D0 d => value_of d (acc * 10 + 0)
  | Decimal.D1 d => value_of d (acc * 10 + 1)
  | Decimal.D2 d => value_of d (acc * 10 + 2)
  | Decimal.D3 d => value_of d (acc * 10 + 3)
  | Decimal.D4 d => value_of d (acc * 10 + 4)
  | Decimal.D5 d => value_of d (acc * 10 + 5)
  | Decimal.D6 d => value_of d (acc * 10 + 6)
  | Decimal.D7 d => value_of d (acc * 10 + 7)
  | Decimal.D8 d => value_of d (acc * 10 + 8)
  | Decimal.D9 d => value_of d (acc * 10 + 9)
  end.

(** The number of images marked as primary. *)
Definition primaries (imgs : list VariationImage) : nat :=
  length (List.filter is_primary imgs).

(** A variation whose images are in order: at most one is primary, no
    two show the same angle, and every angle is one of the five the form
    offers. *)
Definition tidy (variation : Variation) : Prop :=
  let imgs := images_or_empty variation in
  (primaries imgs <= 1)%nat
  /\ NoDup (List.map angle imgs)
  /\ Forall (fun img => In (angle img) defaultAngles) imgs.

(** One use of a control of the form, from the variations it shows to
    the variations it sets. *)
Inductive edit (current : list Variation) : list Variation -> Prop :=
| by_addVariation (now : Z) (base : Number) :
    edit current (addVariation now base current)
| by_removeVariation (id : string) :
    edit current (removeVariation id current)
| by_updateVariation (index : Z) (updated : VariationUpdate) (next : list Variation) :
    u_images updated = None ->
    updateVariation current index updated = Some next ->
    edit current next
| by_colorPicker (index : Z) (hexValue : string) :
    edit current
         (updateVariationFromColorPicker current index hexValue
                                         (getColorNameFromHex hexValue))
| by_addVariationImage (now : Z) (varIdx : Z) (a : string) (variation : Variation) :
    In a defaultAngles ->
    at_index current varIdx = Some variation ->
    angle_disabled variation a = false ->
    edit current (addVariationImage now current varIdx a)
| by_removeVariationImage (varIdx : Z) (imgId : string) (next : list Variation) :
    removeVariationImage current varIdx imgId = Some next ->
    edit current next
| by_updateVariationImage (varIdx imgIdx : Z) (updated : ImageUpdate)
    (next : list Variation) :
    updateVariationImage current varIdx imgIdx updated = Some next ->
    edit current next
| by_onPrimaryChange (varIdx imgIdx : Z) (next : list Variation) :
    onPrimaryChange current varIdx imgIdx = Some next ->
    edit current next.

(** Any number of edits. *)
Inductive edits : list Variation -> list Variation -> Prop :=
| edits_none (current : list Variation) : edits current current
| edits_more (current next final : list Variation) :
    edit current next -> edits next final -> edits current final.

End ClientSpec.

(* ===================================================================== *)
(** ** Concrete states and inputs of the client *)
(* ===================================================================== *)

Module ClientScenario.
Import Js ProductFormDialog ProductFormEditing.

(** [toString] on the integers: their decimal print. *)
Definition integer_toString (n : Number) : string :=
  match as_integer n with
  | Some z => string_of_Z z
  | None => "NaN"
  end.

(** A list of two products, as the slice holds them. *)
Definition two_items : ProductsSlice.State :=
  ProductsSlice.mkState
    (VArr [ VObj {[ "id" := VStr "a"; "name" := VStr "Mug" ]};
            VObj {[ "id" := VStr "b"; "name" := VStr "Cap" ]} ])
    false None (ProductsSlice.pagination ProductsSlice.initialState)
    "" "all" [].

(** The product [b] as an update returns it. *)
Definition renamed_b : Obj := {[ "id" := VStr "b"; "name" := VStr "Hat" ]}.

(** A variation with a primary front image and a back image. *)
Definition front_and_back : Variation :=
  mkVariation "var_1" (mkColor "" "#000000" (Some "")) (num 0) true (num 0)
    (Some [ mkImage "img_1" (Some "u1") (Some "") "front" true;
            mkImage "img_2" (Some "u2") (Some "") "back" false ]).

(** The form after [Add Variation] and the [front] button. *)
Definition one_front_image : list Variation :=
  addVariationImage 2 (addVariation 1 (num 5) []) 0 "front".

Definition form_with (vs : list Variation) : FormValues :=
  mkValues true (Some vs) None None None None None None None None None None None ∅.

End ClientScenario.

(* ===================================================================== *)
(** * Properties *)
(* ===================================================================== *)

(** ** The client state layer *)

Section SliceProperties.
Import Js ProductsSlice Scenario.

Lemma or_str_nonempty (a : option string) (b : string) :
  b <> "" -> or_str a b <> "".
Proof.
  intros Hb. unfold or_str. destruct a as [s|]; [|exact Hb].
  destruct (String.eqb s "") eqn:E; [exact Hb|].
  intros ->. discriminate E.
Qed.

(** C7. A rejected [fetchProductsPaginated] leaves [loading] false and a
    non-empty error message in the state, and changes none of [items],
    [pagination], [searchTerm], [selectedCategory] and [pageCache]. *)
Theorem fetchPaginated_rejected_frame (state : State) (message : option string) :
  let state' := reducer state (fetchProductsPaginated_rejected message) in
  loading state' = false
  /\ (exists m, error state' = Some m /\ m <> "")
  /\ items state' = items state
  /\ pagination state' = pagination state
  /\ searchTerm state' = searchTerm state
  /\ selectedCategory state' = selectedCategory state
  /\ pageCache state' = pageCache state.
Proof.
  cbn. repeat split.
  eexists. split; [reflexivity|]. now apply or_str_nonempty.
Qed.

(** The message stored is the one of the rejection when it has one. *)
Lemma fetchPaginated_rejected_message (state : State) (m : string) :
  m <> "" ->
  error (reducer state (fetchProductsPaginated_rejected (Some m))) = Some m.
Proof.
  intros Hm. cbn. destruct (String.eqb m "") eqn:E; [|reflexivity].
  apply String.eqb_eq in E. contradiction.
Qed.

(** C5, as stated, fails: for the body [{ data: "oops" }] the thunk
    resolves to the body itself, and the fulfilled reducer stores that
    object, not an empty list, in [items]. *)
Lemma fetchProducts_keeps_malformed_body :
  let fetched := Returned (mkFetch true (Returned malformed_body)) in
  prop malformed_body "data" = Returned (VStr "oops")
  /\ isArray (VStr "oops") = false
  /\ fetchProducts fetched = Returned malformed_body
  /\ items (reducer initialState (fetchProducts_settled fetched)) = malformed_body
  /\ items (reducer initialState (fetchProducts_settled fetched)) <> VArr [].
Proof.
  cbn. repeat split; try reflexivity. unfold malformed_body. discriminate.
Qed.

(** C5, amended.  When the body of an [ok] response has a [data] property
    that is not a list, the thunk resolves to the whole body, unchanged,
    and the fulfilled reducer stores it in [items] as it is; a [data] that
    is a list is what the thunk resolves to. *)
Theorem fetchProducts_payload (result d : JsVal) (state : State) :
  prop result "data" = Returned d ->
  let fetched := Returned (mkFetch true (Returned result)) in
  fetchProducts fetched = Returned (if isArray d then d else result)
  /\ items (reducer state (fetchProducts_settled fetched))
     = (if isArray d then d else result)
  /\ loading (reducer state (fetchProducts_settled fetched)) = false.
Proof.
  intros Hd. cbn. unfold fetchProducts_settled, fetchProducts. cbn. rewrite Hd.
  destruct d; cbn; try (repeat split; reflexivity).
  all: rewrite ?andb_false_r; repeat split; reflexivity.
Qed.

Lemma fetchProducts_payload_witness :
  prop malformed_body "data" = Returned (VStr "oops")
  /\ fetchProducts (Returned (mkFetch true (Returned malformed_body)))
     = Returned malformed_body.
Proof.
  split; [reflexivity|].
  exact (proj1 (fetchProducts_payload malformed_body (VStr "oops") initialState
                  eq_refl)).
Defined.

End SliceProperties.

(** ** The product form *)

Section FormProperties.
Import Js ProductFormDialog Spec Scenario.

Lemma push_if_spec (field : option string) (name : string) (l : list string) :
  push_if field name l = (l ++ (if non_empty field then [name] else []))%list.
Proof.
  unfold push_if, non_empty. destruct field as [s|]; cbn.
  - destruct (String.eqb s ""); cbn; [now rewrite app_nil_r | reflexivity].
  - now rewrite app_nil_r.
Qed.

Lemma has_url_spec (img : VariationImage) :
  has_url img = true -> exists u, url img = Some u /\ u <> "".
Proof.
  unfold has_url. destruct (url img) as [u|]; [|discriminate].
  intros H. exists u. split; [reflexivity|].
  intros ->. discriminate H.
Qed.

Lemma submitted_variations (values : FormValues) :
  variations (onSubmit values)
  = Some (List.map clean_variation (default [] (variations values))).
Proof.
  unfold onSubmit. destruct (hasVariations values); cbn;
    destruct (variations values); reflexivity.
Qed.

(** C8. In the submitted values no variation holds an image whose url is
    missing or empty, each variation keeps, in order, exactly its images
    with a non-blank url, and for the single-product shape [angles] lists
    the names, among front, back, left, right and material in that order,
    whose image field is non-empty; with only [frontImage] set it is
    [["front"]]. *)
Theorem onSubmit_cleans (values : FormValues) :
  (exists cleaned,
      variations (onSubmit values) = Some cleaned
      /\ length cleaned = length (default [] (variations values))
      /\ (forall i v, default [] (variations values) !! i = Some v ->
            exists v', cleaned !! i = Some v'
              /\ var_id v' = var_id v
              /\ images v' = Some (List.filter has_url (images_or_empty v)))
      /\ (forall v' img, In v' cleaned -> In img (images_or_empty v') ->
            exists u, url img = Some u /\ u <> ""))
  /\ (hasVariations values = false ->
      angles (onSubmit values) = Some (angles_present values))
  /\ (hasVariations values = false ->
      non_empty (frontImage values) = true ->
      non_empty (backImage values) = false ->
      non_empty (leftImage values) = false ->
      non_empty (rightImage values) = false ->
      non_empty (materialImage values) = false ->
      angles (onSubmit values) = Some ["front"]).
Proof.
  assert (Hangles : hasVariations values = false ->
                    angles (onSubmit values) = Some (angles_present values)).
  { intros Hv. unfold onSubmit. rewrite Hv. cbn. f_equal.
    rewrite !push_if_spec. unfold angles_present, angle_fields. cbn.
    destruct (non_empty (frontImage values)), (non_empty (backImage values)),
      (non_empty (leftImage values)), (non_empty (rightImage values)),
      (non_empty (materialImage values)); reflexivity. }
  split; [|split].
  - exists (List.map clean_variation (default [] (variations values))).
    split; [apply submitted_variations|].
    split; [apply length_map|].
    split.
    + intros i v Hi. exists (clean_variation v). split.
      * rewrite list_lookup_fmap, Hi. reflexivity.
      * split; [reflexivity|]. unfold clean_variation, images_or_empty. cbn.
        destruct (images v); reflexivity.
    + intros v' img Hv' Himg. apply in_map_iff in Hv' as (v & <- & _).
      unfold clean_variation, images_or_empty in Himg. cbn in Himg.
      apply has_url_spec.
      destruct (images v); [|destruct Himg].
      apply filter_In in Himg. tauto.
  - exact Hangles.
  - intros Hv Hf Hb Hl Hr Hm. rewrite (Hangles Hv).
    unfold angles_present, angle_fields. cbn.
    rewrite Hf, Hb, Hl, Hr, Hm. reflexivity.
Qed.

Lemma onSubmit_cleans_witness :
  hasVariations mug_values = false
  /\ non_empty (frontImage mug_values) = true
  /\ angles (onSubmit mug_values) = Some ["front"].
Proof.
  split; [reflexivity|]. split; [reflexivity|].
  apply (proj2 (proj2 (onSubmit_cleans mug_values))); reflexivity.
Defined.

(** An image with a blank url is dropped, one with a url is kept. *)
Example onSubmit_drops_blank :
  let blank := mkImage "img_1" (Some "") (Some "") "front" true in
  let missing := mkImage "img_2" None None "back" false in
  let spaces := mkImage "img_3" (Some "  ") None "left" false in
  let kept := mkImage "img_4" (Some "u4") None "right" false in
  let v := mkVariation "var_1" (mkColor "" "#000000" None) (num 0) true (num 0)
             (Some [blank; missing; spaces; kept]) in
  variations
    (onSubmit (mkValues true (Some [v]) None None None None None None
                        None None None None None ∅))
  = Some [ProductFormDialog.with_images v [kept]].
Proof. reflexivity. Qed.

(** C10. Adding an image to the variation at a valid index appends one
    new image to it, for the angle asked, and that image is primary
    exactly when the variation had no image before. *)
Theorem addVariationImage_primary (now : Z) (current : list Variation)
    (varIdx : Z) (angle0 : string) (variation : Variation) :
  0 <= varIdx ->
  current !! Z.to_nat varIdx = Some variation ->
  exists newImage,
    addVariationImage now current varIdx angle0 !! Z.to_nat varIdx
    = Some (ProductFormDialog.with_images variation
              (images_or_empty variation ++ [newImage]))
    /\ angle newImage = angle0
    /\ url newImage = Some ""
    /\ (is_primary newImage = true <-> images_or_empty variation = [])
    /\ (images_or_empty variation <> [] -> is_primary newImage = false).
Proof.
  intros Hpos Hlook.
  assert (Hlt : (Z.to_nat varIdx < length current)%nat)
    by (eapply lookup_lt_Some; eassumption).
  unfold addVariationImage.
  replace (Z.ltb varIdx 0) with false by (symmetry; apply Z.ltb_ge; lia).
  replace (Z.leb (Z.of_nat (length current)) varIdx) with false
    by (symmetry; apply Z.leb_gt; lia).
  cbn [orb]. unfold createVariationsCopy.
  rewrite list_lookup_fmap, Hlook. cbn [fmap option_fmap option_map].
  eexists. split.
  - rewrite list_lookup_insert_eq by (rewrite length_map; exact Hlt).
    unfold ProductFormDialog.with_images at 1. cbn. reflexivity.
  - cbn. split; [reflexivity|]. split; [reflexivity|].
    destruct (images_or_empty variation) as [|img imgs] eqn:E; cbn.
    + split; [tauto | congruence].
    + split; [split; discriminate | reflexivity].
Qed.

Lemma addVariationImage_primary_witness :
  0 <= 0
  /\ [empty_variation] !! Z.to_nat 0 = Some empty_variation
  /\ exists newImage,
       addVariationImage 1700000000000 [empty_variation] 0 "front" !! Z.to_nat 0
       = Some (ProductFormDialog.with_images empty_variation
                 (images_or_empty empty_variation ++ [newImage]))
       /\ is_primary newImage = true.
Proof.
  split; [lia|]. split; [reflexivity|].
  destruct (addVariationImage_primary 1700000000000 [empty_variation] 0 "front"
              empty_variation ltac:(lia) eq_refl)
    as (img & H1 & _ & _ & H2 & _).
  exists img. split; [exact H1|]. apply H2. reflexivity.
Defined.

(** The second image added to a variation is not primary; an index out of
    range changes nothing. *)
Example addVariationImage_twice :
  let once := addVariationImage 1 [empty_variation] 0 "front" in
  let twice := addVariationImage 2 once 0 "back" in
  List.map (fun v => List.map is_primary (images_or_empty v)) twice
  = [[true; false]]
  /\ addVariationImage 3 once 1 "left" = once
  /\ addVariationImage 3 once (-1) "left" = once.
Proof. repeat split; reflexivity. Qed.

End FormProperties.

(** ** Running programs against a driver *)

Section RunLemmas.
Import Js Mongo.
Context {W : Type} (h : Handler W).

Lemma run_bind {A B} (p : Prog A) (f : A -> Prog B) (w : W) :
  run h (bind p f) w
  = match run h p w with
    | (Returned a, w') => run h (f a) w'
    | (Threw e, w') => (Threw e, w')
    end.
Proof.
  revert w. induction p as [a|e|R op k IH]; intros w; cbn; try reflexivity.
  destruct (h R op w) as [o w']. apply IH.
Qed.

Lemma run_try_catch {A} (p : Prog A) (c : JsError -> Prog A) (w : W) :
  run h (try_catch p c) w
  = match run h p w with
    | (Returned a, w') => (Returned a, w')
    | (Threw e, w') => run h (c e) w'
    end.
Proof.
  revert w. induction p as [a|e|R op k IH]; intros w; cbn; try reflexivity.
  destruct (h R op w) as [o w']. apply IH.
Qed.

Lemma run_await {R} (op : Op R) (w : W) :
  run h (await op) w = h R op w.
Proof.
  cbn. destruct (h R op w) as [[r|e] w']; reflexivity.
Qed.

Lemma run_of_outcome {A} (o : Outcome A) (w : W) :
  run h (of_outcome o) w = (o, w).
Proof. destruct o; reflexivity. Qed.

Lemma queries_bind {A B} (p : Prog A) (f : A -> Prog B) (w : W) :
  queries h (bind p f) w
  = (queries h p w
     + match run h p w with
       | (Returned a, w') => queries h (f a) w'
       | (Threw _, _) => 0
       end)%nat.
Proof.
  revert w. induction p as [a|e|R op k IH]; intros w; cbn; try reflexivity.
  destruct (h R op w) as [o w']. rewrite IH. lia.
Qed.

(** A handler that swallows the exception makes the block total. *)
Lemma run_try_catch_swallow {A} (p : Prog A) (a0 : A) (w : W) :
  exists a w', run h (try_catch p (fun _ => Ret a0)) w = (Returned a, w').
Proof.
  rewrite run_try_catch. destruct (run h p w) as [[a|e] w']; cbn; eauto.
Qed.

Lemma run_catch_log {R} (op : Op R) (w : W) :
  exists r w', run h (MongoDb.catch_log op) w = (Returned r, w').
Proof.
  unfold MongoDb.catch_log. rewrite run_try_catch, run_bind, run_await.
  destruct (h R op w) as [[r|e] w']; cbn; eauto.
Qed.

End RunLemmas.

(** ** Index set-up *)

Section IndexProperties.
Import Js Mongo.

Lemma initializeIndexes_returns {W} (h : Handler W) (w : W) :
  exists w', run h MongoDb.initializeIndexes w = (Returned tt, w').
Proof.
  unfold MongoDb.initializeIndexes.
  destruct (run_try_catch_swallow h
    (bind MongoDb.getDatabase (fun _ =>
       bind (MongoDb.Promise_all
               [ MongoDb.catch_log (CreateIndex MongoDb.product_search_index);
                 MongoDb.catch_log (CreateIndex MongoDb.category_index);
                 MongoDb.catch_log (CreateIndex MongoDb.created_at_index);
                 MongoDb.catch_log (CreateIndex MongoDb.category_created_at_index) ])
            (fun _ => Ret tt))) tt w) as ([] & w' & Hrun).
  exists w'. exact Hrun.
Qed.

Lemma createIndexes_returns {W} (h : Handler W) (w : W) :
  fst (h _ Connect w) = Returned tt ->
  exists w', run h ProductService.createIndexes w = (Returned tt, w').
Proof.
  intros Hc. unfold ProductService.createIndexes, ProductService.getCollection,
    MongoDb.getDatabase.
  rewrite run_bind, run_await.
  destruct (h unit Connect w) as [o w1]. cbn in Hc. subst o.
  destruct (run_try_catch_swallow h
    (bind (await (CreateIndex MongoDb.product_search_index)) (fun _ =>
     bind (await (CreateIndex MongoDb.category_index)) (fun _ =>
     bind (await (CreateIndex MongoDb.created_at_index)) (fun _ =>
     bind (await (CreateIndex MongoDb.category_created_at_index)) (fun _ =>
     Ret tt))))) tt w1) as ([] & w' & Hrun).
  exists w'. exact Hrun.
Qed.

(** Every one of the four [createIndex] calls of [initializeIndexes] is
    issued, whatever the earlier ones answered. *)
Lemma initializeIndexes_queries {W} (h : Handler W) (w : W) :
  fst (h _ Connect w) = Returned tt ->
  queries h MongoDb.initializeIndexes w = 5%nat.
Proof.
  intros Hc. unfold MongoDb.initializeIndexes, MongoDb.getDatabase. cbn.
  destruct (h unit Connect w) as [o w0]. cbn in Hc. subst o. cbn.
  destruct (h string (CreateIndex MongoDb.product_search_index) w0) as [[?|?] w1]; cbn;
  destruct (h string (CreateIndex MongoDb.category_index) w1) as [[?|?] w2]; cbn;
  destruct (h string (CreateIndex MongoDb.created_at_index) w2) as [[?|?] w3]; cbn;
  destruct (h string (CreateIndex MongoDb.category_created_at_index) w3) as [[?|?] w4];
  reflexivity.
Qed.

(** C9. Whatever each [createIndex] call answers (a duplicate-index error
    included), [initializeIndexes] returns without throwing, and so does
    [createIndexes] once the collection is obtained; hence a second run of
    either routine, from the state the first run left, returns as well. *)
Theorem index_setup_never_throws {W} (h : Handler W) (w : W) :
  (exists w1, run h MongoDb.initializeIndexes w = (Returned tt, w1)
     /\ exists w2, run h MongoDb.initializeIndexes w1 = (Returned tt, w2))
  /\ (forall w1,
        h _ Connect w = (Returned tt, w1) ->
        exists w2, run h ProductService.createIndexes w = (Returned tt, w2)
          /\ (fst (h _ Connect w2) = Returned tt ->
              exists w3, run h ProductService.createIndexes w2 = (Returned tt, w3))).
Proof.
  split.
  - destruct (initializeIndexes_returns h w) as [w1 H1].
    destruct (initializeIndexes_returns h w1) as [w2 H2]. eauto.
  - intros w1 Hc.
    destruct (createIndexes_returns h w) as [w2 H2]; [now rewrite Hc|].
    exists w2. split; [exact H2|]. intros Hc2.
    now apply createIndexes_returns.
Qed.

End IndexProperties.

(** ** Arithmetic on integers held in JavaScript numbers *)

Section NumberLemmas.
Import Js Spec.

Lemma sub_num (a b : Z) : sub (num a) (num b) = num (a - b).
Proof.
  unfold sub, num. f_equal.
  rewrite <- (inject_Z_Qred (a - b)). apply Qred_complete.
  unfold Qeq, inject_Z. cbn. lia.
Qed.

Lemma mul_num (a b : Z) : mul (num a) (num b) = num (a * b).
Proof.
  unfold mul, num. f_equal.
  rewrite <- (inject_Z_Qred (a * b)). apply Qred_complete.
  unfold Qeq, inject_Z. cbn. lia.
Qed.

Lemma lt_num (a b : Z) : lt (num a) (num b) = Z.ltb a b.
Proof.
  unfold lt, num, Qcompare, inject_Z, Z.ltb. cbn.
  now rewrite !Z.mul_1_r.
Qed.

Lemma gt_num (a b : Z) : gt (num a) (num b) = Z.ltb b a.
Proof. apply lt_num. Qed.

Lemma as_integer_num (z : Z) : as_integer (num z) = Some z.
Proof. unfold as_integer, num. rewrite inject_Z_Qred. reflexivity. Qed.

Lemma truthy_num (n : Z) : truthy (VNum (num n)) = negb (Z.eqb n 0).
Proof.
  unfold truthy, num, Qeq_bool, inject_Z. cbn. rewrite Z.mul_1_r.
  destruct n; reflexivity.
Qed.

Lemma ceil_div_bounds (t l : Z) :
  0 < l -> (ceil_div t l - 1) * l < t <= ceil_div t l * l.
Proof.
  intros Hl. unfold ceil_div.
  pose proof (Z.div_mod (- t) l ltac:(lia)) as Hdm.
  pose proof (Z.mod_pos_bound (- t) l Hl) as Hb.
  nia.
Qed.

Lemma ceil_div_unique (t l k : Z) :
  0 < l -> (k - 1) * l < t <= k * l -> k = ceil_div t l.
Proof.
  intros Hl Hk. pose proof (ceil_div_bounds t l Hl) as Hc. nia.
Qed.

Lemma Math_ceil_div_num (t l : Z) :
  0 < l -> Math_ceil (div (num t) (num l)) = num (ceil_div t l).
Proof.
  intros Hl. unfold div, num, Qsign.
  assert (Hs : Qcompare (inject_Z l) 0 = Gt).
  { apply Qgt_alt. unfold Qlt, inject_Z. cbn. lia. }
  rewrite Hs. unfold Math_ceil, num. f_equal. f_equal.
  rewrite (Qceiling_comp _ _ (Qred_correct _)).
  destruct l as [|p|p]; try lia.
  unfold ceil_div, Qceiling, Qfloor, Qdiv, Qmult, Qinv, Qopp, inject_Z. cbn.
  rewrite Z.mul_1_r. reflexivity.
Qed.

End NumberLemmas.

(** ** The in-memory store *)

Section MemStoreLemmas.
Import Js Mongo MemStore.
Context {sem : Semantics}.

Lemma handler_Connect (w : World) :
  online w = true -> handler _ Connect w = (Returned tt, w).
Proof. intros H. unfold handler. now rewrite H. Qed.

Lemma handler_CountDocuments (w : World) :
  online w = true ->
  handler _ CountDocuments w = (Returned (Z.of_nat (length (docs w))), w).
Proof. intros H. unfold handler. now rewrite H. Qed.


Lemma handler_Aggregate (w : World) (p : list Stage) :
  online w = true ->
  handler _ (Aggregate p) w = (run_pipeline (indexes w) p (docs w), w).
Proof. intros H. unfold handler. now rewrite H. Qed.

Lemma handler_FindOne (w : World) (oid : string) :
  online w = true ->
  handler _ (FindOne oid) w = (Returned (List.find (has_id oid) (docs w)), w).
Proof. intros H. unfold handler. now rewrite H. Qed.

Lemma handler_InsertOne (w : World) (doc : Obj) :
  online w = true -> handler _ (InsertOne doc) w = insert_one doc w.
Proof. intros H. unfold handler. now rewrite H. Qed.

Lemma handler_NewDate (w : World) :
  handler _ NewDate w = (Returned (clock w), w).
Proof. unfold handler. destruct (online w); reflexivity. Qed.

Lemma length_insert_sorted (le : Obj -> Obj -> bool) (x : Obj) (l : list Obj) :
  length (insert_sorted le x l) = S (length l).
Proof.
  induction l as [|y l IH]; cbn; [reflexivity|].
  destruct (le x y); cbn; [reflexivity | now rewrite IH].
Qed.

Lemma length_sort_by (le : Obj -> Obj -> bool) (l : list Obj) :
  length (sort_by le l) = length l.
Proof.
  induction l as [|x l IH]; cbn; [reflexivity|].
  now rewrite length_insert_sorted, IH.
Qed.

End MemStoreLemmas.


(** ** The query engine on the in-memory store *)

Section QueryProperties.
Import Js Mongo MemStore ProductService Spec Scenario.
Context {sem : Semantics}.

Lemma handler_store_like : store_like handler.
Proof. intros R op w _. reflexivity. Qed.


Lemma count_reply_total (ixs : list IndexSpec) (mc : MatchConditions)
    (f : Obj -> bool) (ds : list Obj) :
  compile_match ixs mc = Returned f ->
  exists reply,
    run_pipeline ixs (count_pipeline mc) ds = Returned reply
    /\ count_total reply = num (Z.of_nat (length (List.filter f ds))).
Proof.
  intros Hf. unfold count_pipeline, run_pipeline, run_stage. rewrite Hf.
  destruct (List.filter f ds) as [|d rest] eqn:E.
  - eexists. split; reflexivity.
  - eexists. split; [reflexivity|].
    unfold count_total, get. rewrite lookup_singleton_eq. cbn [default from_option].
    unfold id. rewrite truthy_num.
    destruct (Z.eqb_spec (Z.of_nat (length (d :: rest))) 0) as [H0|_];
      [cbn [length] in H0; lia | reflexivity].
Qed.

Lemma page_reply (ixs : list IndexSpec) (mc : MatchConditions)
    (f : Obj -> bool) (ds : list Obj) (p l : Z) :
  compile_match ixs mc = Returned f -> 1 <= p -> 1 <= l ->
  run_pipeline ixs (page_pipeline mc (mul (sub (num p) (num 1)) (num l)) (num l)) ds
  = Returned (page_of p l (List.filter f ds)).
Proof.
  intros Hf Hp Hl. unfold page_pipeline. rewrite sub_num, mul_num.
  cbn [run_pipeline run_stage Z.eqb Z.opp Pos.eqb].
  rewrite Hf, !as_integer_num.
  replace (Z.leb 0 ((p - 1) * l)) with true by (symmetry; apply Z.leb_le; nia).
  replace (Z.ltb 0 l) with true by (symmetry; apply Z.ltb_lt; lia).
  reflexivity.
Qed.

(** The result of a query the store accepts. *)
Lemma run_getProductsPaginated (h : Handler World) (w : World) (p l : Z)
    (search categoryId : option string) (mc : MatchConditions) (f : Obj -> bool) :
  store_like h ->
  online w = true -> 1 <= p -> 1 <= l ->
  let params := mkParams (num p) (num l) search categoryId in
  run h (buildMatchConditions params) w = (Returned mc, w) ->
  compile_match (indexes w) mc = Returned f ->
  let total := num (Z.of_nat (length (List.filter f (docs w)))) in
  let totalPages := Math_ceil (div total (num l)) in
  run h (getProductsPaginated params) w
  = (Returned
       (mkResult (page_of p l (List.filter f (docs w)))
          (mkPagination (num p) (num l) total totalPages
                        (lt (num p) totalPages) (gt (num p) (num 1)))), w).
Proof.
  intros Hh Hon Hp Hl params Hmc Hf total totalPages.
  destruct (count_reply_total (indexes w) mc f (docs w) Hf) as (reply & Hreply & Htotal).
  unfold getProductsPaginated, getCollection, MongoDb.getDatabase.
  rewrite run_bind, run_await, Hh, (handler_Connect w Hon) by reflexivity.
  rewrite run_bind, run_await, Hh, (handler_CountDocuments w Hon) by reflexivity.
  rewrite run_bind, Hmc.
  rewrite run_try_catch, run_bind, run_await, Hh, (handler_Aggregate w _ Hon), Hreply
    by reflexivity.
  rewrite run_bind, run_await, Hh, (handler_Aggregate w _ Hon) by reflexivity.
  cbn [page limit params].
  rewrite (page_reply (indexes w) mc f (docs w) p l Hf Hp Hl).
  cbn [run]. rewrite Htotal. reflexivity.
Qed.

(** C1. For [page >= 1] and [1 <= limit <= 1000], a query the store
    accepts returns [total], the number of matching documents,
    [totalPages = ceil(total / limit)], [hasNext = (page < totalPages)] and
    [hasPrev = (page > 1)]; the page holds the matching documents after the
    [(page - 1) * limit] first, at most [limit] of them. *)
Theorem getProductsPaginated_pagination (w : World) (p l : Z)
    (search categoryId : option string) (mc : MatchConditions) (f : Obj -> bool) :
  online w = true ->
  1 <= p -> 1 <= l <= 1000 ->
  let params := mkParams (num p) (num l) search categoryId in
  run handler (buildMatchConditions params) w = (Returned mc, w) ->
  compile_match (indexes w) mc = Returned f ->
  let matched := List.filter f (docs w) in
  let total := Z.of_nat (length matched) in
  let totalPages := ceil_div total l in
  exists r,
    run handler (getProductsPaginated params) w = (Returned r, w)
    /\ pagination r
       = mkPagination (num p) (num l) (num total) (num totalPages)
                      (Z.ltb p totalPages) (Z.ltb 1 p)
    /\ (totalPages - 1) * l < total <= totalPages * l
    /\ data r = page_of p l matched
    /\ St_skip (num ((p - 1) * l))
       = nth 2 (page_pipeline mc (mul (sub (page params) (num 1)) (limit params))
                              (limit params)) (St_count "")
    /\ Z.of_nat (length (data r)) = Z.min l (Z.max 0 (total - (p - 1) * l)).
Proof.
  intros Hon Hp Hl params Hmc Hf matched total totalPages.
  eexists. split; [|split; [|split; [|split; [|split]]]].
  - apply (run_getProductsPaginated handler w p l search categoryId mc f
             handler_store_like Hon Hp (proj1 Hl) Hmc Hf).
  - cbn [pagination]. rewrite Math_ceil_div_num by lia.
    rewrite lt_num, gt_num. reflexivity.
  - apply ceil_div_bounds. lia.
  - reflexivity.
  - cbn [nth page_pipeline page limit params]. now rewrite sub_num, mul_num.
  - cbn [data]. unfold page_of. rewrite !length_map, length_firstn, length_skipn.
    unfold newest_first. rewrite length_sort_by.
    unfold total, matched. assert (Hs : 0 <= (p - 1) * l) by nia.
    revert Hs. generalize ((p - 1) * l). intros s Hs. lia.
Qed.

End QueryProperties.

Section QueryScenarios.
Import Js Mongo MemStore ProductService Spec Scenario.

#[local] Existing Instance literal_semantics.

(** Page 2 of 25 products, ten to a page. *)
Lemma getProductsPaginated_pagination_witness :
  exists r,
    run handler (getProductsPaginated (mkParams (num 2) (num 10) None None))
        (catalogue 25)
    = (Returned r, catalogue 25)
    /\ pagination r = mkPagination (num 2) (num 10) (num 25) (num 3) true true
    /\ Z.of_nat (length (data r)) = 10.
Proof.
  destruct (getProductsPaginated_pagination (catalogue 25) 2 10 None None
              (mkMatch None None None) (fun _ => true)
              eq_refl ltac:(lia) ltac:(lia) eq_refl eq_refl)
    as (r & Hrun & Hpg & _ & _ & _ & Hlen).
  exists r. split; [exact Hrun|]. split; [exact Hpg | exact Hlen].
Defined.

End QueryScenarios.


(** ** The read endpoint *)

Section RouteProperties.
Import Js Mongo ProductService Route Spec.

(** C2. When the parsed [page] is below 1, or the parsed [limit] is below
    1 or above 1000, [GET] answers with the error response (status 500)
    and, whatever the driver, issues no query to the store. *)
Theorem GET_rejects_invalid_pagination (request : Request) :
  let page := parseInt (or_str (q_page request) "1") in
  let limit := parseInt (or_str (q_limit request) "10") in
  (lt page (num 1) || lt limit (num 1) || gt limit (num 1000))%bool = true ->
  GET request = Ret invalid_pagination
  /\ forall W (h : Handler W) (w : W),
       run h (GET request) w = (Returned invalid_pagination, w)
       /\ queries h (GET request) w = 0%nat.
Proof.
  intros page limit Hbad.
  assert (HG : GET request = Ret invalid_pagination).
  { unfold GET. fold page. fold limit. rewrite Hbad. reflexivity. }
  split; [exact HG|]. intros W h w. rewrite HG. split; reflexivity.
Qed.

Lemma GET_rejects_invalid_pagination_witness :
  let request := mkRequest (Some "0") (Some "10") None None in
  (lt (parseInt "0") (num 1) || lt (parseInt "10") (num 1)
   || gt (parseInt "10") (num 1000))%bool = true
  /\ GET request = Ret invalid_pagination.
Proof.
  split; [reflexivity|].
  exact (proj1 (GET_rejects_invalid_pagination
                  (mkRequest (Some "0") (Some "10") None None) eq_refl)).
Defined.

(** On integers the three tests are the ones on [Z]. *)
Lemma validation_on_integers (p l : Z) :
  (lt (num p) (num 1) || lt (num l) (num 1) || gt (num l) (num 1000))%bool
  = (Z.ltb p 1 || Z.ltb l 1 || Z.ltb 1000 l)%bool.
Proof. now rewrite !lt_num, gt_num. Qed.

Example parseInt_samples :
  parseInt "2" = num 2 /\ parseInt " 42px" = num 42 /\ parseInt "-7" = num (-7)
  /\ parseInt "0x1F" = num 31 /\ parseInt "abc" = NaN /\ parseInt "" = NaN
  /\ parseInt "1001" = num 1001.
Proof. repeat split; reflexivity. Qed.

(** Limits of 0 and 1001 are rejected, the defaults are accepted, and a
    page that does not parse passes the three tests. *)
Example GET_validation_samples :
  GET (mkRequest None (Some "0") None None) = Ret invalid_pagination
  /\ GET (mkRequest None (Some "1001") None None) = Ret invalid_pagination
  /\ GET (mkRequest (Some "-1") None None None) = Ret invalid_pagination
  /\ GET (mkRequest None None None None) <> Ret invalid_pagination
  /\ GET (mkRequest (Some "abc") None None None) <> Ret invalid_pagination.
Proof. repeat split; try reflexivity; discriminate. Qed.

End RouteProperties.


(** ** Search: the text index and its fallback *)

Section SearchProperties.
Import Js Mongo MemStore ProductService Spec Scenario.



Context {sem : Semantics}.




End SearchProperties.





Section SearchScenarios.
Import Js Mongo MemStore ProductService Spec Scenario.

(** On a collection without indexes, [createIndexes] leaves the text index
    the probe looks for, and that index covers [description]. *)
Lemma createIndexes_covers_description {sem : Semantics} (w : World) :
  online w = true -> indexes w = [] ->
  let w' := snd (run handler createIndexes w) in
  fst (run handler createIndexes w) = Returned tt
  /\ index_exists w' = true
  /\ find_text_index (indexes w') = Some MongoDb.product_search_index
  /\ In "description" (text_fields MongoDb.product_search_index)
  /\ docs w' = docs w.
Proof.
  destruct w as [ds ixs t n on]. cbn. intros -> ->.
  repeat split; try reflexivity. cbn. tauto.
Qed.

#[local] Existing Instance literal_semantics.



End SearchScenarios.


(** ** Lookup by id, and creation *)

Section IdLemmas.
Import Js Mongo MemStore ProductService.

Lemma hex_char_lower (d : N) :
  is_hex_digit (hex_char d) = true /\ to_lower (hex_char d) = hex_char d.
Proof.
  destruct d as [|q]; [split; reflexivity|].
  do 4 (try destruct q as [q|q|]); split; reflexivity.
Qed.

Lemma hex_digits_lower (k : nat) (n : N) (acc : string) :
  string_forallb is_hex_digit acc = true -> toLowerCase acc = acc ->
  String.length (hex_digits k n acc) = (k + String.length acc)%nat
  /\ string_forallb is_hex_digit (hex_digits k n acc) = true
  /\ toLowerCase (hex_digits k n acc) = hex_digits k n acc.
Proof.
  revert n acc. induction k as [|k IH]; intros n acc Hhex Hlow.
  - cbn. auto.
  - cbn [hex_digits].
    destruct (hex_char_lower (N.modulo n 16)) as [Hc Hl].
    destruct (IH (N.div n 16) (String (hex_char (N.modulo n 16)) acc))
      as (Hlen & Hh & Hlw).
    + cbn [string_forallb]. now rewrite Hc, Hhex.
    + cbn [toLowerCase]. now rewrite Hl, Hlow.
    + split; [|split]; [|exact Hh|exact Hlw].
      rewrite Hlen. cbn [String.length]. lia.
Qed.

(** A generated id is read back by the [ObjectId] constructor. *)
Lemma ObjectId_new_render (n : N) :
  ObjectId_new (render_oid n) = Returned (render_oid n).
Proof.
  unfold ObjectId_new, render_oid.
  destruct (hex_digits_lower 24 n EmptyString eq_refl eq_refl) as (Hlen & Hh & Hl).
  rewrite Hlen, Hh, Hl. reflexivity.
Qed.

Lemma get_with_fields (src : Obj) (ks : list string) (o : Obj) (k : string) :
  get (with_fields src ks o) k
  = if existsb (String.eqb k) ks then get src k else get o k.
Proof.
  unfold with_fields. revert o. induction ks as [|a ks IH]; intros o; cbn.
  - reflexivity.
  - rewrite IH. destruct (String.eqb_spec k a) as [->|Hne]; cbn.
    + destruct (existsb (String.eqb a) ks); [reflexivity|].
      unfold get. now rewrite lookup_insert_eq.
    + destruct (existsb (String.eqb k) ks); [reflexivity|].
      unfold get. rewrite lookup_insert_ne by congruence. reflexivity.
Qed.

Lemma find_none_existsb {A} (f : A -> bool) (l : list A) :
  existsb f l = false -> List.find f l = None.
Proof.
  induction l as [|x l IH]; cbn; [reflexivity|].
  destruct (f x); [discriminate | exact IH].
Qed.

Lemma find_app_last {A} (f : A -> bool) (l : list A) (x : A) :
  existsb f l = false -> f x = true -> List.find f (l ++ [x]) = Some x.
Proof.
  induction l as [|y l IH]; cbn; intros Hl Hx.
  - now rewrite Hx.
  - destruct (f y); [discriminate | now apply IH].
Qed.

End IdLemmas.

Section LookupProperties.
Import Js Mongo MemStore ProductService Spec Scenario.

(** C6, amended.  [getProductById] returns [null] when the id is a valid
    identifier that no stored record carries; when the id does not parse
    as an identifier, the [ObjectId] constructor throws and the call
    throws with it, before the store is searched. *)
Theorem getProductById_not_found {sem : Semantics} (w : World) (id : string) :
  online w = true ->
  (forall oid,
      ObjectId_new id = Returned oid ->
      existsb (has_id oid) (docs w) = false ->
      run handler (getProductById id) w = (Returned None, w))
  /\ (forall e,
      ObjectId_new id = Threw e ->
      run handler (getProductById id) w = (Threw e, w)
      /\ queries handler (getProductById id) w = 1%nat).
Proof.
  intros Hon. split.
  - intros oid Hoid Hnone. unfold getProductById, getCollection, MongoDb.getDatabase.
    rewrite run_bind, run_await, (handler_Connect w Hon).
    rewrite Hoid. cbn [of_outcome bind].
    rewrite run_bind, run_await, (handler_FindOne w oid Hon).
    now rewrite (find_none_existsb _ _ Hnone).
  - intros e He. unfold getProductById, getCollection, MongoDb.getDatabase.
    rewrite run_bind, queries_bind, run_await, (handler_Connect w Hon).
    rewrite He. cbn [of_outcome bind run queries].
    split; [reflexivity|].
    cbn. rewrite (handler_Connect w Hon). reflexivity.
Qed.

#[local] Existing Instance literal_semantics.

Lemma getProductById_not_found_witness :
  online (catalogue 3) = true
  /\ ObjectId_new "0123456789abcdef01234567" = Returned "0123456789abcdef01234567"
  /\ run handler (getProductById "0123456789abcdef01234567") (catalogue 3)
     = (Returned None, catalogue 3).
Proof.
  split; [reflexivity|]. split; [reflexivity|].
  exact (proj1 (getProductById_not_found (catalogue 3) "0123456789abcdef01234567"
                  eq_refl) "0123456789abcdef01234567" eq_refl eq_refl).
Defined.

(** C6, as stated, fails: an id that is not an identifier makes
    [getProductById] throw instead of returning [null]. *)
Lemma getProductById_invalid_id_throws :
  run handler (getProductById "not-an-id") (catalogue 3)
  = (Threw (mkError "input must be a 24 character hex string, 12 byte Uint8Array, or an integer" None),
     catalogue 3)
  /\ fst (run handler (getProductById "not-an-id") (catalogue 3)) <> Returned None.
Proof. split; [reflexivity | discriminate]. Qed.

End LookupProperties.


Section WithFields.
Import Js ProductService.

(** Every property listed is present in the object built, be it as
    [undefined]. *)
Lemma with_fields_present (src : Obj) (ks : list string) (o : Obj) (k : string) :
  In k ks -> is_Some (with_fields src ks o !! k).
Proof.
  unfold with_fields. revert o.
  induction ks as [|a ks IH]; intros o Hk; [destruct Hk|].
  cbn [fold_left].
  destruct (in_dec string_dec k ks) as [Hin|Hnin]; [now apply IH|].
  destruct Hk as [->|Hk]; [|contradiction].
  clear IH. revert o. induction ks as [|b ks IH]; intros o; cbn [fold_left].
  - rewrite lookup_insert_eq. eauto.
  - assert (Hb : k <> b) by (intros ->; apply Hnin; now left).
    rewrite insert_insert_ne by congruence.
    apply IH. intros Hin. apply Hnin. now right.
Qed.

End WithFields.

Section RoundTrip.
Import Js Mongo MemStore ProductService Spec Scenario.

(** The document [createProduct] stores and the world it leaves. *)
Lemma run_createProduct {sem : Semantics} (w : World) (productData : Obj) :
  online w = true ->
  productData !! "_id" = None ->
  existsb (has_id (render_oid (next_oid w))) (docs w) = false ->
  run handler (createProduct productData) w
  = (Returned (created_product (render_oid (next_oid w)) productData),
     after_insert w (stored_product (render_oid (next_oid w)) (clock w) productData)).
Proof.
  intros Hon Hid Hfresh.
  unfold createProduct, getCollection, MongoDb.getDatabase.
  rewrite run_bind, run_await, (handler_Connect w Hon).
  rewrite run_bind, run_await, handler_NewDate.
  rewrite run_bind, run_await, handler_NewDate.
  rewrite run_bind, run_await, (handler_InsertOne w _ Hon).
  unfold insert_one.
  rewrite !lookup_insert_ne by discriminate. rewrite Hid, Hfresh.
  reflexivity.
Qed.

(** Fetching the document just stored. *)
Lemma run_getProductById_stored {sem : Semantics} (w : World) (productData : Obj) :
  online w = true ->
  existsb (has_id (render_oid (next_oid w))) (docs w) = false ->
  let oid := render_oid (next_oid w) in
  let stored := stored_product oid (clock w) productData in
  run handler (getProductById oid) (after_insert w stored)
  = (Returned (Some (fetched_product oid stored)), after_insert w stored).
Proof.
  intros Hon Hfresh oid stored. fold oid in Hfresh.
  assert (Hon' : online (after_insert w stored) = true) by exact Hon.
  assert (Hstored_id : has_id oid stored = true).
  { unfold has_id, stored, stored_product. rewrite lookup_insert_eq.
    apply String.eqb_refl. }
  unfold getProductById, getCollection, MongoDb.getDatabase.
  rewrite run_bind, run_await, (handler_Connect _ Hon').
  unfold oid at 1. rewrite ObjectId_new_render. fold oid. cbn [of_outcome bind].
  rewrite run_bind, run_await, (handler_FindOne _ oid Hon').
  cbn [docs after_insert]. rewrite (find_app_last _ _ stored Hfresh Hstored_id).
  unfold to_product, get. unfold stored at 1, stored_product at 1.
  rewrite lookup_insert_eq. reflexivity.
Qed.

(** What does hold of a product created and fetched back: the two agree
    on every property [getProductById] copies, the time stamps apart;
    the fetched one carries the time stamps of the stored document, the
    created one what the input had under these names. *)
Lemma createProduct_then_getProductById {sem : Semantics} (w : World)
    (productData : Obj) :
  online w = true ->
  productData !! "_id" = None ->
  existsb (has_id (render_oid (next_oid w))) (docs w) = false ->
  let oid := render_oid (next_oid w) in
  exists created fetched w',
    run handler (createProduct productData) w = (Returned created, w')
    /\ run handler (getProductById oid) w' = (Returned (Some fetched), w')
    /\ get created "id" = get (productData ∪ {[ "id" := VStr oid ]}) "id"
    /\ get fetched "id" = VStr oid
    /\ (forall k, In k product_fields -> k <> "createdAt" -> k <> "updatedAt" ->
          get fetched k = get created k)
    /\ (forall k, In k created_fields ->
          is_Some (created !! k) /\ is_Some (fetched !! k))
    /\ get created "createdAt" = get productData "createdAt"
    /\ get created "updatedAt" = get productData "updatedAt"
    /\ get fetched "createdAt" = VDate (clock w)
    /\ get fetched "updatedAt" = VDate (clock w).
Proof.
  intros Hon Hid Hfresh oid.
  set (stored := stored_product oid (clock w) productData).
  assert (Hstored : forall k, k <> "_id" -> k <> "createdAt" -> k <> "updatedAt" ->
                      get stored k = get productData k).
  { intros k H1 H2 H3. unfold get, stored, stored_product.
    rewrite !lookup_insert_ne by congruence. reflexivity. }
  exists (created_product oid productData), (fetched_product oid stored),
         (after_insert w stored).
  split; [exact (run_createProduct w productData Hon Hid Hfresh)|].
  split; [exact (run_getProductById_stored w productData Hon Hfresh)|].
  unfold created_product, fetched_product.
  split; [now rewrite get_with_fields|].
  split; [now rewrite get_with_fields|].
  split; [|split].
  - intros k Hk Hc Hu. rewrite !get_with_fields.
    assert (Hkid : k <> "_id" /\ k <> "id").
    { assert (Hno : existsb (String.eqb "_id") product_fields = false
                    /\ existsb (String.eqb "id") product_fields = false)
        by (split; reflexivity).
      split; intros ->.
      - enough (existsb (String.eqb "_id") product_fields = true)
          by (destruct Hno; congruence).
        apply existsb_exists. exists "_id". split; [exact Hk | reflexivity].
      - enough (existsb (String.eqb "id") product_fields = true)
          by (destruct Hno; congruence).
        apply existsb_exists. exists "id". split; [exact Hk | reflexivity]. }
    replace (existsb (String.eqb k) product_fields) with true.
    2:{ symmetry. apply existsb_exists. exists k. split; [exact Hk|].
        apply String.eqb_refl. }
    rewrite Hstored by tauto.
    destruct (existsb (String.eqb k) created_fields); [reflexivity|].
    unfold get. rewrite lookup_union_l; [reflexivity|].
    rewrite lookup_singleton_ne by (intros E; symmetry in E; tauto). reflexivity.
  - intros k Hk. split.
    + apply (with_fields_present productData created_fields _ k Hk).
    + apply (with_fields_present stored product_fields _ k).
      unfold product_fields. apply in_or_app. right. exact Hk.
  - rewrite !get_with_fields.
    replace (existsb (String.eqb "createdAt") created_fields) with false by reflexivity.
    replace (existsb (String.eqb "updatedAt") created_fields) with false by reflexivity.
    replace (existsb (String.eqb "createdAt") product_fields) with true by reflexivity.
    replace (existsb (String.eqb "updatedAt") product_fields) with true by reflexivity.
    assert (Hu : forall k, k <> "id" ->
                  get (productData ∪ {[ "id" := VStr oid ]}) k = get productData k).
    { intros k Hk. unfold get. rewrite lookup_union_l; [reflexivity|].
      apply lookup_singleton_ne. congruence. }
    rewrite !Hu by discriminate.
    split; [reflexivity|]. split; [reflexivity|].
    unfold get, stored, stored_product.
    split.
    + rewrite lookup_insert_ne by discriminate.
      rewrite lookup_insert_ne by discriminate.
      rewrite lookup_insert_eq. reflexivity.
    + rewrite lookup_insert_ne by discriminate.
      rewrite lookup_insert_eq. reflexivity.
Qed.

#[local] Existing Instance literal_semantics.

(** C4 on the product of the scenario.  Created in an empty collection
    and fetched back by the id returned, the product agrees with the one
    [createProduct] returned on the angle fields ([frontImage] is ["u1"],
    [backImage] and [purchaseLimit] are present as [undefined] in both),
    but not on the time stamps: the fetched product has [createdAt] and
    [updatedAt], the created one has neither, so the two differ. *)
Theorem createProduct_getProductById_mug :
  let oid := render_oid 1 in
  let stored := stored_product oid 1700000000000 mug in
  let created := created_product oid mug in
  let fetched := fetched_product oid stored in
  let w' := after_insert empty_world stored in
  run handler (createProduct mug) empty_world = (Returned created, w')
  /\ get created "id" = VStr oid
  /\ run handler (getProductById oid) w' = (Returned (Some fetched), w')
  /\ get fetched "id" = VStr oid
  /\ get created "frontImage" = VStr "u1"
  /\ get fetched "frontImage" = VStr "u1"
  /\ created !! "backImage" = Some VUndef
  /\ fetched !! "backImage" = Some VUndef
  /\ created !! "purchaseLimit" = Some VUndef
  /\ fetched !! "purchaseLimit" = Some VUndef
  /\ created !! "createdAt" = None
  /\ fetched !! "createdAt" = Some (VDate 1700000000000)
  /\ created !! "updatedAt" = None
  /\ fetched !! "updatedAt" = Some (VDate 1700000000000)
  /\ created <> fetched.
Proof.
  intros oid stored created fetched w'.
  split; [exact (run_createProduct empty_world mug eq_refl eq_refl eq_refl)|].
  split; [vm_compute; reflexivity|].
  split; [exact (run_getProductById_stored empty_world mug eq_refl eq_refl)|].
  repeat (split; [vm_compute; reflexivity|]).
  intros E. apply (f_equal (fun o : Obj => o !! "createdAt")) in E.
  vm_compute in E. discriminate E.
Qed.

End RoundTrip.

(** ** Index set-up on concrete drivers *)

Section IndexScenarios.
Import Js Mongo MemStore Spec Scenario.

(** On a driver that rejects every second creation with the
    duplicate-index error, both routines still return, twice in a row. *)
Example index_setup_twice_with_duplicates :
  run duplicate_rejecting_handler MongoDb.initializeIndexes []
  = (Returned tt, [ "category_created_at_index"; "created_at_index";
                    "category_index"; "product_search_index" ])
  /\ (let names := snd (run duplicate_rejecting_handler MongoDb.initializeIndexes []) in
      fst (duplicate_rejecting_handler _ (CreateIndex MongoDb.category_index) names)
      = Threw (mkError "Index already exists" (Some 85))
      /\ run duplicate_rejecting_handler MongoDb.initializeIndexes names
         = (Returned tt, names)
      /\ run duplicate_rejecting_handler ProductService.createIndexes names
         = (Returned tt, names)).
Proof. repeat split; reflexivity. Qed.

(** On the in-memory store a second run of [createIndexes] changes
    nothing. *)
Example createIndexes_twice_in_memory :
  let h := handler (sem := literal_semantics) in
  let once := snd (run h ProductService.createIndexes (catalogue 3)) in
  run h ProductService.createIndexes once = (Returned tt, once)
  /\ List.map ix_name (indexes once)
     = [ "product_search_index"; "category_index"; "created_at_index";
         "category_created_at_index" ].
Proof. split; reflexivity. Qed.

(** The store unreachable: [initializeIndexes] swallows the failure,
    [createIndexes] does not, its [getCollection] being outside the
    [try]. *)
Example index_setup_offline :
  let h := handler (sem := literal_semantics) in
  let w := mkWorld [] [] 0 1 false in
  fst (run h MongoDb.initializeIndexes w) = Returned tt
  /\ fst (run h ProductService.createIndexes w) = Threw offline_error.
Proof. split; reflexivity. Qed.

End IndexScenarios.

(** ** The read endpoint on the in-memory store *)

Section RouteScenarios.
Import Js Mongo MemStore ProductService Route Spec Scenario.

#[local] Existing Instance literal_semantics.

(** [GET /api/products?page=2&limit=10] on 25 products. *)
Example GET_page_two :
  match fst (run handler (GET (mkRequest (Some "2") (Some "10") None None))
                 (catalogue 25)) with
  | Returned (mkResponse 200 (ResultBody r)) =>
      pagination r = ProductService.mkPagination (num 2) (num 10) (num 25)
                       (num 3) true true
      /\ length (data r) = 10%nat
      /\ List.map (fun d => get d "createdAt") (firstn 2 (data r))
         = [VDate 15; VDate 14]
  | _ => False
  end.
Proof. vm_compute. repeat split; reflexivity. Qed.

(** A search with a pattern the server rejects fails the request on the
    fallback path, whatever the probe answered. *)
Example GET_rejected_pattern :
  let strict : Semantics :=
    {| regex_compile pattern options :=
         if String.eqb pattern "(" then None
         else Some (fun s => ci_includes s pattern);
       text_match search s := ci_includes s search |} in
  fst (run (handler (sem := strict))
           (GET (mkRequest None None (Some "(") None)) (catalogue 3))
  = Returned (mkResponse 500
      (ErrorBody "Failed to fetch products" (Some "Regular expression is invalid"))).
Proof. reflexivity. Qed.

End RouteScenarios.


(** ** Running programs of the larger interface *)

Section TaskLemmas.
Import Js Mongo Driver.
Context {W : Type} (h : Driver W).

Lemma perform_andThen {A B} (t : Task A) (f : A -> Task B) (w : W) :
  perform h (andThen t f) w
  = match perform h t w with
    | (Returned a, w') => perform h (f a) w'
    | (Threw e, w') => (Threw e, w')
    end.
Proof.
  revert w. induction t as [a|e|R c k IH]; intros w; cbn; try reflexivity.
  destruct (h R c w) as [o w']. apply IH.
Qed.

Lemma perform_tryCatch {A} (t : Task A) (c : JsError -> Task A) (w : W) :
  perform h (tryCatch t c) w
  = match perform h t w with
    | (Returned a, w') => (Returned a, w')
    | (Threw e, w') => perform h (c e) w'
    end.
Proof.
  revert w. induction t as [a|e|R c0 k IH]; intros w; cbn; try reflexivity.
  destruct (h R c0 w) as [o w']. apply IH.
Qed.

Lemma perform_tryFinally {A} (t : Task A) (f : Task unit) (w : W) :
  perform h (tryFinally t f) w
  = match perform h t w with
    | (o, w') =>
        match perform h f w' with
        | (Returned _, w'') => (o, w'')
        | (Threw e, w'') => (Threw e, w'')
        end
    end.
Proof.
  revert w. induction t as [a|e|R c k IH]; intros w; cbn.
  - rewrite perform_andThen. destruct (perform h f w) as [[[]|e] w']; reflexivity.
  - rewrite perform_andThen. destruct (perform h f w) as [[[]|e'] w']; reflexivity.
  - destruct (h R c w) as [o w']. apply IH.
Qed.

Lemma perform_call {R} (c : Call R) (w : W) :
  perform h (call c) w = h R c w.
Proof. cbn. destruct (h R c w) as [[r|e] w']; reflexivity. Qed.

Lemma perform_ofOutcome {A} (o : Outcome A) (w : W) :
  perform h (ofOutcome o) w = (o, w).
Proof. destruct o; reflexivity. Qed.

(** A program of the read path runs on the larger interface as it does
    on the driver it was written for. *)
Lemma perform_lift {A} (p : Prog A) (w : W) :
  perform h (lift p) w = run (fun R op => h R (Base op)) p w.
Proof.
  revert w. induction p as [a|e|R op k IH]; intros w; cbn; try reflexivity.
  destruct (h R (Base op) w) as [o w']. apply IH.
Qed.

Lemma issued_andThen {A B X} (f : forall R, Call R -> option X)
    (t : Task A) (g : A -> Task B) (w : W) :
  issued f h (andThen t g) w
  = (issued f h t w
     ++ match perform h t w with
        | (Returned a, w') => issued f h (g a) w'
        | (Threw _, _) => []
        end)%list.
Proof.
  revert w. induction t as [a|e|R c k IH]; intros w; cbn; try reflexivity.
  destruct (h R c w) as [o w']. rewrite IH. destruct (f R c); reflexivity.
Qed.

Lemma issued_tryCatch {A X} (f : forall R, Call R -> option X)
    (t : Task A) (c : JsError -> Task A) (w : W) :
  issued f h (tryCatch t c) w
  = (issued f h t w
     ++ match perform h t w with
        | (Returned _, _) => []
        | (Threw e, w') => issued f h (c e) w'
        end)%list.
Proof.
  revert w. induction t as [a|e|R c0 k IH]; intros w; cbn.
  - reflexivity.
  - reflexivity.
  - destruct (h R c0 w) as [o w']. rewrite IH. destruct (f R c0); reflexivity.
Qed.

Lemma issued_tryFinally {A X} (f : forall R, Call R -> option X)
    (t : Task A) (g : Task unit) (w : W) :
  issued f h (tryFinally t g) w
  = (issued f h t w ++ issued f h g (snd (perform h t w)))%list.
Proof.
  revert w. induction t as [a|e|R c k IH]; intros w; cbn.
  - rewrite issued_andThen. destruct (perform h g w) as [[[]|e] w'];
      cbn; now rewrite app_nil_r.
  - rewrite issued_andThen. destruct (perform h g w) as [[[]|e'] w'];
      cbn; now rewrite app_nil_r.
  - destruct (h R c w) as [o w']. rewrite IH. destruct (f R c); reflexivity.
Qed.

End TaskLemmas.


(** ** Which indexes the three set-up routines ask for *)

Ltac step_driver h :=
  repeat match goal with
         | |- context [h ?R ?c ?w0] => destruct (h R c w0) as [[?|?] ?]; cbn
         end.

Section IndexCalls.
Import Js Mongo Driver Spec.
Context {W : Type} (h : Driver W).

Lemma perform_create_logged (spec : IndexSpec) (w : W) :
  perform h (InitIndexes.create_logged spec) w
  = (Returned tt, snd (h _ (Base (CreateIndex spec)) w)).
Proof.
  unfold InitIndexes.create_logged. cbn.
  destruct (h string (Base (CreateIndex spec)) w) as [[r|e] w']; reflexivity.
Qed.

Lemma issued_create_logged {X} (f : forall R, Call R -> option X)
    (spec : IndexSpec) (w : W) :
  issued f h (InitIndexes.create_logged spec) w
  = match f _ (Base (CreateIndex spec)) with Some x => [x] | None => [] end.
Proof.
  unfold InitIndexes.create_logged. cbn.
  destruct (h string (Base (CreateIndex spec)) w) as [[r|e] w'];
    destruct (f string (Base (CreateIndex spec))); reflexivity.
Qed.

(** X1. [initIndexes] of the script, the client once constructed: it
    closes the client exactly once on every path; when the connection
    is made it asks for the four indexes, in order, whatever each
    creation answers, and for none when the connection fails; and what
    it settles to is what [client.close()] settles to. *)
Theorem initIndexes_always_closes (w : W) :
  let t := InitIndexes.initIndexes (Returned tt) in
  issued (@is_close) h t w = [tt]
  /\ (fst (h _ (Base Connect) w) = Returned tt ->
      issued (@created_index) h t w = all_indexes)
  /\ (fst (h _ (Base Connect) w) <> Returned tt ->
      issued (@created_index) h t w = [])
  /\ exists w1, fst (perform h t w) = fst (h _ Close w1).
Proof.
  cbn zeta. split; [|split; [|split]].
  - unfold InitIndexes.initIndexes, InitIndexes.create_logged. cbn.
    step_driver h; reflexivity.
  - intros Hc. unfold InitIndexes.initIndexes, InitIndexes.create_logged. cbn.
    destruct (h unit (Base Connect) w) as [o w0]. cbn in Hc. subst o. cbn.
    step_driver h; reflexivity.
  - intros Hc. unfold InitIndexes.initIndexes, InitIndexes.create_logged. cbn.
    destruct (h unit (Base Connect) w) as [[[]|e] w0]; cbn in Hc |- *;
      [contradiction|].
    step_driver h; reflexivity.
  - unfold InitIndexes.initIndexes. cbn [ofOutcome andThen].
    rewrite perform_tryFinally, perform_tryCatch.
    match goal with |- context [perform h ?t w] =>
      destruct (perform h t w) as [[[]|e] w1] end; cbn [perform];
      exists w1; rewrite perform_call;
      destruct (h unit Close w1) as [[[]|e'] w2]; reflexivity.
Qed.


End IndexCalls.


(** ** Delete and update on the in-memory store *)

Section WriteLemmas.
Import Js Mongo MemStore Driver MemStoreX ProductService ProductServiceWrites.
Context {sem : Semantics}.

Lemma driver_Base (wrapped : bool) {R} (op : Op R) (w : World) :
  driver wrapped R (Base op) w = handler R op w.
Proof. reflexivity. Qed.

Lemma perform_lift_driver (wrapped : bool) {A} (p : Prog A) (w : World) :
  perform (driver wrapped) (lift p) w = run handler p w.
Proof. rewrite perform_lift. reflexivity. Qed.

Lemma perform_getCollection (wrapped : bool) (w : World) :
  online w = true ->
  perform (driver wrapped) getCollection w = (Returned tt, w).
Proof.
  intros Hon. unfold getCollection. rewrite perform_lift_driver.
  unfold ProductService.getCollection, MongoDb.getDatabase.
  now rewrite run_await, handler_Connect.
Qed.

Lemma driver_DeleteOne (wrapped : bool) (oid : string) (w : World) :
  online w = true ->
  driver wrapped _ (DeleteOne oid) w
  = match delete_first oid (docs w) with
    | Some ds => (Returned 1, with_docs w ds)
    | None => (Returned 0, w)
    end.
Proof. intros Hon. unfold driver. now rewrite Hon. Qed.

Lemma driver_FindOneAndUpdate (wrapped : bool) (oid : string) (set : Obj)
    (w : World) :
  online w = true ->
  driver wrapped _ (FindOneAndUpdate oid set) w
  = find_one_and_update wrapped oid set w.
Proof. intros Hon. unfold driver. now rewrite Hon. Qed.

Lemma driver_Find (wrapped : bool) (w : World) :
  online w = true -> driver wrapped _ Find w = (Returned (docs w), w).
Proof. intros Hon. unfold driver. now rewrite Hon. Qed.

Lemma delete_first_none (oid : string) (ds : list Obj) :
  existsb (has_id oid) ds = false -> delete_first oid ds = None.
Proof.
  induction ds as [|d ds IH]; cbn; [reflexivity|].
  destruct (has_id oid d); [discriminate|]. intros H. now rewrite IH.
Qed.

Lemma delete_first_split (oid : string) (before after : list Obj) (d : Obj) :
  existsb (has_id oid) before = false -> has_id oid d = true ->
  delete_first oid (before ++ d :: after)%list = Some (before ++ after)%list.
Proof.
  intros Hb Hd. induction before as [|b before IH]; cbn in *.
  - now rewrite Hd.
  - destruct (has_id oid b); [discriminate|]. now rewrite IH.
Qed.

Lemma update_first_none (oid : string) (set : Obj) (ds : list Obj) :
  existsb (has_id oid) ds = false -> update_first oid set ds = None.
Proof.
  induction ds as [|d ds IH]; cbn; [reflexivity|].
  destruct (has_id oid d); [discriminate|]. intros H. now rewrite IH.
Qed.

Lemma update_first_split (oid : string) (set : Obj)
    (before after : list Obj) (d : Obj) :
  existsb (has_id oid) before = false -> has_id oid d = true ->
  update_first oid set (before ++ d :: after)%list
  = Some (set ∪ d, (before ++ (set ∪ d) :: after)%list).
Proof.
  intros Hb Hd. induction before as [|b before IH]; cbn in *.
  - now rewrite Hd.
  - destruct (has_id oid b); [discriminate|]. now rewrite IH.
Qed.

Lemma existsb_app_false {A} (f : A -> bool) (l1 l2 : list A) :
  existsb f l1 = false -> existsb f l2 = false ->
  existsb f (l1 ++ l2)%list = false.
Proof. intros H1 H2. now rewrite existsb_app, H1, H2. Qed.

(** X3. [deleteProduct] on a stored record: it returns [true] and
    removes that record and no other; the ids being unique, a later
    [getProductById] of the id returns [null] and a second
    [deleteProduct] returns [false]. *)
Theorem deleteProduct_removes (wrapped : bool) (w : World) (id oid : string)
    (before after : list Obj) (d : Obj) :
  online w = true ->
  ObjectId_new id = Returned oid ->
  docs w = (before ++ d :: after)%list ->
  existsb (has_id oid) before = false ->
  has_id oid d = true ->
  existsb (has_id oid) after = false ->
  let w' := with_docs w (before ++ after)%list in
  perform (driver wrapped) (deleteProduct id) w = (Returned true, w')
  /\ run handler (getProductById id) w' = (Returned None, w')
  /\ perform (driver wrapped) (deleteProduct id) w' = (Returned false, w').
Proof.
  intros Hon Hoid Hdocs Hb Hd Ha w'.
  assert (Hon' : online w' = true) by exact Hon.
  assert (Hnone : existsb (has_id oid) (docs w') = false)
    by (apply existsb_app_false; assumption).
  split; [|split].
  - unfold deleteProduct. rewrite perform_andThen, perform_getCollection by exact Hon.
    rewrite Hoid. cbn [ofOutcome andThen].
    rewrite perform_andThen, perform_call, driver_DeleteOne by exact Hon.
    rewrite Hdocs, (delete_first_split oid before after d Hb Hd). reflexivity.
  - unfold getProductById, ProductService.getCollection, MongoDb.getDatabase.
    rewrite run_bind, run_await, (handler_Connect w' Hon').
    rewrite Hoid. cbn [of_outcome bind].
    rewrite run_bind, run_await, (handler_FindOne w' oid Hon').
    now rewrite (find_none_existsb _ _ Hnone).
  - unfold deleteProduct. rewrite perform_andThen, perform_getCollection by exact Hon'.
    rewrite Hoid. cbn [ofOutcome andThen].
    rewrite perform_andThen, perform_call, driver_DeleteOne by exact Hon'.
    rewrite (delete_first_none oid _ Hnone). reflexivity.
Qed.

(** X4. [deleteProduct] on an id no record carries returns [false] and
    leaves the store as it was; on an id that is not an identifier it
    throws what the [ObjectId] constructor throws, the store untouched
    and no deletion requested. *)
Theorem deleteProduct_missing (wrapped : bool) (w : World) (id : string) :
  online w = true ->
  (forall oid,
      ObjectId_new id = Returned oid ->
      existsb (has_id oid) (docs w) = false ->
      perform (driver wrapped) (deleteProduct id) w = (Returned false, w))
  /\ (forall e,
      ObjectId_new id = Threw e ->
      perform (driver wrapped) (deleteProduct id) w = (Threw e, w)
      /\ issued (fun R (c : Call R) =>
                   match c with DeleteOne o => Some o | _ => None end)
                (driver wrapped) (deleteProduct id) w = []).
Proof.
  intros Hon. split.
  - intros oid Hoid Hnone. unfold deleteProduct.
    rewrite perform_andThen, perform_getCollection by exact Hon.
    rewrite Hoid. cbn [ofOutcome andThen].
    rewrite perform_andThen, perform_call, driver_DeleteOne by exact Hon.
    rewrite (delete_first_none oid _ Hnone). reflexivity.
  - intros e He. unfold deleteProduct. split.
    + rewrite perform_andThen, perform_getCollection by exact Hon.
      rewrite He. reflexivity.
    + rewrite issued_andThen, perform_getCollection by exact Hon.
      rewrite He. cbn [ofOutcome andThen issued]. rewrite app_nil_r.
      unfold getCollection, ProductService.getCollection, MongoDb.getDatabase.
      cbn. destruct (handler unit Connect w) as [[[]|e'] w0]; reflexivity.
Qed.

Lemma find_split {A} (f : A -> bool) (before after : list A) (x : A) :
  existsb f before = false -> f x = true ->
  List.find f (before ++ x :: after)%list = Some x.
Proof.
  intros Hb Hx. induction before as [|b before IH]; cbn in *.
  - now rewrite Hx.
  - destruct (f b); [discriminate|]. now apply IH.
Qed.

Lemma has_id_lookup (oid : string) (d : Obj) :
  has_id oid d = true -> d !! "_id" = Some (VOid oid).
Proof.
  unfold has_id. destruct (d !! "_id") as [[]|]; try discriminate.
  intros H. apply String.eqb_eq in H. now subst.
Qed.

(** X5. [updateProduct] on a stored record, with either kind of driver
    answer: the record takes the fields given, [updatedAt] is the time
    of the call whatever the input had, the other fields are kept; the
    product returned is the one a later [getProductById] returns. *)
Theorem updateProduct_then_getProductById (wrapped : bool) (w : World)
    (id oid : string) (before after : list Obj) (d productData : Obj) :
  online w = true ->
  ObjectId_new id = Returned oid ->
  docs w = (before ++ d :: after)%list ->
  existsb (has_id oid) before = false ->
  has_id oid d = true ->
  productData !! "_id" = None ->
  (wrapped = false -> productData !! "value" = None /\ d !! "value" = None) ->
  let u := <["updatedAt" := VDate (clock w)]> productData ∪ d in
  let w' := with_docs w (before ++ u :: after)%list in
  let product := Spec.fetched_product oid u in
  perform (driver wrapped) (updateProduct id productData) w
  = (Returned (Some product), w')
  /\ run handler (getProductById id) w' = (Returned (Some product), w')
  /\ get product "id" = VStr oid
  /\ get product "updatedAt" = VDate (clock w)
  /\ (forall k, In k product_fields -> k <> "updatedAt" ->
        get product k
        = match productData !! k with Some v => v | None => get d k end).
Proof.
  intros Hon Hoid Hdocs Hb Hd Hpid Hval u w' product.
  assert (Hon' : online w' = true) by exact Hon.
  assert (Hset : (<["updatedAt" := VDate (clock w)]> productData) !! "_id" = None).
  { rewrite lookup_insert_ne by discriminate. exact Hpid. }
  assert (Huid : u !! "_id" = Some (VOid oid)).
  { unfold u. rewrite lookup_union_r by exact Hset. now apply has_id_lookup. }
  assert (Hhas : has_id oid u = true).
  { unfold has_id. rewrite Huid. apply String.eqb_refl. }
  assert (Hprod : to_product u = Returned product).
  { unfold to_product, get. rewrite Huid. reflexivity. }
  split; [|split; [|split; [|split]]].
  - unfold updateProduct.
    rewrite perform_andThen, perform_getCollection by exact Hon.
    rewrite Hoid. cbn [ofOutcome andThen].
    rewrite perform_andThen, perform_call, driver_Base, handler_NewDate.
    rewrite perform_andThen, perform_call, driver_FindOneAndUpdate by exact Hon.
    unfold find_one_and_update.
    rewrite Hdocs, (update_first_split oid _ before after d Hb Hd).
    unfold keeps_id. rewrite Hset. fold u. fold w'.
    destruct wrapped; cbn [update_result].
    + cbn [truthy negb]. cbn [product_of_result]. rewrite Hprod. reflexivity.
    + destruct (Hval eq_refl) as [Hv1 Hv2].
      assert (Hnv : get u "value" = VUndef).
      { unfold get, u. rewrite lookup_union_r.
        - now rewrite Hv2.
        - rewrite lookup_insert_ne by discriminate. exact Hv1. }
      rewrite Hnv. cbn [nullish truthy negb product_of_result].
      rewrite Hprod. reflexivity.
  - unfold getProductById, ProductService.getCollection, MongoDb.getDatabase.
    rewrite run_bind, run_await, (handler_Connect w' Hon').
    rewrite Hoid. cbn [of_outcome bind].
    rewrite run_bind, run_await, (handler_FindOne w' oid Hon').
    cbn [docs w' with_docs]. rewrite (find_split _ before after u Hb Hhas).
    rewrite Hprod. reflexivity.
  - unfold product, Spec.fetched_product. now rewrite get_with_fields.
  - unfold product, Spec.fetched_product. rewrite get_with_fields.
    replace (existsb (String.eqb "updatedAt") product_fields) with true by reflexivity.
    unfold get, u. erewrite lookup_union_Some_l; [reflexivity|].
    apply lookup_insert_eq.
  - intros k Hk Hne. unfold product, Spec.fetched_product.
    rewrite get_with_fields.
    replace (existsb (String.eqb k) product_fields) with true.
    2:{ symmetry. apply existsb_exists. exists k. split; [exact Hk|].
        apply String.eqb_refl. }
    unfold get, u. destruct (productData !! k) as [v|] eqn:Ek.
    + erewrite lookup_union_Some_l; [reflexivity|].
      rewrite lookup_insert_ne by congruence. exact Ek.
    + rewrite lookup_union_r; [reflexivity|].
      rewrite lookup_insert_ne by congruence. exact Ek.
Qed.

(** X6. [updateProduct] on an id no record carries: with a driver that
    answers [findOneAndUpdate] with the document or [null] it returns
    [null]; with a driver that answers with a [ModifyResult] wrapper it
    throws, the wrapper being taken for the record; the store is left as
    it was in both cases. *)
Theorem updateProduct_missing (w : World) (id oid : string) (productData : Obj) :
  online w = true ->
  ObjectId_new id = Returned oid ->
  existsb (has_id oid) (docs w) = false ->
  perform (driver false) (updateProduct id productData) w = (Returned None, w)
  /\ perform (driver true) (updateProduct id productData) w
     = (Threw (mkError "Cannot read properties of undefined (reading 'toString')" None), w).
Proof.
  intros Hon Hoid Hnone. split.
  - unfold updateProduct.
    rewrite perform_andThen, perform_getCollection by exact Hon.
    rewrite Hoid. cbn [ofOutcome andThen].
    rewrite perform_andThen, perform_call, driver_Base, handler_NewDate.
    rewrite perform_andThen, perform_call, driver_FindOneAndUpdate by exact Hon.
    unfold find_one_and_update. rewrite (update_first_none oid _ _ Hnone).
    reflexivity.
  - unfold updateProduct.
    rewrite perform_andThen, perform_getCollection by exact Hon.
    rewrite Hoid. cbn [ofOutcome andThen].
    rewrite perform_andThen, perform_call, driver_Base, handler_NewDate.
    rewrite perform_andThen, perform_call, driver_FindOneAndUpdate by exact Hon.
    unfold find_one_and_update. rewrite (update_first_none oid _ _ Hnone).
    reflexivity.
Qed.

End WriteLemmas.


(** ** The shape of the products returned *)

Section Shape.
Import Js Mongo MemStore Driver MemStoreX ProductService ProductServiceWrites Spec.

Lemma dom_with_fields (src : Obj) (ks : list string) (o : Obj) :
  dom (with_fields src ks o) = dom o ∪ list_to_set ks.
Proof.
  unfold with_fields. revert o. induction ks as [|k ks IH]; intros o; cbn.
  - now rewrite union_empty_r_L.
  - rewrite IH, dom_insert_L.
    now rewrite (union_comm_L {[k]} (dom o)), <- union_assoc_L.
Qed.

Lemma to_product_shape (d p : Obj) :
  to_product d = Returned p ->
  normalized p
  /\ exists h, d !! "_id" = Some (VOid h) /\ p = fetched_product h d.
Proof.
  unfold to_product, get.
  destruct (d !! "_id") as [[]|] eqn:E; cbn [default from_option]; unfold id;
    try (intros HH; discriminate HH).
  intros HH.
  assert (Hp : p = with_fields d product_fields {[ "id" := VStr hex ]})
    by congruence.
  subst p. clear HH. split; [|eauto].
  unfold normalized. split; [|split].
  - rewrite dom_with_fields, dom_singleton_L. reflexivity.
  - apply not_elem_of_dom. rewrite dom_with_fields, dom_singleton_L.
    intros Hin. apply elem_of_union in Hin as [Hin|Hin].
    + apply elem_of_singleton in Hin. discriminate.
    + apply elem_of_list_to_set, list_elem_of_In in Hin. cbn in Hin.
      repeat (destruct Hin as [Hin|Hin]; [discriminate|]). exact Hin.
  - eexists. rewrite get_with_fields. reflexivity.
Qed.

Lemma to_products_shape (ds ps : list Obj) :
  to_products ds = Returned ps ->
  Forall2 (fun d p => to_product d = Returned p) ds ps.
Proof.
  revert ps. induction ds as [|d ds IH]; intros ps; cbn.
  - intros [= <-]. constructor.
  - destruct (to_product d) as [p|e] eqn:Ep; [|discriminate].
    destruct (to_products ds) as [ps'|e]; [|discriminate].
    intros [= <-]. constructor; [exact Ep | now apply IH].
Qed.

(** X7. Whatever the driver answers, a product returned by
    [getProductById], by [getAllProducts] or by [updateProduct] has the
    same 28 properties ([id] and the 27 copied ones, an absent one being
    present as [undefined]), [id] is a string, and [_id] is not among
    them. *)
Theorem returned_products_are_normalized :
  (forall W (h : Handler W) (w w' : W) (id : string) (p : Obj),
      run h (getProductById id) w = (Returned (Some p), w') -> normalized p)
  /\ (forall W (h : Driver W) (w w' : W) (ps : list Obj),
      perform h getAllProducts w = (Returned ps, w') -> Forall normalized ps)
  /\ (forall W (h : Driver W) (w w' : W) (id : string) (productData p : Obj),
      perform h (updateProduct id productData) w = (Returned (Some p), w') ->
      normalized p).
Proof.
  split; [|split].
  - intros W h w w' id p. unfold getProductById.
    rewrite run_bind. destruct (run h ProductService.getCollection w) as [[[]|e] w1];
      [|discriminate].
    destruct (ObjectId_new id) as [oid|e]; [|discriminate]. cbn [of_outcome bind].
    rewrite run_bind, run_await. destruct (h _ (FindOne oid) w1) as [[[d|]|e] w2];
      try discriminate.
    destruct (to_product d) as [p'|e] eqn:Ep; [|discriminate].
    cbn. intros [= <- <-]. now apply to_product_shape in Ep.
  - intros W h w w' ps. unfold getAllProducts.
    rewrite perform_andThen. destruct (perform h getCollection w) as [[[]|e] w1];
      [|discriminate].
    rewrite perform_andThen, perform_call.
    destruct (h _ Find w1) as [[ds|e] w2]; [|discriminate].
    rewrite perform_ofOutcome. intros [= Hps <-].
    apply to_products_shape in Hps.
    induction Hps as [|d p ds ps Hp _ IH]; constructor; [|exact IH].
    now apply to_product_shape in Hp.
  - intros W h w w' id productData p. unfold updateProduct.
    rewrite perform_andThen. destruct (perform h getCollection w) as [[[]|e] w1];
      [|discriminate].
    destruct (ObjectId_new id) as [oid|e]; [|discriminate]. cbn [ofOutcome andThen].
    rewrite perform_andThen, perform_call.
    destruct (h _ (Base NewDate) w1) as [[t|e] w2]; [|discriminate].
    rewrite perform_andThen, perform_call.
    destruct (h _ (FindOneAndUpdate oid _) w2) as [[res|e] w3]; [|discriminate].
    destruct (truthy (update_result res)); cbn [negb]; [|discriminate].
    rewrite perform_andThen, perform_ofOutcome.
    destruct (product_of_result (update_result res)) as [p'|e] eqn:Ep; [|discriminate].
    cbn. intros [= <- <-].
    unfold product_of_result in Ep. destruct (update_result res); try discriminate.
    now apply to_product_shape in Ep.
Qed.

Context {sem : Semantics}.

(** X8. [getAllProducts] on the in-memory store returns one product per
    stored record, in the order of the collection, each the product
    [getProductById] makes of that record; an empty collection gives the
    empty list. *)
Theorem getAllProducts_all (wrapped : bool) (w : World) :
  online w = true ->
  Forall (fun d => exists h, d !! "_id" = Some (VOid h)) (docs w) ->
  exists ps,
    perform (driver wrapped) getAllProducts w = (Returned ps, w)
    /\ length ps = length (docs w)
    /\ Forall2 (fun d p => to_product d = Returned p) (docs w) ps
    /\ (docs w = [] -> ps = []).
Proof.
  intros Hon Hids.
  assert (Hps : exists ps, to_products (docs w) = Returned ps).
  { induction Hids as [|d ds (h & Hd) _ (ps & IH)]; cbn; [eauto|].
    unfold to_product, get. rewrite Hd. cbn. rewrite IH. eauto. }
  destruct Hps as (ps & Hps). exists ps.
  pose proof (to_products_shape _ _ Hps) as HF.
  split; [|split; [|split]].
  - unfold getAllProducts.
    rewrite perform_andThen, perform_getCollection by exact Hon.
    rewrite perform_andThen, perform_call, driver_Find by exact Hon.
    now rewrite perform_ofOutcome, Hps.
  - symmetry. eapply Forall2_length. exact HF.
  - exact HF.
  - intros E. rewrite E in HF. now inversion HF.
Qed.

End Shape.


(** ** Pages: what they hold, their order, and how they add up *)

Section PageLemmas.
Import Js Mongo MemStore ProductService Spec.

Lemma NoDup_fst_filter {A B} (P : A * B -> bool) (l : list (A * B)) :
  NoDup (l.*1) -> NoDup ((List.filter P l).*1).
Proof.
  induction l as [|x l IH]; cbn; [intros; constructor|].
  intros Hnd. apply NoDup_cons in Hnd as [Hx Hnd].
  destruct (P x); cbn; [|now apply IH].
  apply NoDup_cons. split; [|now apply IH].
  intros Hin. apply Hx.
  apply list_elem_of_fmap in Hin as (y & -> & Hy).
  apply list_elem_of_fmap. exists y. split; [reflexivity|].
  apply list_elem_of_In in Hy. apply filter_In in Hy as [Hy _].
  now apply list_elem_of_In.
Qed.

(** What the [$project] stage keeps of a document. *)
Lemma lookup_project (excluded included : list string) (d : Obj) (k : string) :
  project excluded included d !! k
  = if (existsb (String.eqb k) included && negb (existsb (String.eqb k) excluded))%bool
    then d !! k else None.
Proof.
  unfold project.
  set (P := fun kv : string * JsVal =>
              (existsb (String.eqb kv.1) included
               && negb (existsb (String.eqb kv.1) excluded))%bool).
  assert (Hnd : NoDup ((List.filter P (map_to_list d)).*1))
    by (apply NoDup_fst_filter, NoDup_fst_map_to_list).
  apply option_eq. intros v.
  rewrite <- (elem_of_list_to_map _ _ _ Hnd).
  rewrite list_elem_of_In, filter_In, <- list_elem_of_In, elem_of_map_to_list.
  unfold P. cbn.
  destruct (existsb (String.eqb k) included && negb (existsb (String.eqb k) excluded))%bool;
    intuition congruence.
Qed.

Lemma In_insert_sorted (le : Obj -> Obj -> bool) (x y : Obj) (l : list Obj) :
  In y (insert_sorted le x l) <-> y = x \/ In y l.
Proof.
  induction l as [|z l IH]; cbn; [intuition|].
  destruct (le x z); cbn; [intuition|]. rewrite IH. intuition.
Qed.

Lemma In_sort_by (le : Obj -> Obj -> bool) (y : Obj) (l : list Obj) :
  In y (sort_by le l) <-> In y l.
Proof.
  induction l as [|x l IH]; cbn; [reflexivity|].
  rewrite In_insert_sorted, IH. intuition.
Qed.

Lemma In_firstn {A} (n : nat) (l : list A) (x : A) :
  In x (firstn n l) -> In x l.
Proof.
  revert l. induction n as [|n IH]; intros [|y l]; cbn; try tauto.
  intros [->|H]; [now left | right; now apply IH].
Qed.

Lemma In_skipn {A} (n : nat) (l : list A) (x : A) :
  In x (skipn n l) -> In x l.
Proof.
  revert l. induction n as [|n IH]; intros [|y l]; cbn; try tauto.
  intros H. right. now apply IH.
Qed.

(** The documents of a page come from matching stored documents. *)
Lemma page_of_from (p l : Z) (matched : list Obj) (q : Obj) :
  In q (page_of p l matched) ->
  exists d, In d matched
    /\ q = project ["_id"] projected_fields (toString_field "id" "_id" d).
Proof.
  unfold page_of. intros Hq.
  apply in_map_iff in Hq as (d1 & <- & Hd1).
  apply in_map_iff in Hd1 as (d & <- & Hd).
  exists d. split; [|reflexivity].
  apply In_firstn, In_skipn in Hd. unfold newest_first in Hd.
  now apply In_sort_by in Hd.
Qed.

Lemma toString_field_other (target source : string) (d : Obj) (k : string) :
  k <> target -> toString_field target source d !! k = d !! k.
Proof.
  intros Hk. unfold toString_field.
  destruct (d !! source) as [[]|]; now rewrite lookup_insert_ne by congruence.
Qed.

Lemma projected_lookup (d : Obj) (k : string) :
  In k product_fields ->
  project ["_id"] projected_fields (toString_field "id" "_id" d) !! k = d !! k.
Proof.
  intros Hk. rewrite lookup_project.
  assert (Hne : k <> "id" /\ k <> "_id").
  { assert (Hno : existsb (String.eqb "_id") product_fields = false
                  /\ existsb (String.eqb "id") product_fields = false)
      by (split; reflexivity).
    split; intros ->.
    - enough (existsb (String.eqb "id") product_fields = true)
        by (destruct Hno; congruence).
      apply existsb_exists. exists "id". split; [exact Hk | reflexivity].
    - enough (existsb (String.eqb "_id") product_fields = true)
        by (destruct Hno; congruence).
      apply existsb_exists. exists "_id". split; [exact Hk | reflexivity]. }
  replace (existsb (String.eqb k) projected_fields) with true.
  2:{ symmetry. apply existsb_exists. exists k. split; [now right|].
      apply String.eqb_refl. }
  replace (existsb (String.eqb k) ["_id"]) with false.
  2:{ symmetry. cbn. rewrite orb_false_r. apply String.eqb_neq. tauto. }
  cbn [andb negb]. apply toString_field_other. tauto.
Qed.

End PageLemmas.

Section PageProperties.
Import Js Mongo MemStore ProductService Spec.
Context {sem : Semantics}.

(** X9. Each document of a page returned by [getProductsPaginated] is
    the projection of a stored document that matches: it has no [_id],
    its [id] is the string of the stored [_id], a listed property is
    there exactly when the stored document has it (an absent one is
    omitted, not [undefined]), and nothing else is there. *)
Theorem paginated_documents_projected (w : World) (p l : Z)
    (search categoryId : option string) (mc : MatchConditions) (f : Obj -> bool) :
  online w = true ->
  1 <= p -> 1 <= l ->
  let params := mkParams (num p) (num l) search categoryId in
  run handler (buildMatchConditions params) w = (Returned mc, w) ->
  compile_match (indexes w) mc = Returned f ->
  exists r,
    run handler (getProductsPaginated params) w = (Returned r, w)
    /\ Forall (fun q =>
         exists d, In d (docs w) /\ f d = true
           /\ q !! "_id" = None
           /\ (forall h, d !! "_id" = Some (VOid h) -> q !! "id" = Some (VStr h))
           /\ (forall k, In k product_fields -> q !! k = d !! k)
           /\ (forall k, is_Some (q !! k) -> In k projected_fields))
       (data r).
Proof.
  intros Hon Hp Hl params Hmc Hf.
  eexists. split.
  { apply (run_getProductsPaginated handler w p l search categoryId mc f
             handler_store_like Hon Hp Hl Hmc Hf). }
  cbn [data]. apply Forall_forall. intros q Hq. apply list_elem_of_In in Hq.
  apply page_of_from in Hq as (d & Hd & ->).
  apply filter_In in Hd as [Hd Hfd].
  exists d. split; [exact Hd|]. split; [exact Hfd|].
  split; [|split; [|split]].
  - rewrite lookup_project. reflexivity.
  - intros h Hh. rewrite lookup_project. cbn [existsb projected_fields].
    rewrite String.eqb_refl. cbn.
    unfold toString_field. rewrite Hh. apply lookup_insert_eq.
  - intros k Hk. now apply projected_lookup.
  - intros k [v Hv]. rewrite lookup_project in Hv.
    destruct (existsb (String.eqb k) projected_fields) eqn:E; [|discriminate].
    apply existsb_exists in E as (k' & Hk' & E).
    apply String.eqb_eq in E. now subst.
Qed.

Lemma key_le_total (a b : option Z) : key_le a b = false -> key_le b a = true.
Proof.
  destruct a, b; cbn; try discriminate; try reflexivity.
  intros H. apply Z.leb_gt in H. apply Z.leb_le. lia.
Qed.

Lemma key_le_trans (a b c : option Z) :
  key_le a b = true -> key_le b c = true -> key_le a c = true.
Proof.
  destruct a, b, c; cbn; try discriminate; try reflexivity.
  intros H1 H2. apply Z.leb_le in H1, H2. apply Z.leb_le. lia.
Qed.

Lemma newest_first_sorted (l : list Obj) :
  StronglySorted not_older (newest_first l).
Proof.
  unfold newest_first.
  set (le := fun a b : Obj => key_le (date_key b "createdAt") (date_key a "createdAt")).
  assert (Hins : forall x l0, StronglySorted not_older l0 ->
                   StronglySorted not_older (insert_sorted le x l0)).
  { intros x l0 Hs. induction Hs as [|y l0 Hs IH Hy]; cbn.
    - constructor; constructor.
    - destruct (le x y) eqn:E.
      + constructor; [now constructor|]. constructor; [exact E|].
        eapply List.Forall_impl; [|exact Hy]. intros z Hz. unfold not_older in *.
        eapply key_le_trans; [exact Hz | exact E].
      + constructor; [exact IH|]. apply List.Forall_forall. intros z Hz.
        apply In_insert_sorted in Hz as [->|Hz].
        * unfold not_older. apply key_le_total. exact E.
        * eapply List.Forall_forall in Hy; eassumption. }
  induction l as [|x l IH]; cbn; [constructor | now apply Hins].
Qed.

Lemma StronglySorted_skipn {A} (R : A -> A -> Prop) (n : nat) (l : list A) :
  StronglySorted R l -> StronglySorted R (skipn n l).
Proof.
  revert l. induction n as [|n IH]; intros l Hs; [exact Hs|].
  destruct Hs; cbn; [constructor | now apply IH].
Qed.

Lemma StronglySorted_firstn {A} (R : A -> A -> Prop) (n : nat) (l : list A) :
  StronglySorted R l -> StronglySorted R (firstn n l).
Proof.
  revert l. induction n as [|n IH]; intros l Hs; [constructor|].
  destruct Hs as [|x l Hs Hx]; cbn; [constructor|].
  constructor; [now apply IH|].
  apply List.Forall_forall. intros y Hy. apply In_firstn in Hy.
  eapply List.Forall_forall in Hx; eassumption.
Qed.

Lemma StronglySorted_map {A B} (R : A -> A -> Prop) (S : B -> B -> Prop)
    (g : A -> B) (l : list A) :
  (forall a b, R a b -> S (g a) (g b)) ->
  StronglySorted R l -> StronglySorted S (List.map g l).
Proof.
  intros Hg Hs. induction Hs as [|x l Hs IH Hx]; cbn; constructor; [exact IH|].
  apply List.Forall_forall. intros y Hy. apply in_map_iff in Hy as (a & <- & Ha).
  apply Hg. eapply List.Forall_forall in Hx; eassumption.
Qed.

Lemma projected_date (d : Obj) :
  date_key (project ["_id"] projected_fields (toString_field "id" "_id" d)) "createdAt"
  = date_key d "createdAt".
Proof.
  unfold date_key. rewrite projected_lookup; [reflexivity|].
  unfold product_fields. cbn. tauto.
Qed.

Lemma page_of_sorted (p l : Z) (matched : list Obj) :
  StronglySorted not_older (page_of p l matched).
Proof.
  unfold page_of. rewrite List.map_map.
  eapply StronglySorted_map;
    [|apply StronglySorted_firstn, StronglySorted_skipn, newest_first_sorted].
  intros a b Hab. unfold not_older in *. now rewrite !projected_date.
Qed.

(** X10. The documents of a page are ordered newest first: each one is
    created no earlier than every document after it on the page. *)
Theorem paginated_newest_first (w : World) (p l : Z)
    (search categoryId : option string) (mc : MatchConditions) (f : Obj -> bool) :
  online w = true ->
  1 <= p -> 1 <= l ->
  let params := mkParams (num p) (num l) search categoryId in
  run handler (buildMatchConditions params) w = (Returned mc, w) ->
  compile_match (indexes w) mc = Returned f ->
  exists r,
    run handler (getProductsPaginated params) w = (Returned r, w)
    /\ StronglySorted not_older (data r)
    /\ (forall i j a b, (i < j)%nat ->
          data r !! i = Some a -> data r !! j = Some b -> not_older a b).
Proof.
  intros Hon Hp Hl params Hmc Hf.
  eexists. split.
  { apply (run_getProductsPaginated handler w p l search categoryId mc f
             handler_store_like Hon Hp Hl Hmc Hf). }
  cbn [data]. pose proof (page_of_sorted p l (List.filter f (docs w))) as Hs.
  split; [exact Hs|].
  generalize dependent (page_of p l (List.filter f (docs w))).
  intros l0 Hs. induction Hs as [|x l0 Hs IH Hx]; intros i j a b Hij Hi Hj.
  - destruct i; discriminate.
  - destruct j as [|j]; [lia|]. cbn in Hj. destruct i as [|i]; cbn in Hi.
    + injection Hi as <-. eapply List.Forall_forall in Hx; [exact Hx|].
      apply list_elem_of_In. eapply list_elem_of_lookup_2. exact Hj.
    + apply (IH i j); [lia | exact Hi | exact Hj].
Qed.

Lemma pages_concat {A} (n L : nat) (xs : list A) :
  (0 < L)%nat -> (length xs <= n * L)%nat ->
  concat (List.map (fun i => firstn L (skipn (i * L) xs)) (seq 0 n)) = xs.
Proof.
  intros HL. revert xs. induction n as [|n IH]; intros xs Hlen.
  - destruct xs; [reflexivity | cbn in Hlen; lia].
  - cbn [seq List.map concat]. rewrite <- seq_shift, List.map_map.
    change (0 * L)%nat with 0%nat. cbn [skipn].
    transitivity (firstn L xs ++ skipn L xs)%list; [|apply firstn_skipn].
    f_equal.
    etransitivity; [|apply (IH (skipn L xs)); rewrite length_skipn; lia].
    f_equal. apply List.map_ext. intros i.
    rewrite skipn_skipn. do 2 f_equal. lia.
Qed.

(** X11. The pages add up: for a given filter and limit, every page from
    1 on is returned, the pages 1 to [totalPages], one after the other,
    hold every matching document exactly once, in the order newest
    first, and every later page is empty. *)
Theorem pages_partition (w : World) (l : Z)
    (search categoryId : option string) (mc : MatchConditions) (f : Obj -> bool) :
  online w = true ->
  1 <= l ->
  (forall p, run handler (buildMatchConditions (mkParams (num p) (num l) search categoryId)) w
             = (Returned mc, w)) ->
  compile_match (indexes w) mc = Returned f ->
  let matched := List.filter f (docs w) in
  let totalPages := ceil_div (Z.of_nat (length matched)) l in
  (forall p, 1 <= p ->
     exists r,
       run handler (getProductsPaginated (mkParams (num p) (num l) search categoryId)) w
       = (Returned r, w)
       /\ data r = page_of p l matched
       /\ pg_totalPages (pagination r) = num totalPages)
  /\ concat (List.map (fun i => page_of (Z.of_nat i) l matched)
               (seq 1 (Z.to_nat totalPages)))
     = projected_all matched
  /\ (forall p, totalPages < p -> page_of p l matched = []).
Proof.
  intros Hon Hl Hmc Hf matched totalPages.
  pose proof (ceil_div_bounds (Z.of_nat (length matched)) l ltac:(lia)) as Hb.
  fold totalPages in Hb.
  assert (Hlen : length (newest_first matched) = length matched)
    by apply length_sort_by.
  split; [|split].
  - intros p Hp. eexists. split.
    { apply (run_getProductsPaginated handler w p l search categoryId mc f
               handler_store_like Hon Hp Hl (Hmc p) Hf). }
    split; [reflexivity|]. cbn [pagination pg_totalPages].
    apply Math_ceil_div_num. lia.
  - unfold projected_all, page_of.
    transitivity
      (List.map (project ["_id"] projected_fields)
         (List.map (toString_field "id" "_id")
            (concat (List.map (fun i => firstn (Z.to_nat l)
                                          (skipn (i * Z.to_nat l) (newest_first matched)))
                              (seq 0 (Z.to_nat totalPages)))))).
    2:{ rewrite pages_concat; [reflexivity | lia | rewrite Hlen; nia]. }
    rewrite <- seq_shift, List.map_map.
    rewrite !concat_map, !List.map_map. f_equal.
    apply List.map_ext. intros i. do 4 f_equal. nia.
  - intros p Hp. unfold page_of.
    rewrite skipn_all2; [now rewrite firstn_nil|]. rewrite Hlen. nia.
Qed.

(** X12. [hasNext] is true exactly when matching documents remain after
    the page, in which case the page is full; [hasPrev] is true exactly
    when the page is not the first; a page beyond the last is empty. *)
Theorem hasNext_means_more (w : World) (p l : Z)
    (search categoryId : option string) (mc : MatchConditions) (f : Obj -> bool) :
  online w = true ->
  1 <= p -> 1 <= l ->
  let params := mkParams (num p) (num l) search categoryId in
  run handler (buildMatchConditions params) w = (Returned mc, w) ->
  compile_match (indexes w) mc = Returned f ->
  let total := Z.of_nat (length (List.filter f (docs w))) in
  exists r,
    run handler (getProductsPaginated params) w = (Returned r, w)
    /\ (pg_hasNext (pagination r) = true <-> p * l < total)
    /\ (pg_hasNext (pagination r) = true -> Z.of_nat (length (data r)) = l)
    /\ (pg_hasPrev (pagination r) = true <-> 1 < p)
    /\ (total <= (p - 1) * l -> data r = []).
Proof.
  intros Hon Hp Hl params Hmc Hf total.
  pose proof (ceil_div_bounds total l ltac:(lia)) as Hb.
  assert (Hnext : Z.ltb p (ceil_div total l) = true <-> p * l < total).
  { rewrite Z.ltb_lt. split; intros H; nia. }
  eexists. split.
  { apply (run_getProductsPaginated handler w p l search categoryId mc f
             handler_store_like Hon Hp Hl Hmc Hf). }
  cbn [pagination pg_hasNext pg_hasPrev data]. fold total.
  rewrite Math_ceil_div_num by lia. rewrite lt_num, gt_num.
  split; [exact Hnext|]. split; [|split].
  - intros H. apply Hnext in H. unfold page_of.
    rewrite !length_map, length_firstn, length_skipn.
    unfold newest_first. rewrite length_sort_by. unfold total in H. nia.
  - apply Z.ltb_lt.
  - intros H. unfold page_of. rewrite skipn_all2; [now rewrite firstn_nil|].
    unfold newest_first. rewrite length_sort_by. unfold total in H. nia.
Qed.

End PageProperties.


(** ** The route handlers never throw *)

Section RouteTotality.
Import Js Mongo Driver ProductService.

(** X13. [GET /api/products] always resolves to a response, whatever the
    driver does: status 200 with the result of the service exactly when
    the parameters pass the three tests and the service returned, status
    500 otherwise, the message of a thrown error being reported as
    [details]. *)
Theorem GET_always_responds {W} (h : Handler W) (w : W) (request : Route.Request) :
  let page := parseInt (or_str (Route.q_page request) "1") in
  let limit := parseInt (or_str (Route.q_limit request) "10") in
  let params :=
    mkParams page limit (Some (or_str (Route.q_search request) ""))
             (Some (or_str (Route.q_categoryId request) "")) in
  let rejected := (lt page (num 1) || lt limit (num 1) || gt limit (num 1000))%bool in
  exists resp w',
    run h (Route.GET request) w = (Returned resp, w')
    /\ (Route.status resp = 200 \/ Route.status resp = 500)
    /\ (Route.status resp = 200 <->
        rejected = false
        /\ exists r, run h (getProductsPaginated params) w = (Returned r, w')
                     /\ Route.body resp = Route.ResultBody r)
    /\ (forall e w1,
          rejected = false ->
          run h (getProductsPaginated params) w = (Threw e, w1) ->
          resp = Route.mkResponse 500
                   (Route.ErrorBody "Failed to fetch products" (Some (err_message e)))).
Proof.
  intros page limit params rejected.
  unfold Route.GET. fold page. fold limit. fold rejected. fold params.
  rewrite run_try_catch.
  destruct rejected eqn:Erej.
  - cbn [run]. do 2 eexists. split; [reflexivity|]. cbn.
    split; [now right|]. split; [|discriminate].
    split; [discriminate | intros [H _]; discriminate].
  - rewrite run_bind.
    destruct (run h (getProductsPaginated params) w) as [[r|e] w1] eqn:Erun; cbn [run].
    + do 2 eexists. split; [reflexivity|]. cbn.
      split; [now left|]. split; [|discriminate].
      split; [intros _; split; [reflexivity|]; eauto | reflexivity].
    + do 2 eexists. split; [reflexivity|]. cbn.
      split; [now right|]. split.
      * split; [discriminate|]. intros (_ & r & Hr & _). discriminate.
      * intros e' w2 _ [= <- <-]. reflexivity.
Qed.

(** X14. [POST /api/products] always resolves to a response: status 201
    with the product [createProduct] returned when the body parsed and
    the service returned, status 500 with "Failed to create product"
    in every other case. *)
Theorem POST_always_responds {W} (h : Handler W) (w : W) (json : Outcome Obj) :
  exists resp w',
    run h (RouteWrites.POST json) w = (Returned resp, w')
    /\ (forall body product w1,
          json = Returned body ->
          run h (createProduct body) w = (Returned product, w1) ->
          resp = RouteWrites.mkResponse 201 (RouteWrites.ProductBody product)
          /\ w' = w1)
    /\ ((forall body, json = Returned body ->
           forall product, fst (run h (createProduct body) w) <> Returned product) ->
        resp = RouteWrites.mkResponse 500
                 (RouteWrites.ErrorBody "Failed to create product")).
Proof.
  unfold RouteWrites.POST. rewrite run_try_catch, run_bind, run_of_outcome.
  destruct json as [body|e]; cbn [run].
  - rewrite run_bind.
    destruct (run h (createProduct body) w) as [[product|e] w1] eqn:Erun; cbn [run].
    + do 2 eexists. split; [reflexivity|]. split.
      * intros b p w2 [= <-]. rewrite Erun. intros [= <- <-]. now split.
      * intros H. exfalso. apply (H body eq_refl product). now rewrite Erun.
    + do 2 eexists. split; [reflexivity|]. split.
      * intros b p w2 [= <-]. rewrite Erun. discriminate.
      * reflexivity.
  - do 2 eexists. split; [reflexivity|]. split; [discriminate | reflexivity].
Qed.


End RouteTotality.


(** ** From the thunk to the route: printing and reading the page numbers *)

Section PrintParse.
Import Js ClientSpec.

Lemma parse_digits_some (d : Decimal.uint) (a : Z) :
  parse_digits 10 (NilEmpty.string_of_uint d) (Some a) = Some (value_of d a).
Proof.
  revert a. induction d; intros a; cbn [NilEmpty.string_of_uint value_of];
    [reflexivity|..]; apply IHd.
Qed.

Lemma parse_digits_none (d : Decimal.uint) :
  d <> Decimal.Nil ->
  parse_digits 10 (NilEmpty.string_of_uint d) None = Some (value_of d 0).
Proof.
  destruct d; intros Hd; [congruence|..];
    cbn [NilEmpty.string_of_uint value_of]; apply parse_digits_some.
Qed.

Lemma value_of_lu (d d' : Decimal.uint) :
  value_of d (Z.of_N (Unsigned.of_lu d'))
  = Z.of_N (Unsigned.of_lu (Decimal.revapp d d')).
Proof.
  revert d'. induction d; intros d'; cbn [value_of Decimal.revapp];
    [reflexivity|..]; rewrite <- IHd; f_equal; cbn [Unsigned.of_lu]; lia.
Qed.

Lemma value_of_uint (d : Decimal.uint) :
  value_of d 0 = Z.of_N (Pos.of_uint d).
Proof.
  rewrite Unsigned.of_uint_alt. apply (value_of_lu d Decimal.Nil).
Qed.

(** A printed digit sequence starts with neither white space, a sign nor
    a hexadecimal prefix. *)
Lemma digits_unprefixed (d : Decimal.uint) :
  let s := NilEmpty.string_of_uint d in
  trimStart s = s /\ strip_sign s = (false, s) /\ strip_hex_prefix s = (10, s).
Proof.
  destruct d as [|d|d|d|d|d|d|d|d|d|d]; cbn; try (repeat split; reflexivity);
    destruct d; repeat split; reflexivity.
Qed.

Lemma parseInt_digits (d : Decimal.uint) :
  d <> Decimal.Nil ->
  parseInt (NilEmpty.string_of_uint d) = num (Z.of_N (Pos.of_uint d)).
Proof.
  intros Hd. unfold parseInt.
  destruct (digits_unprefixed d) as (-> & -> & ->).
  now rewrite parse_digits_none, value_of_uint.
Qed.

Lemma parseInt_minus_digits (d : Decimal.uint) :
  d <> Decimal.Nil ->
  parseInt (String "-" (NilEmpty.string_of_uint d))
  = num (- Z.of_N (Pos.of_uint d)).
Proof.
  intros Hd. unfold parseInt.
  change (trimStart (String "-" ?s)) with (String "-" s).
  change (strip_sign (String "-" ?s)) with (true, s).
  destruct (digits_unprefixed d) as (_ & _ & ->).
  now rewrite parse_digits_none, value_of_uint.
Qed.

Lemma string_of_uint_nonnil (d : Decimal.uint) :
  d <> Decimal.Nil -> NilZero.string_of_uint d = NilEmpty.string_of_uint d.
Proof. destruct d; [congruence|reflexivity..]. Qed.

(** [parseInt] reads back the decimal print of an integer. *)
Lemma parseInt_string_of_Z (z : Z) :
  parseInt (ProductFormDialog.string_of_Z z) = num z.
Proof.
  unfold ProductFormDialog.string_of_Z. destruct z as [|p|p]; [reflexivity|..];
    cbn [Z.to_int NilZero.string_of_int].
  - rewrite string_of_uint_nonnil by apply Unsigned.to_uint_nonnil.
    rewrite parseInt_digits by apply Unsigned.to_uint_nonnil.
    now rewrite Unsigned.of_to.
  - rewrite string_of_uint_nonnil by apply Unsigned.to_uint_nonnil.
    rewrite parseInt_minus_digits by apply Unsigned.to_uint_nonnil.
    now rewrite Unsigned.of_to.
Qed.

End PrintParse.

(** ** The paginated thunk, the route and the service *)

Section ThunkRoute.
Import Js Mongo ProductService ProductsSliceWrites.
Context {W : Type} (h : Handler W).
Variable toString : Number -> string.

(** The service does not tell an absent search or category from an
    empty one. *)
Lemma getProductsPaginated_defaults (p l : Number) (s c : option string) :
  getProductsPaginated (mkParams p l (Some (default "" s)) (Some (default "" c)))
  = getProductsPaginated (mkParams p l s c).
Proof.
  unfold getProductsPaginated, buildMatchConditions, category_filter.
  cbn [page limit search categoryId].
  destruct s as [s|], c as [c|]; reflexivity.
Qed.

Lemma or_str_query (s : option string) :
  or_str (match s with
          | Some s => if String.eqb s "" then None else Some s
          | None => None
          end) "" = default "" s.
Proof.
  destruct s as [s|]; [|reflexivity]. cbn.
  destruct (String.eqb_spec s ""); [now subst|].
  cbn. destruct (String.eqb_spec s ""); congruence.
Qed.

Lemma string_of_Z_nonempty (z : Z) :
  String.eqb (ProductFormDialog.string_of_Z z) "" = false.
Proof.
  unfold ProductFormDialog.string_of_Z.
  destruct z as [|p|p]; [reflexivity|..]; cbn [Z.to_int NilZero.string_of_int].
  - generalize (Unsigned.to_uint_nonnil p). now destruct (Pos.to_uint p).
  - reflexivity.
Qed.

Lemma or_str_printed (z : Z) (fallback : string) :
  parseInt (or_str (Some (ProductFormDialog.string_of_Z z)) fallback) = num z.
Proof.
  unfold or_str. rewrite string_of_Z_nonempty. apply parseInt_string_of_Z.
Qed.

(** The route, on the query of the thunk, is the service on the
    parameters of the thunk. *)
Lemma GET_query_of (p l : Z) (s c : option string) :
  toString (num p) = ProductFormDialog.string_of_Z p ->
  toString (num l) = ProductFormDialog.string_of_Z l ->
  1 <= p -> 1 <= l <= 1000 ->
  Route.GET (query_of toString (mkParams (num p) (num l) s c))
  = try_catch
      (bind (getProductsPaginated (mkParams (num p) (num l) s c))
            (fun result => Ret (Route.mkResponse 200 (Route.ResultBody result))))
      (fun error =>
         Ret (Route.mkResponse 500
                (Route.ErrorBody "Failed to fetch products"
                                 (Some (err_message error))))).
Proof.
  intros Hp Hl Hp1 Hl1. unfold Route.GET, query_of.
  cbn [Route.q_page Route.q_limit Route.q_search Route.q_categoryId
       page limit search categoryId].
  rewrite Hp, Hl, !or_str_printed, !or_str_query, !lt_num, gt_num.
  replace (Z.ltb p 1) with false by (symmetry; apply Z.ltb_ge; lia).
  replace (Z.ltb l 1) with false by (symmetry; apply Z.ltb_ge; lia).
  replace (Z.ltb 1000 l) with false by (symmetry; apply Z.ltb_ge; lia).
  cbn [orb]. now rewrite getProductsPaginated_defaults.
Qed.

(** X16. The request built by the [fetchProductsPaginated] thunk is read
    back by the route as the parameters the thunk was given: for an
    integer page at least 1 and a limit from 1 to 1000, printed in
    decimal, the route answers 200 with what [getProductsPaginated]
    returns on these very parameters and 500 with the message of what it
    throws, under every driver. *)
Theorem thunk_request_reaches_service (w : W) (p l : Z) (s c : option string) :
  toString (num p) = ProductFormDialog.string_of_Z p ->
  toString (num l) = ProductFormDialog.string_of_Z l ->
  1 <= p -> 1 <= l <= 1000 ->
  run h (Route.GET (query_of toString (mkParams (num p) (num l) s c))) w
  = match run h (getProductsPaginated (mkParams (num p) (num l) s c)) w with
    | (Returned result, w') =>
        (Returned (Route.mkResponse 200 (Route.ResultBody result)), w')
    | (Threw error, w') =>
        (Returned (Route.mkResponse 500
                     (Route.ErrorBody "Failed to fetch products"
                                      (Some (err_message error)))), w')
    end.
Proof.
  intros Hp Hl Hp1 Hl1. rewrite GET_query_of by assumption.
  rewrite run_try_catch, run_bind.
  destruct (run h (getProductsPaginated _) w) as [[result|error] w']; reflexivity.
Qed.

End ThunkRoute.

(** ** The handlers of the products view *)

Section ViewProperties.
Import Js Mongo ProductService ProductsSlice ProductsView.

(** X17. Each handler of the products view stores in the state what it
    asks the server for: after the reducer action it dispatches, the
    page, the search term and the category of the state are those of the
    request it sends, and the request asks for 10 products. *)
Theorem view_handlers_store_what_they_request (state : State) (d : Dispatched) :
  (exists page, d = handlePageChange state page)
  \/ (exists term, d = handleSearchChange state term)
  \/ (exists categoryIds, d = handleCategoryFilter state categoryIds) ->
  let state' := reducer state (action d) in
  ProductsSlice.page (pagination state') = ProductService.page (fetch d)
  /\ Some (searchTerm state') = search (fetch d)
  /\ Some (selectedCategory state') = categoryId (fetch d)
  /\ ProductService.limit (fetch d) = num 10
  /\ items state' = items state.
Proof.
  intros [[page ->]|[[term ->]|[ids ->]]]; cbn; repeat split; reflexivity.
Qed.

Section Reset.
Context {W : Type} (h : Handler W).
Variable toString : Number -> string.

(** X18. [resetFilters] asks for the first page over every category: the
    route accepts its request and the service runs with page 1, limit 10,
    the search term of the state and no condition on the category. *)
Theorem resetFilters_first_page_all_categories (state : State) (w : W) :
  toString (num 1) = "1" ->
  toString (num 10) = "10" ->
  let params := mkParams (num 1) (num 10) (Some (searchTerm state)) (Some "all") in
  fetch (resetFilters state) = params
  /\ category_filter params = None
  /\ run h (Route.GET (ProductsSliceWrites.query_of toString
                         (fetch (resetFilters state)))) w
     = match run h (getProductsPaginated params) w with
       | (Returned result, w') =>
           (Returned (Route.mkResponse 200 (Route.ResultBody result)), w')
       | (Threw error, w') =>
           (Returned (Route.mkResponse 500
                        (Route.ErrorBody "Failed to fetch products"
                                         (Some (err_message error)))), w')
       end.
Proof.
  intros H1 H10 params. split; [reflexivity|]. split; [reflexivity|].
  change (fetch (resetFilters state)) with params. unfold params.
  rewrite (GET_query_of toString 1 10) by (try assumption; lia).
  rewrite run_try_catch, run_bind.
  destruct (run h (getProductsPaginated _) w) as [[result|error] w']; reflexivity.
Qed.

End Reset.

(** X19. What the views render after the legacy fetch: [safeProducts] is
    the list of the body's [data] when that is a list, the body itself
    when the body is a bare list, and the empty list for every other
    body.  The coercion to a list happens in the views, not in the thunk
    or the reducer. *)
Theorem safeProducts_after_fetchProducts (state : State) (result payload : JsVal) :
  fetchProducts (Returned (mkFetch true (Returned result))) = Returned payload ->
  let state' := ProductsSlice.reducer state (fetchProducts_fulfilled payload) in
  safeProducts (items state')
  = match result with
    | VObj body => match get body "data" with VArr l => l | _ => [] end
    | VArr l => l
    | _ => []
    end.
Proof.
  unfold fetchProducts. cbn [ok json negb].
  destruct result as [| |b|n|s|t|o|l|body]; cbn; try discriminate;
    try (intros [= <-]; reflexivity).
  all: try (destruct (String.eqb _ _); cbn; intros [= <-]; reflexivity).
  destruct (get body "data") as [| |b|n|s|t|o|l|m]; cbn;
    try (intros [= <-]; reflexivity);
    match goal with
    | |- context [if ?b then _ else _] =>
        destruct b; cbn; intros [= <-]; reflexivity
    end.
Qed.

End ViewProperties.


(** ** The reducers of the create, update and delete thunks *)

Section WriteReducers.
Import Js ProductsSlice ProductsSliceWrites ClientSpec.

Lemma prop_defined (v : JsVal) (k : string) :
  defined v = true -> exists r, prop v k = Returned r.
Proof.
  destruct v; cbn; try discriminate; eauto;
    destruct (String.eqb k "length"); eauto.
Qed.

Lemma filter_by_id_filter (id : string) (l : list JsVal) :
  forallb defined l = true ->
  filter_by_id id l
  = Returned (List.filter (fun item => negb (has_id (VStr id) item)) l).
Proof.
  induction l as [|item l IH]; cbn [forallb filter_by_id List.filter];
    [reflexivity|].
  intros [Hd Hl]%andb_prop. rewrite (IH Hl). unfold has_id.
  destruct (prop_defined item "id" Hd) as [r ->].
  now destruct (strict_eq r (VStr id)).
Qed.

Lemma filter_twice {A} (f : A -> bool) (l : list A) :
  List.filter f (List.filter f l) = List.filter f l.
Proof.
  induction l as [|a l IH]; cbn; [reflexivity|].
  destruct (f a) eqn:Hf; cbn; [rewrite Hf, IH|]; auto.
Qed.

Lemma forallb_filter {A} (f g : A -> bool) (l : list A) :
  forallb g l = true -> forallb g (List.filter f l) = true.
Proof.
  induction l as [|a l IH]; cbn; [reflexivity|].
  intros [Ha Hl]%andb_prop. destruct (f a); cbn; [rewrite Ha|]; auto.
Qed.

(** X20. [deleteProduct.fulfilled] on a list of items: the items whose
    [id] is the deleted one are all removed, the others stay in their
    order, [loading] is cleared, the rest of the state is kept, and
    reducing the same action again changes nothing. *)
Theorem deleteProduct_fulfilled_removes (state : State) (l : list JsVal) (id : string) :
  items state = VArr l ->
  forallb defined l = true ->
  let kept := List.filter (fun item => negb (has_id (VStr id) item)) l in
  let state' := with_items state (VArr kept) false in
  reducer state (deleteProduct_fulfilled id) = Returned state'
  /\ Forall (fun item => has_id (VStr id) item = false) kept
  /\ (forall item, In item l -> has_id (VStr id) item = false -> In item kept)
  /\ reducer state' (deleteProduct_fulfilled id) = Returned state'.
Proof.
  intros Hitems Hdef kept state'. repeat split.
  - cbn [reducer]. now rewrite Hitems, filter_by_id_filter.
  - apply List.Forall_forall. intros item [_ Hf]%filter_In.
    now destruct (has_id (VStr id) item).
  - intros item Hin Hid. apply filter_In. now rewrite Hid.
  - cbn [reducer]. unfold state' at 1. cbn [items with_items].
    rewrite filter_by_id_filter by now apply forallb_filter.
    unfold kept. now rewrite filter_twice.
Qed.

Lemma findIndex_by_id_spec (payload : Obj) (l : list JsVal) (i : nat) :
  forallb defined l = true ->
  let id := get payload "id" in
  (findIndex_by_id (VObj payload) l i = Returned None
   /\ Forall (fun item => has_id id item = false) l)
  \/ (exists n item,
        findIndex_by_id (VObj payload) l i = Returned (Some (i + n)%nat)
        /\ l !! n = Some item /\ has_id id item = true
        /\ Forall (fun item => has_id id item = false) (take n l)).
Proof.
  intros Hdef id. revert i Hdef.
  induction l as [|p l IH]; intros i Hdef; cbn [findIndex_by_id forallb] in *.
  - left. split; [reflexivity|constructor].
  - apply andb_prop in Hdef as [Hp Hl].
    destruct (prop_defined p "id" Hp) as [r Hr]. rewrite Hr.
    cbn [prop]. fold id.
    destruct (strict_eq r id) eqn:Heq.
    + right. exists 0%nat, p. rewrite Nat.add_0_r. repeat split.
      * unfold has_id. now rewrite Hr.
      * constructor.
    + assert (Hp' : has_id id p = false) by (unfold has_id; now rewrite Hr).
      destruct (IH (S i) Hl) as [[-> Hall]|(n & item & -> & Hn & Hitem & Hall)].
      * left. split; [reflexivity|now constructor].
      * right. exists (S n), item. rewrite Nat.add_succ_r. repeat split; auto.
        cbn. now constructor.
Qed.

(** X21. [updateProduct.fulfilled] on a list of items never adds or
    removes an item.  When no item carries the [id] of the payload the
    list is left as it was (the updated product is not added).
    Otherwise the list afterwards is the list before with the payload
    written over the first item that carries that [id]: the payload
    stands at that position, and every other position holds what it
    held. *)
Theorem updateProduct_fulfilled_replaces (state : State) (l : list JsVal)
    (payload : Obj) :
  items state = VArr l ->
  forallb defined l = true ->
  let id := get payload "id" in
  exists l',
    reducer state (updateProduct_fulfilled (VObj payload))
    = Returned (with_items state (VArr l') false)
    /\ length l' = length l
    /\ ((Forall (fun item => has_id id item = false) l /\ l' = l)
        \/ exists n item,
             l !! n = Some item
             /\ has_id id item = true
             /\ Forall (fun item => has_id id item = false) (take n l)
             /\ l' = <[n := VObj payload]> l
             /\ l' !! n = Some (VObj payload)
             /\ forall k, k <> n -> l' !! k = l !! k).
Proof.
  intros Hitems Hdef id. cbn [reducer]. rewrite Hitems.
  destruct (findIndex_by_id_spec payload l 0 Hdef)
    as [[-> Hall]|(n & item & -> & Hn & Hitem & Hall)].
  - exists l. split; [reflexivity|]. split; [reflexivity|]. left. now split.
  - exists (<[n := VObj payload]> l). cbn [Nat.add].
    split; [reflexivity|]. split; [apply length_insert|].
    right. exists n, item. repeat split; auto.
    + apply list_lookup_insert_eq. now apply lookup_lt_Some in Hn.
    + intros k Hk. now apply list_lookup_insert_ne.
Qed.

(** X22. Once the legacy fetch has stored a body that is not a list (the
    body of an ok response whose [data] is not a list), every reducer
    that edits the list throws: [addProduct] and the fulfilled cases of
    create, update and delete. *)
Theorem list_reducers_throw_after_malformed_fetch (state : State) (body : Obj)
    (payload : JsVal) (action : Action) :
  isArray (get body "data") = false ->
  fetchProducts (Returned (mkFetch true (Returned (VObj body)))) = Returned payload ->
  (exists p, action = addProduct p \/ action = createProduct_fulfilled p
             \/ action = updateProduct_fulfilled p)
  \/ (exists id, action = deleteProduct_fulfilled id) ->
  let state' := ProductsSlice.reducer state (fetchProducts_fulfilled payload) in
  exists e, reducer state' action = Threw e.
Proof.
  intros Hd Hfetch Haction. unfold fetchProducts in Hfetch.
  cbn [ok json negb prop] in Hfetch. rewrite Hd, andb_false_r in Hfetch.
  injection Hfetch as <-. cbn.
  destruct Haction as [(p & [->| [->| ->]])|(id & ->)]; cbn; eauto.
Qed.

(** X23. The page cache is never read: starting from two states that
    differ in [pageCache] only, every action of the slice leads to states
    that differ in [pageCache] only, and a reducer that throws from one
    throws the same from the other. *)
Theorem pageCache_never_read (s1 s2 : State) :
  same_but_cache s1 s2 ->
  (forall action,
     same_but_cache (ProductsSlice.reducer s1 action)
                    (ProductsSlice.reducer s2 action))
  /\ (forall action,
        match reducer s1 action, reducer s2 action with
        | Returned s1', Returned s2' => same_but_cache s1' s2'
        | Threw e1, Threw e2 => e1 = e2
        | _, _ => False
        end).
Proof.
  intros (Hi & Hl & He & Hp & Hs & Hc). split.
  - intros []; unfold same_but_cache; cbn; rewrite ?Hi, ?Hl, ?He, ?Hp, ?Hs, ?Hc;
      repeat split; reflexivity.
  - intros []; cbn; rewrite ?Hi;
      try (unfold same_but_cache; cbn; rewrite ?Hi, ?Hl, ?He, ?Hp, ?Hs, ?Hc;
           repeat split; reflexivity);
      destruct (items s2); try reflexivity;
      try (unfold same_but_cache; cbn; rewrite ?Hi, ?Hl, ?He, ?Hp, ?Hs, ?Hc;
           repeat split; reflexivity).
    + destruct (findIndex_by_id payload l 0) as [[i|]|e]; try reflexivity;
        unfold same_but_cache; cbn; rewrite ?Hl, ?He, ?Hp, ?Hs, ?Hc;
        repeat split; reflexivity.
    + destruct (filter_by_id payload l) as [kept|e]; try reflexivity;
        unfold same_but_cache; cbn; rewrite ?Hl, ?He, ?Hp, ?Hs, ?Hc;
        repeat split; reflexivity.
Qed.

Lemma same_key_refl (p : Number) : same_key p p = true.
Proof. destruct p; try reflexivity. cbn. apply Qeq_bool_iff. reflexivity. Qed.

(** X24. A fulfilled paginated fetch stores its page in the cache under
    the page number of the response, replacing what was cached under
    that number and nothing else; [clearPageCache] empties the cache. *)
Theorem fulfilled_page_is_cached (state : State) (payload : PaginatedPayload) :
  let p := page (pl_pagination payload) in
  let state' := ProductsSlice.reducer state (fetchProductsPaginated_fulfilled payload) in
  cached p (pageCache state') = Some (pl_data payload)
  /\ (forall k, same_key p k = false ->
        cached k (pageCache state') = cached k (pageCache state))
  /\ (forall k, cached k (pageCache (ProductsSlice.reducer state' clearPageCache))
                = None).
Proof.
  cbn. rewrite same_key_refl. repeat split; try reflexivity.
  intros k ->. reflexivity.
Qed.

End WriteReducers.


(** ** The variations of the product form *)

Section FormEditing.
Import Js ProductFormDialog ProductFormEditing ClientSpec.

Lemma images_or_empty_with_images (v : Variation) (imgs : list VariationImage) :
  images_or_empty (with_images v imgs) = imgs.
Proof. reflexivity. Qed.

Lemma tidy_images (v v' : Variation) :
  images_or_empty v' = images_or_empty v -> tidy v -> tidy v'.
Proof. unfold tidy. now intros ->. Qed.

Lemma tidy_copy (current : list Variation) :
  Forall tidy current -> Forall tidy (createVariationsCopy current).
Proof.
  unfold createVariationsCopy. intros H. apply List.Forall_map.
  eapply List.Forall_impl; [|exact H]. intros v Hv.
  now apply (tidy_images v).
Qed.

Lemma at_index_lookup {A} (l : list A) (i : Z) (x : A) :
  at_index l i = Some x -> l !! Z.to_nat i = Some x.
Proof. unfold at_index. now destruct (Z.ltb i 0). Qed.

Lemma at_index_In {A} (l : list A) (i : Z) (x : A) :
  at_index l i = Some x -> In x l.
Proof.
  intros H%at_index_lookup. apply list_elem_of_In.
  eapply list_elem_of_lookup_2, H.
Qed.

Lemma Forall_at {A} (P : A -> Prop) (l : list A) (i : Z) (x : A) :
  Forall P l -> at_index l i = Some x -> P x.
Proof.
  intros H Hx%at_index_In. rewrite List.Forall_forall in H. auto.
Qed.

Lemma Forall_set {A} (P : A -> Prop) (l : list A) (i : nat) (x : A) :
  Forall P l -> P x -> Forall P (<[i := x]> l).
Proof.
  intros Hl Hx. revert i. induction Hl as [|y l Hy Hl IH]; intros [|i]; cbn;
    constructor; auto.
Qed.

Lemma primaries_app (l1 l2 : list VariationImage) :
  primaries (l1 ++ l2) = (primaries l1 + primaries l2)%nat.
Proof. unfold primaries. now rewrite List.filter_app, length_app. Qed.

Lemma primaries_filter (f : VariationImage -> bool) (imgs : list VariationImage) :
  (primaries (List.filter f imgs) <= primaries imgs)%nat.
Proof.
  unfold primaries. induction imgs as [|img imgs IH]; cbn; [lia|].
  destruct (f img) eqn:Hf, (is_primary img) eqn:Hp; cbn; rewrite ?Hp; cbn; lia.
Qed.

Lemma NoDup_map_filter {A B} (g : A -> B) (f : A -> bool) (l : list A) :
  NoDup (List.map g l) -> NoDup (List.map g (List.filter f l)).
Proof.
  induction l as [|a l IH]; cbn; [auto|].
  intros [Hn Hl]%NoDup_cons. destruct (f a); cbn; auto.
  apply NoDup_cons. split; auto.
  intros Hin. apply Hn. apply list_elem_of_In in Hin. apply list_elem_of_In.
  apply in_map_iff in Hin as (x & <- & Hx). apply in_map.
  now apply filter_In in Hx.
Qed.

Lemma Forall_filter_keep {A} (P : A -> Prop) (f : A -> bool) (l : list A) :
  Forall P l -> Forall P (List.filter f l).
Proof.
  rewrite !List.Forall_forall. intros H x [Hx _]%filter_In. auto.
Qed.

Lemma tidy_filter (v : Variation) (f : VariationImage -> bool) :
  tidy v -> tidy (with_images v (List.filter f (images_or_empty v))).
Proof.
  unfold tidy. rewrite images_or_empty_with_images. intros (Hp & Hn & Ha).
  repeat split.
  - pose proof (primaries_filter f (images_or_empty v)). lia.
  - now apply NoDup_map_filter.
  - now apply Forall_filter_keep.
Qed.

Lemma tidy_clean (v : Variation) : tidy v -> tidy (clean_variation v).
Proof.
  intros H. apply (tidy_images (with_images v (List.filter has_url (images_or_empty v)))).
  - unfold clean_variation, images_or_empty. cbn. now destruct (images v).
  - now apply tidy_filter.
Qed.

Lemma map_insert_same {A B} (g : A -> B) (l : list A) (i : nat) (x x' : A) :
  l !! i = Some x -> g x' = g x -> List.map g (<[i := x']> l) = List.map g l.
Proof.
  intros Hi Hg. revert i Hi. induction l as [|y l IH]; intros [|i] Hi;
    try discriminate Hi.
  - injection Hi as ->. cbn. now rewrite Hg.
  - change (l !! i = Some x) in Hi.
    change (g y :: List.map g (<[i := x']> l) = g y :: List.map g l).
    now rewrite (IH i Hi).
Qed.

Lemma primaries_insert (imgs : list VariationImage) (i : nat)
    (img img' : VariationImage) :
  imgs !! i = Some img -> is_primary img' = is_primary img ->
  primaries (<[i := img']> imgs) = primaries imgs.
Proof.
  intros Hi Hp. unfold primaries. revert i Hi.
  induction imgs as [|x imgs IH]; intros [|i] Hi; try discriminate Hi.
  - injection Hi as ->.
    change (<[0%nat := img']> (img :: imgs)) with (img' :: imgs).
    cbn [List.filter]. rewrite Hp. now destruct (is_primary img).
  - change (imgs !! i = Some img) in Hi. specialize (IH i Hi).
    change (<[S i := img']> (x :: imgs)) with (x :: <[i := img']> imgs).
    cbn [List.filter]. destruct (is_primary x); cbn [length]; lia.
Qed.

(** Replacing an image by one with the same angle and the same mark. *)
Lemma tidy_replace (v : Variation) (i : nat) (img img' : VariationImage) :
  images_or_empty v !! i = Some img ->
  angle img' = angle img -> is_primary img' = is_primary img ->
  tidy v -> tidy (with_images v (<[i := img']> (images_or_empty v))).
Proof.
  unfold tidy. rewrite images_or_empty_with_images.
  generalize (images_or_empty v). intros imgs Hi Ha Hp (H1 & H2 & H3).
  rewrite (map_insert_same angle imgs i img img' Hi Ha).
  rewrite (primaries_insert imgs i img img' Hi Hp).
  repeat split; auto.
  apply Forall_set; auto. rewrite Ha.
  rewrite List.Forall_forall in H3. apply H3.
  apply list_elem_of_In. eapply list_elem_of_lookup_2, Hi.
Qed.

Lemma primaries_mark_after (k from : Z) (imgs : list VariationImage) :
  k < from -> primaries (mark_primary k from imgs) = 0%nat.
Proof.
  revert from. induction imgs as [|img imgs IH]; intros from Hlt; [reflexivity|].
  unfold primaries in *. cbn.
  replace (Z.eqb from k) with false by (symmetry; apply Z.eqb_neq; lia).
  apply IH. lia.
Qed.

Lemma primaries_mark (k from : Z) (imgs : list VariationImage) :
  (primaries (mark_primary k from imgs) <= 1)%nat.
Proof.
  revert from. induction imgs as [|img imgs IH]; intros from; [cbn; lia|].
  unfold primaries in *. cbn. destruct (Z.eqb_spec from k) as [->|Hne]; cbn.
  - pose proof (primaries_mark_after k (k + 1) imgs ltac:(lia)) as H.
    unfold primaries in H. rewrite H. lia.
  - apply IH.
Qed.

Lemma map_angle_mark (k from : Z) (imgs : list VariationImage) :
  List.map angle (mark_primary k from imgs) = List.map angle imgs.
Proof.
  revert from. induction imgs as [|img imgs IH]; intros from; cbn;
    [reflexivity|now rewrite IH].
Qed.

Lemma tidy_mark (v : Variation) (k : Z) (imgs : list VariationImage) :
  NoDup (List.map angle imgs) ->
  Forall (fun img => In (angle img) defaultAngles) imgs ->
  tidy (with_images v (mark_primary k 0 imgs)).
Proof.
  intros Hn Ha. unfold tidy. rewrite images_or_empty_with_images.
  repeat split.
  - apply primaries_mark.
  - now rewrite map_angle_mark.
  - apply List.Forall_forall. intros img Hin.
    assert (Hin' : In (angle img) (List.map angle (mark_primary k 0 imgs)))
      by now apply in_map.
    rewrite map_angle_mark in Hin'. apply in_map_iff in Hin' as (x & <- & Hx).
    rewrite List.Forall_forall in Ha. auto.
Qed.

Lemma tidy_push (v : Variation) (now : Z) (a : string) :
  In a defaultAngles ->
  angle_disabled v a = false ->
  tidy v ->
  let imgs := images_or_empty v in
  tidy (with_images v
          (imgs ++ [mkImage ("img_" ++ string_of_Z now) (Some "") (Some "") a
                            (Nat.eqb (length imgs) 0)])%list).
Proof.
  intros Ha Hd Ht imgs. subst imgs. unfold tidy in *.
  unfold angle_disabled in Hd. rewrite images_or_empty_with_images.
  revert Hd Ht. generalize (images_or_empty v). intros imgs Hd (Hp & Hn & Hall).
  repeat split.
  - rewrite primaries_app.
    destruct imgs as [|img imgs']; [cbn; lia|].
    replace (primaries [_]) with 0%nat by reflexivity. lia.
  - rewrite List.map_app. cbn [List.map angle]. apply NoDup_app.
    repeat split; auto.
    + intros x Hx Hx'. apply list_elem_of_In in Hx, Hx'.
      destruct Hx' as [<-|[]]. apply in_map_iff in Hx as (img & Himg & Hin).
      assert (existsb (fun img => String.eqb (angle img) a) imgs = true) as Hex.
      { apply existsb_exists. exists img. split; auto. now apply String.eqb_eq. }
      congruence.
    + apply NoDup_singleton.
  - apply Forall_app. split; auto.
Qed.

Lemma tidy_addVariationImage (current : list Variation) (now varIdx : Z)
    (a : string) (variation : Variation) :
  In a defaultAngles ->
  at_index current varIdx = Some variation ->
  angle_disabled variation a = false ->
  Forall tidy current ->
  Forall tidy (addVariationImage now current varIdx a).
Proof.
  intros Ha Hat Hd Hall. unfold addVariationImage.
  destruct (_ || _)%bool; [assumption|].
  destruct (createVariationsCopy current !! Z.to_nat varIdx) as [v|] eqn:Hv;
    [|assumption].
  apply Forall_set; [now apply tidy_copy|].
  unfold createVariationsCopy in Hv. rewrite list_lookup_fmap in Hv.
  rewrite (at_index_lookup _ _ _ Hat) in Hv. injection Hv as <-.
  rewrite images_or_empty_with_images.
  apply (tidy_images (with_images variation
           (images_or_empty variation ++
            [mkImage ("img_" ++ string_of_Z now) (Some "") (Some "") a
                     (Nat.eqb (length (images_or_empty variation)) 0)])%list));
    [reflexivity|].
  apply tidy_push; auto. eapply Forall_at; eauto.
Qed.

Lemma copy_at (current : list Variation) (i : Z) (v : Variation) :
  at_index (createVariationsCopy current) i = Some v ->
  exists v0, at_index current i = Some v0
             /\ v = with_images v0 (images_or_empty v0).
Proof.
  unfold at_index, createVariationsCopy. destruct (Z.ltb i 0); [discriminate|].
  rewrite list_lookup_fmap. destruct (current !! Z.to_nat i) as [v0|];
    [|discriminate].
  cbn. intros [= <-]. eauto.
Qed.

Lemma tidy_edit (current next : list Variation) :
  edit current next -> Forall tidy current -> Forall tidy next.
Proof.
  intros [now base|id|index updated next' Hu Hup|index hexValue
          |now varIdx a variation Ha Hat Hd|varIdx imgId next' Hrm
          |varIdx imgIdx updated next' Hup|varIdx imgIdx next' Hpr] Hall.
  - apply Forall_app. split; [assumption|].
    constructor; [|constructor]. unfold tidy. cbn. repeat split; try lia;
      constructor.
  - now apply Forall_filter_keep.
  - unfold updateVariation in Hup.
    destruct (at_index _ index) as [v|] eqn:Hv; [|discriminate].
    injection Hup as <-. apply Forall_set; [now apply tidy_copy|].
    apply (tidy_images v).
    + unfold merged, images_or_empty. cbn. now rewrite Hu.
    + eapply Forall_at; [apply tidy_copy, Hall|exact Hv].
  - unfold updateVariationFromColorPicker.
    destruct (at_index current index) as [v|] eqn:Hv; [|assumption].
    apply Forall_set; [assumption|].
    apply (tidy_images v); [reflexivity|]. eapply Forall_at; eauto.
  - eapply tidy_addVariationImage; eauto.
  - unfold removeVariationImage in Hrm.
    destruct (at_index _ varIdx) as [v|] eqn:Hv; [|discriminate].
    injection Hrm as <-. apply Forall_set; [now apply tidy_copy|].
    apply tidy_filter. eapply Forall_at; [apply tidy_copy, Hall|exact Hv].
  - unfold updateVariationImage in Hup.
    destruct (at_index _ varIdx) as [v|] eqn:Hv; [|discriminate].
    destruct (at_index (images_or_empty v) imgIdx) as [img|] eqn:Himg;
      [|discriminate].
    injection Hup as <-. apply Forall_set; [now apply tidy_copy|].
    apply (tidy_replace v _ img); auto using at_index_lookup.
    eapply Forall_at; [apply tidy_copy, Hall|exact Hv].
  - unfold onPrimaryChange in Hpr.
    destruct (at_index current varIdx) as [v0|] eqn:Hv0; [|discriminate].
    destruct (images v0) as [imgs|] eqn:Himgs; [|discriminate].
    unfold updateVariation in Hpr.
    destruct (at_index (createVariationsCopy current) varIdx) as [v|] eqn:Hv;
      [|discriminate].
    injection Hpr as <-. apply Forall_set; [now apply tidy_copy|].
    destruct (Forall_at _ _ _ _ Hall Hv0) as (_ & Hn & Ha).
    unfold images_or_empty in Hn, Ha. rewrite Himgs in Hn, Ha.
    apply (tidy_images (with_images v (mark_primary imgIdx 0 imgs)));
      [reflexivity|].
    now apply tidy_mark.
Qed.

Lemma tidy_at_most_five (v : Variation) :
  tidy v -> (length (images_or_empty v) <= 5)%nat.
Proof.
  intros (_ & Hn & Ha).
  rewrite <- (length_map angle).
  change 5%nat with (length defaultAngles).
  apply NoDup_incl_length.
  - now apply NoDup_ListNoDup.
  - intros a (img & <- & Hin)%in_map_iff.
    rewrite List.Forall_forall in Ha. auto.
Qed.

(** X25. The controls of the form keep the images of every variation in
    order.  Starting from variations in which no variation has two
    primary images or two images of one angle, and every angle is one of
    the five offered, any number of edits (adding and removing
    variations, editing their fields, the colour picker, the angle
    buttons while enabled, removing an image, setting its file or text,
    choosing the primary image) leads to variations of that kind; so no
    variation ever holds more than five images, and what [onSubmit] hands
    over is of that kind too. *)
Theorem form_edits_keep_variations_tidy (current final : list Variation)
    (values : FormValues) :
  edits current final ->
  Forall tidy current ->
  variations values = Some final ->
  Forall tidy final
  /\ Forall (fun v => (length (images_or_empty v) <= 5)%nat) final
  /\ exists cleaned,
       variations (onSubmit values) = Some cleaned
       /\ Forall tidy cleaned.
Proof.
  intros Hedits Hall Hvalues.
  assert (Hfinal : Forall tidy final).
  { induction Hedits as [current|current next final Hedit _ IH];
      [assumption|]. apply IH; [|assumption]. eapply tidy_edit; eauto. }
  split; [assumption|]. split.
  - eapply List.Forall_impl; [|exact Hfinal]. apply tidy_at_most_five.
  - exists (List.map clean_variation final). split.
    + unfold onSubmit. rewrite Hvalues. now destruct (negb (hasVariations values)).
    + apply List.Forall_map. eapply List.Forall_impl; [|exact Hfinal].
      apply tidy_clean.
Qed.

Lemma filter_comm {A} (f g : A -> bool) (l : list A) :
  List.filter f (List.filter g l) = List.filter g (List.filter f l).
Proof.
  induction l as [|a l IH]; cbn; [reflexivity|].
  destruct (f a) eqn:Hf, (g a) eqn:Hg; cbn; rewrite ?Hf, ?Hg, IH; reflexivity.
Qed.

Lemma only_primary (imgs : list VariationImage) (img : VariationImage) :
  (primaries imgs <= 1)%nat -> In img imgs -> is_primary img = true ->
  List.filter is_primary imgs = [img].
Proof.
  unfold primaries. intros Hle Hin Hp.
  assert (Hin' : In img (List.filter is_primary imgs)) by now apply filter_In.
  destruct (List.filter is_primary imgs) as [|x [|y l]]; cbn in *;
    [tauto| |lia].
  destruct Hin' as [->|[]]. reflexivity.
Qed.

(** X26. Removing the primary image of a variation leaves the variation
    without a primary image, and the angle buttons do not restore one:
    the next image added is primary only when no image was left. *)
Theorem removing_the_primary_leaves_none (current next : list Variation)
    (varIdx : Z) (variation : Variation) (img : VariationImage)
    (now : Z) (a : string) :
  at_index current varIdx = Some variation ->
  (primaries (images_or_empty variation) <= 1)%nat ->
  In img (images_or_empty variation) ->
  is_primary img = true ->
  removeVariationImage current varIdx (id img) = Some next ->
  exists left,
    at_index next varIdx = Some (with_images variation left)
    /\ primaries left = 0%nat
    /\ exists added,
         at_index (addVariationImage now next varIdx a) varIdx
         = Some (with_images variation (left ++ [added])%list)
         /\ is_primary added = Nat.eqb (length left) 0.
Proof.
  intros Hat Hle Hin Hp Hrm. unfold removeVariationImage in Hrm.
  pose proof Hat as Hat'. unfold at_index in Hat'.
  destruct (Z.ltb varIdx 0) eqn:Hneg; [discriminate|].
  assert (Hlen : (Z.to_nat varIdx < length current)%nat)
    by now apply lookup_lt_Some in Hat'.
  assert (Hcopy : createVariationsCopy current !! Z.to_nat varIdx
                  = Some (with_images variation (images_or_empty variation))).
  { unfold createVariationsCopy. now rewrite list_lookup_fmap, Hat'. }
  unfold at_index in Hrm. rewrite Hneg, Hcopy in Hrm.
  rewrite images_or_empty_with_images in Hrm. injection Hrm as <-.
  set (left := List.filter _ (images_or_empty variation)).
  assert (Hlen' : (Z.to_nat varIdx < length (createVariationsCopy current))%nat)
    by (unfold createVariationsCopy; now rewrite length_map).
  exists left. split; [|split].
  - unfold at_index. rewrite Hneg. now rewrite list_lookup_insert_eq.
  - unfold primaries, left. rewrite filter_comm.
    rewrite (only_primary _ img Hle Hin Hp). cbn.
    now rewrite String.eqb_refl.
  - unfold addVariationImage.
    rewrite length_insert.
    replace (Z.ltb varIdx 0 || Z.leb (Z.of_nat (length (createVariationsCopy current))) varIdx)%bool
      with false
      by (rewrite Hneg; symmetry; apply Z.leb_gt; apply Z.ltb_ge in Hneg; lia).
    assert (Hnext : createVariationsCopy
                      (<[Z.to_nat varIdx := with_images variation left]>
                         (createVariationsCopy current)) !! Z.to_nat varIdx
                    = Some (with_images variation left)).
    { unfold createVariationsCopy at 1. rewrite list_lookup_fmap.
      now rewrite list_lookup_insert_eq. }
    cbv zeta.
    change (with_images (with_images variation (images_or_empty variation)) left)
      with (with_images variation left).
    rewrite Hnext. rewrite images_or_empty_with_images.
    eexists. split.
    + unfold at_index. rewrite Hneg. rewrite list_lookup_insert_eq; [reflexivity|].
      unfold createVariationsCopy at 1. now rewrite length_map, length_insert.
    + reflexivity.
Qed.

End FormEditing.

(** ** The names of the colours *)

Section ColorNames.
Import Js ProductFormDialog ProductFormEditing.

Lemma to_upper_to_lower (c : ascii) : to_upper (to_lower c) = to_upper c.
Proof. destruct c as [[] [] [] [] [] [] [] []]; reflexivity. Qed.

Lemma to_upper_twice (c : ascii) : to_upper (to_upper c) = to_upper c.
Proof. destruct c as [[] [] [] [] [] [] [] []]; reflexivity. Qed.

Lemma to_upper_not_b (c : ascii) : Ascii.eqb (to_upper c) "b" = false.
Proof. destruct c as [[] [] [] [] [] [] [] []]; reflexivity. Qed.

Lemma toUpperCase_toLowerCase (s : string) :
  toUpperCase (toLowerCase s) = toUpperCase s.
Proof.
  induction s as [|c s IH]; cbn; [reflexivity|].
  now rewrite to_upper_to_lower, IH.
Qed.

Lemma toUpperCase_twice (s : string) : toUpperCase (toUpperCase s) = toUpperCase s.
Proof.
  induction s as [|c s IH]; cbn; [reflexivity|].
  now rewrite to_upper_twice, IH.
Qed.

Lemma toUpperCase_no_b (s : string) :
  string_forallb (fun c => negb (Ascii.eqb c "b")) (toUpperCase s) = true.
Proof.
  induction s as [|c s IH]; cbn; [reflexivity|].
  now rewrite to_upper_not_b, IH.
Qed.

Lemma dark_teal_key (key : string) :
  lookup_key key colorNameMap = Some "Dark Teal" -> key = "#2b4e58".
Proof.
  unfold colorNameMap. cbn [lookup_key].
  repeat match goal with
         | |- context [String.eqb ?k key] =>
             destruct (String.eqb_spec k key) as [<-|_];
             [intros H; first [reflexivity|discriminate H]|]
         end.
  discriminate.
Qed.

(** X27. [getColorNameFromHex] does not tell the cases of its argument
    apart, and it never answers [Dark Teal]: the key of that entry is
    written in lower case, the argument is looked up in upper case. *)
Theorem getColorNameFromHex_case (hex : string) :
  getColorNameFromHex (toLowerCase hex) = getColorNameFromHex hex
  /\ getColorNameFromHex (toUpperCase hex) = getColorNameFromHex hex
  /\ getColorNameFromHex hex <> Some "Dark Teal"
  /\ (forall n, getColorNameFromHex hex = Some n ->
                In (toUpperCase hex, n) colorNameMap).
Proof.
  unfold getColorNameFromHex. repeat split.
  - now rewrite toUpperCase_toLowerCase.
  - now rewrite toUpperCase_twice.
  - intros H%dark_teal_key. pose proof (toUpperCase_no_b hex) as Hb.
    rewrite H in Hb. discriminate Hb.
  - generalize (toUpperCase hex). intros key n. unfold colorNameMap.
    cbn [lookup_key].
    repeat match goal with
           | |- context [String.eqb ?k key] =>
               destruct (String.eqb_spec k key) as [<-|_];
               [intros [= <-]; cbn; tauto|]
           end.
    discriminate.
Qed.

End ColorNames.


(** ** The angle selector *)

Section Selector.
Import Js ProductFormDialog AnglesSelector.

Lemma has_url_non_empty (img : VariationImage) :
  has_url img = true -> exists u, url img = Some u /\ u <> "".
Proof.
  unfold has_url. destruct (url img) as [u|]; [|discriminate].
  intros [H _]%andb_prop. exists u. split; [reflexivity|].
  intros ->. discriminate H.
Qed.

Lemma getImageForAngle_variation (imgs : list VariationImage)
    (productImage : option string) (a src : string) :
  imgs <> [] ->
  getImageForAngle imgs productImage false a = Some src ->
  exists img, In img imgs /\ angle img = a /\ url img = Some src
              /\ has_url img = true.
Proof.
  intros Hne. unfold getImageForAngle.
  destruct imgs as [|i0 imgs]; [congruence|].
  destruct (List.find (shows a) (i0 :: imgs)) as [img|] eqn:Hfind.
  - apply find_some in Hfind as [Hin [Ha Hu]%andb_prop].
    intros Hsrc. exists img. repeat split; auto. now apply String.eqb_eq.
  - cbn [andb]. now destruct productImage.
Qed.

Lemma getImageForAngle_single (productImage : option string) (a src : string) :
  getImageForAngle [] productImage true a = Some src ->
  productImage = Some src /\ src <> "".
Proof.
  unfold getImageForAngle. destruct productImage as [p|]; [|discriminate].
  cbn [andb]. destruct (String.eqb_spec p ""); cbn; [discriminate|].
  intros [= <-]. auto.
Qed.

Lemma omap_sublist {A B} (f : A -> option B) (g : B -> A) (l : list A) :
  (forall a b, f a = Some b -> g b = a) ->
  sublist (List.map g (omap f l)) l.
Proof.
  intros Hfg. induction l as [|a l IH]; cbn; [constructor|].
  destruct (f a) as [b|] eqn:Hf; cbn.
  - rewrite (Hfg a b Hf). now constructor.
  - now constructor.
Qed.

(** X28. What the angle selector draws.  It draws nothing at all without
    angles, or when there are variation images and none has a file.
    Otherwise its thumbnails follow the order of [angles], none has an
    empty source, and the selected one is the one of [selectedAngle];
    with variation images every thumbnail shows an image of its own angle
    that has a file (the product image is not used to fill in), and
    without variation images every thumbnail shows the product image;
    it draws thumbnails only without variation images or with one that
    has a file. *)
Theorem selector_thumbnails (angles : option (list string)) (selectedAngle : string)
    (variationImages : list VariationImage) (productImage : option string) :
  match ProductAnglesSelector angles selectedAngle variationImages productImage with
  | None =>
      angles = None \/ angles = Some []
      \/ (variationImages <> [] /\ existsb has_url variationImages = false)
  | Some thumbnails =>
      (exists l, angles = Some l /\ l <> []
                 /\ sublist (List.map th_angle thumbnails) l)
      /\ Forall (fun th => th_src th <> ""
                           /\ th_selected th = String.eqb selectedAngle (th_angle th))
                thumbnails
      /\ (variationImages <> [] ->
          Forall (fun th => exists img,
                      In img variationImages /\ angle img = th_angle th
                      /\ url img = Some (th_src th) /\ has_url img = true)
                 thumbnails)
      /\ (variationImages = [] ->
          Forall (fun th => productImage = Some (th_src th)) thumbnails)
      /\ (variationImages = [] \/ existsb has_url variationImages = true)
  end.
Proof.
  unfold ProductAnglesSelector.
  destruct angles as [[|a0 l]|]; [auto|..|auto].
  destruct (negb (existsb has_url variationImages)
            && negb (Nat.eqb (length variationImages) 0))%bool eqn:Hnull.
  { apply andb_prop in Hnull as [Hv%negb_true_iff Hl%negb_true_iff].
    right. right. split; [|assumption].
    intros ->. discriminate Hl. }
  set (f := fun a => match getImageForAngle variationImages productImage
                             (Nat.eqb (length variationImages) 0) a with
                     | Some imageUrl =>
                         if String.eqb imageUrl "" then None
                         else Some (mkThumbnail a imageUrl (String.eqb selectedAngle a))
                     | None => None
                     end).
  assert (Hf : forall a th, f a = Some th ->
             th_angle th = a /\ th_src th <> ""
             /\ th_selected th = String.eqb selectedAngle a
             /\ getImageForAngle variationImages productImage
                  (Nat.eqb (length variationImages) 0) a = Some (th_src th)).
  { intros a th. unfold f.
    destruct (getImageForAngle _ _ _ a) as [src|]; [|discriminate].
    destruct (String.eqb_spec src ""); [discriminate|].
    intros [= <-]. cbn. auto. }
  assert (Hall : forall (P : Thumbnail -> Prop) (l : list string),
             (forall a th, f a = Some th -> P th) -> Forall P (omap f l)).
  { intros P l' HP. apply List.Forall_forall. intros th Hin.
    apply list_elem_of_In in Hin. apply list_elem_of_omap in Hin as (a & _ & Hfa).
    eauto. }
  split; [|split; [|split; [|split]]].
  5: { destruct variationImages as [|i0 imgs]; [now left|right].
       cbn [length Nat.eqb negb andb] in Hnull. rewrite andb_true_r in Hnull.
       now apply negb_false_iff in Hnull. }
  - exists (a0 :: l). repeat split; [discriminate|].
    apply omap_sublist. intros a th Hth. now apply Hf in Hth.
  - apply Hall. intros a th Hth. apply Hf in Hth as (<- & Hsrc & Hsel & _). auto.
  - intros Hne. apply Hall. intros a th Hth.
    apply Hf in Hth as (<- & _ & _ & Hget).
    replace (Nat.eqb (length variationImages) 0) with false in Hget
      by (destruct variationImages; [congruence|reflexivity]).
    now apply (getImageForAngle_variation _ productImage).
  - intros ->. apply Hall. intros a th Hth.
    apply Hf in Hth as (<- & _ & _ & Hget).
    now apply getImageForAngle_single in Hget.
Qed.

End Selector.

(** ** The filters of the products view *)

Section ViewFilters.
Import Js ProductsView.

Lemma from_set_spec (l seen : list string) :
  NoDup (from_set l seen)
  /\ (forall x, In x (from_set l seen)
                <-> In x l /\ existsb (String.eqb x) seen = false).
Proof.
  revert seen. induction l as [|a l IH]; intros seen; cbn [from_set].
  - split; [constructor|]. cbn. tauto.
  - destruct (existsb (String.eqb a) seen) eqn:Ha.
    + destruct (IH seen) as [Hn Hin]. split; [assumption|].
      intros x. rewrite Hin. cbn. split; [tauto|].
      intros [[<-|Hx] Hs]; [congruence|tauto].
    + destruct (IH (a :: seen)) as [Hn Hin]. split.
      * apply NoDup_cons. split; [|assumption].
        intros Hx%list_elem_of_In. apply Hin in Hx as [_ Hx]. cbn in Hx.
        now rewrite String.eqb_refl in Hx.
      * intros x. cbn [In existsb]. rewrite Hin. cbn [existsb].
        destruct (String.eqb_spec x a) as [->|Hne]; cbn [orb].
        -- split; [intros [[]|[_ [=]]]|intros _; now left]; auto.
        -- split; [intros [Hx|Hx]; [congruence|tauto]|].
           intros [[->|Hx] Hs]; [congruence|tauto].
Qed.

Lemma toggled_spec (selected : list string) (id : string) (checked : bool) :
  NoDup (toggled selected id checked)
  /\ (forall x, In x (toggled selected id checked)
                <-> if checked then x = id \/ In x selected
                    else x <> id /\ In x selected).
Proof.
  destruct (from_set_spec selected []) as [Hn Hin].
  assert (Hin' : forall x, In x (from_set selected []) <-> In x selected).
  { intros x. rewrite Hin. cbn. tauto. }
  unfold toggled. cbv zeta. destruct checked.
  - destruct (existsb (String.eqb id) (from_set selected [])) eqn:Hex.
    + split; [assumption|]. intros x. rewrite Hin'. split; [tauto|].
      intros [->|Hx]; [|assumption].
      apply existsb_exists in Hex as (y & Hy & ->%String.eqb_eq).
      now apply Hin'.
    + split.
      * apply NoDup_app. repeat split; [assumption| |apply NoDup_singleton].
        intros x Hx%list_elem_of_In Hx'%list_elem_of_In. destruct Hx' as [<-|[]].
        assert (existsb (String.eqb id) (from_set selected []) = true); [|congruence].
        apply existsb_exists. exists id. split; [assumption|apply String.eqb_refl].
      * intros x. rewrite in_app_iff, Hin'. cbn. intuition congruence.
  - split.
    + apply NoDup_ListNoDup, List.NoDup_filter, NoDup_ListNoDup, Hn.
    + intros x. rewrite filter_In, Hin'.
      destruct (String.eqb_spec x id); cbn; intuition congruence.
Qed.

(** X29. The category check boxes of the products view.  The selection
    never lists a category twice.  Checking a category adds it and leaves
    the subcategories alone; unchecking it removes it and, with it, every
    selected subcategory that belongs to it, the other subcategories
    staying selected.  A subcategory check box adds or removes its
    subcategory, and nothing else, in the same way. *)
Theorem toggleCategory_selection (subs : list Subcategory)
    (selectedCategories selectedSubcats : list string)
    (id : string) (checked : bool) :
  let '(categories, subcats) :=
    toggleCategory subs selectedCategories selectedSubcats id checked in
  NoDup categories
  /\ (forall c, In c categories
                <-> if checked then c = id \/ In c selectedCategories
                    else c <> id /\ In c selectedCategories)
  /\ (forall sid, In sid subcats
                  <-> In sid selectedSubcats
                      /\ (checked = true
                          \/ forall s, In s subs -> sub_id s = sid ->
                                       sub_categoryId s <> id))
  /\ NoDup (toggleSubcategory selectedSubcats id checked)
  /\ (forall sid, In sid (toggleSubcategory selectedSubcats id checked)
                  <-> if checked then sid = id \/ In sid selectedSubcats
                      else sid <> id /\ In sid selectedSubcats).
Proof.
  unfold toggleCategory, toggleSubcategory. cbv zeta.
  destruct (toggled_spec selectedCategories id checked) as [Hn Hin].
  destruct (toggled_spec selectedSubcats id checked) as [Hn' Hin'].
  destruct checked.
  - split; [assumption|]. split; [apply Hin|].
    split; [|split; [assumption|apply Hin']]. intros sid. tauto.
  - split; [assumption|]. split; [apply Hin|].
    split; [|split; [assumption|apply Hin']]. intros sid. split.
    + intros [Hsel Hex]%filter_In. split; [assumption|].
      right. intros s Hs Hid Hcat.
      apply negb_true_iff in Hex.
      assert (existsb (String.eqb sid)
                (List.map sub_id
                   (List.filter (fun s => String.eqb (sub_categoryId s) id) subs))
              = true); [|congruence].
      apply existsb_exists. exists sid. split; [|apply String.eqb_refl].
      apply in_map_iff. exists s. split; [assumption|].
      apply filter_In. split; [assumption|]. now apply String.eqb_eq.
    + intros [Hsel [Hc|Hnone]]; [discriminate|].
      apply filter_In. split; [assumption|]. apply negb_true_iff.
      destruct (existsb _ _) eqn:Hex; [|reflexivity].
      apply existsb_exists in Hex as (y & Hy & ->%String.eqb_eq).
      apply in_map_iff in Hy as (s & Hid & [Hs Hcat%String.eqb_eq]%filter_In).
      exfalso. eapply Hnone; eauto.
Qed.

End ViewFilters.


(** ** The properties above on concrete stores *)

Section ServerScenarios.
Import Js Mongo MemStore Driver MemStoreX ProductService ProductServiceWrites.
Import Spec Scenario.
#[local] Existing Instance literal_semantics.


(** Deleting the second of three products. *)
Lemma deleteProduct_removes_witness :
  let id := "000000000000000000000002" in
  let w' := with_docs (catalogue 3) [numbered_product 1; numbered_product 3] in
  perform (driver false) (deleteProduct id) (catalogue 3) = (Returned true, w')
  /\ run handler (getProductById id) w' = (Returned None, w')
  /\ perform (driver false) (deleteProduct id) w' = (Returned false, w').
Proof.
  exact (deleteProduct_removes false (catalogue 3)
           "000000000000000000000002" "000000000000000000000002"
           [numbered_product 1] [numbered_product 3] (numbered_product 2)
           eq_refl eq_refl eq_refl eq_refl eq_refl eq_refl).
Defined.

Lemma deleteProduct_missing_witness :
  perform (driver false) (deleteProduct "0123456789abcdef01234567") (catalogue 3)
  = (Returned false, catalogue 3).
Proof.
  exact (proj1 (deleteProduct_missing false (catalogue 3)
                  "0123456789abcdef01234567" eq_refl)
           "0123456789abcdef01234567" eq_refl eq_refl).
Defined.

(** Changing the price of the second of three products. *)
Lemma updateProduct_then_getProductById_witness :
  let id := "000000000000000000000002" in
  let productData : Obj := {[ "price" := VNum (num 12) ]} in
  exists product w',
    perform (driver false) (updateProduct id productData) (catalogue 3)
    = (Returned (Some product), w')
    /\ run handler (getProductById id) w' = (Returned (Some product), w')
    /\ get product "id" = VStr id.
Proof.
  intros id productData.
  destruct (updateProduct_then_getProductById false (catalogue 3) id id
              [numbered_product 1] [numbered_product 3] (numbered_product 2)
              productData eq_refl eq_refl eq_refl eq_refl eq_refl eq_refl
              (fun _ => conj eq_refl eq_refl))
    as (Hup & Hget & Hid & _).
  eexists _, _. split; [exact Hup|]. split; [exact Hget | exact Hid].
Defined.

Lemma updateProduct_missing_witness :
  let id := "0123456789abcdef01234567" in
  perform (driver false) (updateProduct id ∅) (catalogue 3)
  = (Returned None, catalogue 3)
  /\ perform (driver true) (updateProduct id ∅) (catalogue 3)
     = (Threw (mkError "Cannot read properties of undefined (reading 'toString')" None),
        catalogue 3).
Proof.
  exact (updateProduct_missing (catalogue 3) "0123456789abcdef01234567"
           "0123456789abcdef01234567" ∅ eq_refl eq_refl eq_refl).
Defined.

Lemma catalogue_ids (n : nat) :
  Forall (fun d : Obj => exists h, d !! "_id" = Some (VOid h)) (docs (catalogue n)).
Proof.
  unfold catalogue. cbn [docs]. apply List.Forall_map, List.Forall_forall.
  intros i _. eexists. reflexivity.
Defined.

Lemma getAllProducts_all_witness :
  exists ps,
    perform (driver false) getAllProducts (catalogue 3) = (Returned ps, catalogue 3)
    /\ length ps = 3%nat.
Proof.
  destruct (getAllProducts_all false (catalogue 3) eq_refl (catalogue_ids 3))
    as (ps & Hrun & Hlen & _).
  exists ps. split; [exact Hrun | exact Hlen].
Defined.

(** A product fetched from the store has the stable shape. *)
Lemma returned_products_are_normalized_witness :
  exists p,
    run handler (getProductById "000000000000000000000002") (catalogue 3)
    = (Returned (Some p), catalogue 3)
    /\ normalized p.
Proof.
  eexists. split; [reflexivity|].
  exact (proj1 returned_products_are_normalized World handler (catalogue 3)
           (catalogue 3) "000000000000000000000002" _ eq_refl).
Defined.

(** Page 2 of 25 products, ten to a page. *)
Lemma paginated_documents_projected_witness :
  exists r,
    run handler (getProductsPaginated (mkParams (num 2) (num 10) None None))
        (catalogue 25)
    = (Returned r, catalogue 25)
    /\ Forall (fun q : Obj => q !! "_id" = None) (data r).
Proof.
  destruct (paginated_documents_projected (catalogue 25) 2 10 None None
              (mkMatch None None None) (fun _ => true)
              eq_refl ltac:(lia) ltac:(lia) eq_refl eq_refl)
    as (r & Hrun & Hall).
  exists r. split; [exact Hrun|].
  eapply List.Forall_impl; [|exact Hall].
  intros q (d & _ & _ & Hq & _). exact Hq.
Defined.

Lemma paginated_newest_first_witness :
  exists r,
    run handler (getProductsPaginated (mkParams (num 2) (num 10) None None))
        (catalogue 25)
    = (Returned r, catalogue 25)
    /\ StronglySorted not_older (data r).
Proof.
  destruct (paginated_newest_first (catalogue 25) 2 10 None None
              (mkMatch None None None) (fun _ => true)
              eq_refl ltac:(lia) ltac:(lia) eq_refl eq_refl)
    as (r & Hrun & Hsorted & _).
  exists r. split; [exact Hrun | exact Hsorted].
Defined.

Lemma pages_partition_witness :
  let matched := List.filter (fun _ => true) (docs (catalogue 25)) in
  concat (List.map (fun i => page_of (Z.of_nat i) 10 matched)
            (seq 1 (Z.to_nat (ceil_div (Z.of_nat (length matched)) 10))))
  = projected_all matched.
Proof.
  exact (proj1 (proj2 (pages_partition (catalogue 25) 10 None None
                         (mkMatch None None None) (fun _ => true)
                         eq_refl ltac:(lia) (fun _ => eq_refl) eq_refl))).
Defined.

Lemma hasNext_means_more_witness :
  exists r,
    run handler (getProductsPaginated (mkParams (num 2) (num 10) None None))
        (catalogue 25)
    = (Returned r, catalogue 25)
    /\ (pg_hasNext (pagination r) = true
        <-> 2 * 10 < Z.of_nat (length (List.filter (fun _ => true) (docs (catalogue 25))))).
Proof.
  destruct (hasNext_means_more (catalogue 25) 2 10 None None
              (mkMatch None None None) (fun _ => true)
              eq_refl ltac:(lia) ltac:(lia) eq_refl eq_refl)
    as (r & Hrun & Hnext & _).
  exists r. split; [exact Hrun | exact Hnext].
Defined.

End ServerScenarios.

Section ClientScenarios.
Import Js Mongo MemStore ProductService ProductsSlice ProductsView.
Import ProductFormDialog ProductFormEditing ClientSpec Scenario ClientScenario.
#[local] Existing Instance literal_semantics.

(** Page 2 of 25 products, asked for through the thunk. *)
Lemma thunk_request_reaches_service_witness :
  let params := mkParams (num 2) (num 10) (Some "mug") None in
  run handler (Route.GET (ProductsSliceWrites.query_of integer_toString params))
      (catalogue 25)
  = match run handler (getProductsPaginated params) (catalogue 25) with
    | (Returned result, w') =>
        (Returned (Route.mkResponse 200 (Route.ResultBody result)), w')
    | (Threw error, w') =>
        (Returned (Route.mkResponse 500
                     (Route.ErrorBody "Failed to fetch products"
                                      (Some (err_message error)))), w')
    end.
Proof.
  exact (thunk_request_reaches_service handler integer_toString (catalogue 25)
           2 10 (Some "mug") None eq_refl eq_refl ltac:(lia) ltac:(lia)).
Defined.

Lemma view_handlers_store_what_they_request_witness :
  let d := handleSearchChange initialState "mug" in
  let state' := ProductsSlice.reducer initialState (action d) in
  ProductsSlice.page (pagination state') = ProductService.page (fetch d)
  /\ Some (searchTerm state') = search (fetch d)
  /\ Some (selectedCategory state') = categoryId (fetch d)
  /\ ProductService.limit (fetch d) = num 10
  /\ items state' = items initialState.
Proof.
  exact (view_handlers_store_what_they_request initialState
           (handleSearchChange initialState "mug")
           (or_intror (or_introl (ex_intro _ "mug" eq_refl)))).
Defined.

Lemma resetFilters_first_page_all_categories_witness :
  fetch (resetFilters initialState)
  = mkParams (num 1) (num 10) (Some "") (Some "all")
  /\ category_filter (fetch (resetFilters initialState)) = None.
Proof.
  destruct (resetFilters_first_page_all_categories handler integer_toString
              initialState (catalogue 25) eq_refl eq_refl) as (H1 & H2 & _).
  split; [exact H1 | exact H2].
Defined.

Lemma safeProducts_after_fetchProducts_witness :
  safeProducts
    (items (ProductsSlice.reducer initialState
              (fetchProducts_fulfilled malformed_body)))
  = [].
Proof.
  exact (safeProducts_after_fetchProducts initialState malformed_body
           malformed_body eq_refl).
Defined.

Lemma deleteProduct_fulfilled_removes_witness :
  exists state',
    ProductsSliceWrites.reducer two_items
      (ProductsSliceWrites.deleteProduct_fulfilled "a") = Returned state'
    /\ ProductsSliceWrites.reducer state'
         (ProductsSliceWrites.deleteProduct_fulfilled "a") = Returned state'.
Proof.
  destruct (deleteProduct_fulfilled_removes two_items _ "a" eq_refl eq_refl)
    as (H1 & _ & _ & H2).
  eexists. split; [exact H1 | exact H2].
Defined.

Lemma updateProduct_fulfilled_replaces_witness :
  ProductsSliceWrites.reducer two_items
    (ProductsSliceWrites.updateProduct_fulfilled (VObj renamed_b))
  = Returned
      (ProductsSliceWrites.with_items two_items
         (VArr [ VObj {[ "id" := VStr "a"; "name" := VStr "Mug" ]};
                 VObj renamed_b ])
         false).
Proof.
  destruct (updateProduct_fulfilled_replaces two_items _ renamed_b
              eq_refl eq_refl)
    as (l' & Hred & _ & [[Hnone _]|(n & item & Hn & Hid & Hbefore & -> & _)]).
  - exfalso. apply List.Forall_forall with (x := VObj {[ "id" := VStr "b"; "name" := VStr "Cap" ]}) in Hnone.
    + discriminate Hnone.
    + right. left. reflexivity.
  - rewrite Hred. destruct n as [|[|n]].
    + exfalso. injection Hn as <-. discriminate Hid.
    + reflexivity.
    + discriminate Hn.
Defined.

Lemma list_reducers_throw_after_malformed_fetch_witness :
  exists e,
    ProductsSliceWrites.reducer
      (ProductsSlice.reducer initialState (fetchProducts_fulfilled malformed_body))
      (ProductsSliceWrites.createProduct_fulfilled (VObj renamed_b))
    = Threw e.
Proof.
  exact (list_reducers_throw_after_malformed_fetch initialState
           {[ "data" := VStr "oops" ]} malformed_body
           (ProductsSliceWrites.createProduct_fulfilled (VObj renamed_b))
           eq_refl eq_refl
           (or_introl (ex_intro _ (VObj renamed_b) (or_intror (or_introl eq_refl))))).
Defined.

Lemma cached_state_same_but_cache :
  same_but_cache initialState
    (ProductsSlice.reducer initialState (cachePage (num 1) (VArr []))).
Proof. repeat split; reflexivity. Defined.

Lemma pageCache_never_read_witness :
  same_but_cache
    (ProductsSlice.reducer initialState (setPage (num 2)))
    (ProductsSlice.reducer
       (ProductsSlice.reducer initialState (cachePage (num 1) (VArr [])))
       (setPage (num 2))).
Proof.
  exact (proj1 (pageCache_never_read initialState _ cached_state_same_but_cache)
           (setPage (num 2))).
Defined.

Lemma one_front_image_edits : edits [] one_front_image.
Proof.
  apply (edits_more [] (addVariation 1 (num 5) [])).
  - apply by_addVariation.
  - apply (edits_more _ one_front_image); [|apply edits_none].
    apply (by_addVariationImage _ 2 0 "front"
             (mkVariation "var_1" (mkColor "" "#000000" (Some ""))
                          (num 5) true (num 0) (Some [])));
      [left; reflexivity | reflexivity | reflexivity].
Defined.

Lemma form_edits_keep_variations_tidy_witness :
  Forall tidy one_front_image
  /\ Forall (fun v => (length (images_or_empty v) <= 5)%nat) one_front_image.
Proof.
  destruct (form_edits_keep_variations_tidy [] one_front_image
              (form_with one_front_image) one_front_image_edits
              (List.Forall_nil _) eq_refl) as (H1 & H2 & _).
  split; [exact H1 | exact H2].
Defined.

Lemma removing_the_primary_leaves_none_witness :
  exists next left,
    removeVariationImage [front_and_back] 0 "img_1" = Some next
    /\ at_index next 0 = Some (with_images front_and_back left)
    /\ primaries left = 0%nat
    /\ left <> [].
Proof.
  destruct (removing_the_primary_leaves_none [front_and_back] _ 0 front_and_back
              (mkImage "img_1" (Some "u1") (Some "") "front" true) 3 "left"
              eq_refl (le_n 1) (or_introl eq_refl) eq_refl eq_refl)
    as (left & Hat & Hnone & _).
  eexists _, left. split; [reflexivity|]. split; [exact Hat|].
  split; [exact Hnone|].
  injection Hat as <-. discriminate.
Defined.

End ClientScenarios.
